(** * Product editor of the admin panel: variant matrix and save sequence

    A shallow embedding of the product dialog of [ProductManagement]
    (the draft held in [formData], the reducers [setSizes], [setColors],
    [setPrimaryColor], [updateVariant], [removeVariant], and the save
    routine [handleSubmit]) together with the properties of the variant
    matrix and of the save sequence.

    Conventions.
    - JavaScript strings are [string]; the editor only compares them and
      cuts ASCII prefixes.
    - [number] values that are only carried around (prices) are kept as an
      optional rational; stock quantities are integers ([parseInt (..) || 0]
      in the dialog, [INTEGER] in the table) and are modelled by [Z], on
      which the double-precision sum of the source is exact below 2^53.
    - [T | null] and optional fields are [option T].
    - [Math.random ().toString (36)] is an oracle indexed by the number of
      draws made so far; the draft carries that counter.
    - The hosted database and the object store are external: a request
      either fails with an error or has its table-level effect. *)

From Stdlib Require Import List String Ascii Bool Arith ZArith QArith Lia Permutation.
From Stdlib Require Import DecimalString.
Import ListNotations.

Local Open Scope string_scope.
Local Open Scope list_scope.
Local Open Scope nat_scope.

Set Implicit Arguments.

(* ------------------------------------------------------------------ *)
(** ** JavaScript helpers *)

(** A JavaScript [number] that the editor never computes with. *)
Inductive number : Type :=
| NaN
| Num (q : Q).

(** Truthiness of a string: only the empty string is falsy. *)
Definition truthy (s : string) : bool :=
  match s with
  | EmptyString => false
  | String _ _ => true
  end.

(** Truthiness of [string | null] / [string | undefined]. *)
Definition truthy_opt (o : option string) : bool :=
  match o with
  | Some s => truthy s
  | None => false
  end.

(** [a === b] for [a : string | null] and [b : string]. *)
Definition strict_eq (a : option string) (b : string) : bool :=
  match a with
  | Some x => String.eqb x b
  | None => false
  end.

(** [arr.includes (x)] on an array of strings. *)
Definition includes (arr : list string) (x : string) : bool :=
  existsb (String.eqb x) arr.

Definition upper_ascii (c : ascii) : ascii :=
  let n := nat_of_ascii c in
  if (97 <=? n) && (n <=? 122) then ascii_of_nat (n - 32) else c.

(** [s.toUpperCase ()] on ASCII text. *)
Fixpoint toUpperCase (s : string) : string :=
  match s with
  | EmptyString => EmptyString
  | String c s' => String (upper_ascii c) (toUpperCase s')
  end.

(** [s.substring (from, to)] with [from <= to]. *)
Definition js_substring (from to : nat) (s : string) : string :=
  String.substring from (to - from) s.

(** [arr.findIndex (p)]: the first index satisfying [p], or [-1]. *)
Fixpoint findIndex_from {A : Type} (p : A -> bool) (l : list A) (i : Z) : Z :=
  match l with
  | [] => (-1)%Z
  | x :: l' => if p x then i else findIndex_from p l' (i + 1)%Z
  end.

Definition findIndex {A : Type} (p : A -> bool) (l : list A) : Z :=
  findIndex_from p l 0%Z.

(** [arr.map ((v, i) => f (v, i))]. *)
Fixpoint mapi_from {A B : Type} (f : A -> nat -> B) (l : list A) (i : nat) : list B :=
  match l with
  | [] => []
  | x :: l' => f x i :: mapi_from f l' (S i)
  end.

Definition mapi {A B : Type} (f : A -> nat -> B) (l : list A) : list B :=
  mapi_from f l 0.

(** [arr.filter ((_, i) => i !== index)]. *)
Fixpoint remove_at {A : Type} (index : nat) (l : list A) : list A :=
  match l, index with
  | [], _ => []
  | _ :: l', O => l'
  | x :: l', S k => x :: remove_at k l'
  end.

(** Decimal rendering of a length inside a template string. *)
Definition show_nat (n : nat) : string :=
  NilEmpty.string_of_uint (Nat.to_uint n).

(** A stock quantity is a JavaScript number that holds an integer: the
    value of an [INTEGER] column, the literal [0], or
    [parseInt (..) || 0]. [double_round z] is the double nearest to the
    integer [z], ties going to the even significand: the value an
    addition with exact result [z] yields while the result is finite.
    Every integer up to [2 ^ 53] is a double. *)
Definition double_round (z : Z) : Z :=
  let a := Z.abs z in
  if (a <=? 2 ^ 53)%Z then z
  else
    let ulp := (2 ^ (Z.log2 a - 52))%Z in
    let q := (a / ulp)%Z in
    let r := (a mod ulp)%Z in
    let up :=
      if (2 * r <? ulp)%Z then false
      else if (ulp <? 2 * r)%Z then true
      else Z.odd q in
    (Z.sgn z * ((if up then q + 1 else q) * ulp))%Z.

(** [a + b] on two such numbers. *)
Definition double_add (a b : Z) : Z := double_round (a + b).

(* ------------------------------------------------------------------ *)
(** ** Data model *)

Module ColorItem.
Record t : Type := mk {
  id : string;
  name : string;
  hex : string
}.
End ColorItem.

Module Variant.
Record t : Type := mk {
  id : option string;
  product_id : option string;
  color_id : option string;
  size : string;
  sku : string;
  price : option number;
  stock_quantity : Z;
  image_urls : list string;
  is_primary : bool
}.

(** [{ ...v, image_urls: urls }] *)
Definition with_image_urls (v : t) (urls : list string) : t :=
  mk (id v) (product_id v) (color_id v) (size v) (sku v) (price v)
     (stock_quantity v) urls (is_primary v).

(** [{ ...v, is_primary: b }] *)
Definition with_is_primary (v : t) (b : bool) : t :=
  mk (id v) (product_id v) (color_id v) (size v) (sku v) (price v)
     (stock_quantity v) (image_urls v) b.
End Variant.

Inductive Status : Type :=
| active
| inactive.

(** The draft of the dialog ([formData]). The numeric inputs are kept as
    the text typed in the form. *)
Module FormData.
Record t : Type := mk {
  sku : string;
  name : string;
  description : string;
  price : string;
  discount_price : string;
  collection_id : string;
  stock_quantity : string;
  status : Status;
  fabrics : list string;
  variants : list Variant.t;
  colors : list ColorItem.t;
  sizes : list string
}.

(** [{ ...prev, variants: vs }] *)
Definition with_variants (prev : t) (vs : list Variant.t) : t :=
  mk (sku prev) (name prev) (description prev) (price prev)
     (discount_price prev) (collection_id prev) (stock_quantity prev)
     (status prev) (fabrics prev) vs (colors prev) (sizes prev).

(** [{ ...prev, sizes: ss, variants: vs }] *)
Definition with_sizes_variants (prev : t) (ss : list string)
    (vs : list Variant.t) : t :=
  mk (sku prev) (name prev) (description prev) (price prev)
     (discount_price prev) (collection_id prev) (stock_quantity prev)
     (status prev) (fabrics prev) vs (colors prev) ss.

(** [{ ...prev, colors: cs, variants: vs }] *)
Definition with_colors_variants (prev : t) (cs : list ColorItem.t)
    (vs : list Variant.t) : t :=
  mk (sku prev) (name prev) (description prev) (price prev)
     (discount_price prev) (collection_id prev) (stock_quantity prev)
     (status prev) (fabrics prev) vs cs (sizes prev).

(** The draft installed by [resetForm]. *)
Definition empty : t :=
  mk "" "" "" "" "" "" "" active [] [] [] [].
End FormData.

(* ------------------------------------------------------------------ *)
(** ** The variant matrix reducers *)

Section Reducers.

(** [random36 k] is the text of the [k]-th [Math.random ().toString (36)]. *)
Variable random36 : nat -> string.

(** A draft together with the number of random draws made so far. *)
Definition Draft : Type := (FormData.t * nat)%type.

(** The SKU template of a synthesized variant. Names and sizes are read
    as ASCII text: [substring] then counts characters and [toUpperCase]
    maps the letters a to z. *)
Definition auto_sku (prev_sku : string) (colorObj : ColorItem.t)
    (size : string) (draw : nat) : string :=
  (if truthy prev_sku then prev_sku ++ "-" else "")
  ++ toUpperCase (js_substring 0 3 (ColorItem.name colorObj)) ++ "-"
  ++ toUpperCase (js_substring 0 3 size) ++ "-"
  ++ toUpperCase (js_substring 2 6 (random36 draw)).

(** The object pushed for a missing (color, size) pair. *)
Definition new_variant (prev_sku : string) (colorObj : ColorItem.t)
    (size : string) (draw : nat) : Variant.t :=
  Variant.mk None None (Some (ColorItem.id colorObj)) size
    (auto_sku prev_sku colorObj size draw) None 0%Z [] false.

(** [v.color_id === colorObj.id && v.size === size] *)
Definition same_cell (cid : string) (size : string) (v : Variant.t) : bool :=
  strict_eq (Variant.color_id v) cid && String.eqb (Variant.size v) size.

(** Body of the inner [forEach]: push a variant unless one exists. *)
Definition ensure_variant (prev_sku : string) (colorObj : ColorItem.t)
    (size : string) (acc : list Variant.t * nat) : list Variant.t * nat :=
  match find (same_cell (ColorItem.id colorObj) size) (fst acc) with
  | Some _ => acc
  | None =>
      (fst acc ++ [new_variant prev_sku colorObj size (snd acc)],
       S (snd acc))
  end.

Definition setSizes (sizes : list string) (st : Draft) : Draft :=
  let prev := fst st in
  let newSizes := sizes in
  let newVariants :=
    filter (fun v => includes newSizes (Variant.size v))
           (FormData.variants prev) in
  let filled :=
    fold_left
      (fun acc size =>
         fold_left
           (fun acc colorObj =>
              ensure_variant (FormData.sku prev) colorObj size acc)
           (FormData.colors prev) acc)
      newSizes (newVariants, snd st) in
  (FormData.with_sizes_variants prev newSizes (fst filled), snd filled).

Definition setColors (colors : list ColorItem.t) (st : Draft) : Draft :=
  let prev := fst st in
  let newColors := colors in
  let colorIds := map ColorItem.id newColors in
  let newVariants :=
    filter
      (fun v =>
         truthy_opt (Variant.color_id v)
         && match Variant.color_id v with
            | Some cid => includes colorIds cid
            | None => false
            end)
      (FormData.variants prev) in
  let filled :=
    fold_left
      (fun acc colorObj =>
         fold_left
           (fun acc size =>
              ensure_variant (FormData.sku prev) colorObj size acc)
           (FormData.sizes prev) acc)
      newColors (newVariants, snd st) in
  (FormData.with_colors_variants prev newColors (fst filled), snd filled).

(** The fields [updateVariant] is called with ([Partial<Variant>]). *)
Inductive VariantUpdate : Type :=
| UpdSize (val : string)
| UpdSku (val : string)
| UpdStock (val : Z)
| UpdPrice (val : option number).

(** [{ ...v, ...updates }] *)
Definition apply_updates (v : Variant.t) (u : VariantUpdate) : Variant.t :=
  match u with
  | UpdSize s =>
      Variant.mk (Variant.id v) (Variant.product_id v) (Variant.color_id v)
        s (Variant.sku v) (Variant.price v) (Variant.stock_quantity v)
        (Variant.image_urls v) (Variant.is_primary v)
  | UpdSku s =>
      Variant.mk (Variant.id v) (Variant.product_id v) (Variant.color_id v)
        (Variant.size v) s (Variant.price v) (Variant.stock_quantity v)
        (Variant.image_urls v) (Variant.is_primary v)
  | UpdStock q =>
      Variant.mk (Variant.id v) (Variant.product_id v) (Variant.color_id v)
        (Variant.size v) (Variant.sku v) (Variant.price v) q
        (Variant.image_urls v) (Variant.is_primary v)
  | UpdPrice p =>
      Variant.mk (Variant.id v) (Variant.product_id v) (Variant.color_id v)
        (Variant.size v) (Variant.sku v) p (Variant.stock_quantity v)
        (Variant.image_urls v) (Variant.is_primary v)
  end.

Fixpoint update_at (index : nat) (u : VariantUpdate) (l : list Variant.t)
    : list Variant.t :=
  match l, index with
  | [], _ => []
  | v :: l', O => apply_updates v u :: l'
  | v :: l', S k => v :: update_at k u l'
  end.

(** [updateVariant (index, updates)]. The dialog calls it with the index
  of a rendered row, [index < variants.length]; past the end JavaScript
  would grow the array with a partial object, which is not a [Variant],
  and this model leaves the list as it is. *)
Definition updateVariant (index : nat) (u : VariantUpdate)
    (prev : FormData.t) : FormData.t :=
  FormData.with_variants prev (update_at index u (FormData.variants prev)).

Definition removeVariant (index : nat) (prev : FormData.t) : FormData.t :=
  FormData.with_variants prev (remove_at index (FormData.variants prev)).

Definition removeColorImage (colorId : string) (urlToRemove : string)
    (prev : FormData.t) : FormData.t :=
  FormData.with_variants prev
    (map
       (fun v =>
          if strict_eq (Variant.color_id v) colorId
          then Variant.with_image_urls v
                 (filter (fun url => negb (String.eqb url urlToRemove))
                         (Variant.image_urls v))
          else v)
       (FormData.variants prev)).

Definition setPrimaryColor (colorId : string) (prev : FormData.t)
    : FormData.t :=
  FormData.with_variants prev
    (mapi
       (fun v i =>
          let isFirstOfColor :=
            Z.eqb
              (findIndex
                 (fun varnt => strict_eq (Variant.color_id varnt) colorId)
                 (FormData.variants prev))
              (Z.of_nat i) in
          Variant.with_is_primary v
            (strict_eq (Variant.color_id v) colorId && isFirstOfColor))
       (FormData.variants prev)).

(** A color-set or size-set update of the dialog. *)
Inductive Update : Type :=
| SetColors (colors : list ColorItem.t)
| SetSizes (sizes : list string).

Definition apply_update (st : Draft) (u : Update) : Draft :=
  match u with
  | SetColors cs => setColors cs st
  | SetSizes ss => setSizes ss st
  end.

Definition run_updates (us : list Update) (st : Draft) : Draft :=
  fold_left apply_update us st.

End Reducers.

(* ------------------------------------------------------------------ *)
(** ** The save sequence: world, backend and effects *)

(** A browser [File]; only its identity matters to the editor. *)
Module File.
Record t : Type := mk { name : string }.
End File.

Module PendingFile.
Record t : Type := mk {
  file : File.t;
  preview : string;
  colorId : option string
}.
End PendingFile.

(** The columns written to a [products] row by [handleSubmit]. *)
Module ProductPayload.
Record t : Type := mk {
  sku : string;
  name : string;
  description : string;
  price : number;
  discount_price : option number;
  collection_id : option string;
  fabrics : list string;
  status : Status;
  stock_quantity : Z
}.
End ProductPayload.

(** The product being edited ([editingProduct]); the local-only optional
    fields of the list view are left out, [handleSubmit] reads [id]. *)
Module Product.
Record t : Type := mk {
  id : string;
  columns : ProductPayload.t;
  created_at : string
}.
End Product.

(** A [product_variants] row as sent by [handleSubmit]. *)
Module VariantRow.
Record t : Type := mk {
  product_id : string;
  color_id : option string;
  size : string;
  sku : string;
  price : option number;
  stock_quantity : Z;
  image_urls : list string;
  is_primary : bool
}.
End VariantRow.

(** A thrown value: [instanceof Error] and its [message]. *)
Module JsError.
Record t : Type := mk {
  is_Error : bool;
  message : string
}.
End JsError.

(** What the external services answer to each request of one save.
    Uploads are indexed by their position in [pendingFiles]. *)
Module Backend.
Record t : Type := mk {
  storage_upload : nat -> File.t -> option string;
  products_update : string -> ProductPayload.t -> option JsError.t;
  products_insert : ProductPayload.t -> JsError.t + string;
  variants_delete : string -> option JsError.t;
  variants_insert : list VariantRow.t -> option JsError.t
}.
End Backend.

(** Observable effects, in the order they are issued. *)
Inductive Event : Type :=
| ToastError (msg : string) (id : option string)
| ToastLoading (msg : string) (id : option string)
| ToastSuccess (msg : string) (id : option string)
| ConsoleLog (msg : string)
| StorageUpload (file : File.t)
| ProductsUpdate (id : string) (payload : ProductPayload.t)
| ProductsInsert (payload : ProductPayload.t)
| VariantsDelete (product_id : string)
| VariantsInsert (rows : list VariantRow.t)
| InvalidateQueries (key : string) (arg : option string).

(** Requests that leave the browser. *)
Definition is_network (e : Event) : bool :=
  match e with
  | StorageUpload _ | ProductsUpdate _ _ | ProductsInsert _
  | VariantsDelete _ | VariantsInsert _ => true
  | _ => false
  end.

(** Writes to the [products] and [product_variants] tables. *)
Definition is_db_write (e : Event) : bool :=
  match e with
  | ProductsUpdate _ _ | ProductsInsert _
  | VariantsDelete _ | VariantsInsert _ => true
  | _ => false
  end.

(** Component state, remote state and the trace of effects. *)
Module World.
Record t : Type := mk {
  formData : FormData.t;
  pendingFiles : list PendingFile.t;
  editingProduct : option Product.t;
  selectedProductId : option string;
  isDialogOpen : bool;
  products : list (string * ProductPayload.t);
  product_variants : list VariantRow.t;
  bucket : list File.t;
  trace : list Event
}.

Definition emit (e : Event) (w : t) : t :=
  mk (formData w) (pendingFiles w) (editingProduct w) (selectedProductId w)
     (isDialogOpen w) (products w) (product_variants w) (bucket w)
     (trace w ++ [e]).

Definition setFormData (f : FormData.t -> FormData.t) (w : t) : t :=
  mk (f (formData w)) (pendingFiles w) (editingProduct w)
     (selectedProductId w) (isDialogOpen w) (products w)
     (product_variants w) (bucket w) (trace w).

Definition setIsDialogOpen (b : bool) (w : t) : t :=
  mk (formData w) (pendingFiles w) (editingProduct w) (selectedProductId w)
     b (products w) (product_variants w) (bucket w) (trace w).

Definition resetForm (w : t) : t :=
  mk FormData.empty [] None None (isDialogOpen w) (products w)
     (product_variants w) (bucket w) (trace w).

Definition set_products (ps : list (string * ProductPayload.t)) (w : t) : t :=
  mk (formData w) (pendingFiles w) (editingProduct w) (selectedProductId w)
     (isDialogOpen w) ps (product_variants w) (bucket w) (trace w).

Definition set_product_variants (rows : list VariantRow.t) (w : t) : t :=
  mk (formData w) (pendingFiles w) (editingProduct w) (selectedProductId w)
     (isDialogOpen w) (products w) rows (bucket w) (trace w).

Definition store (f : File.t) (w : t) : t :=
  mk (formData w) (pendingFiles w) (editingProduct w) (selectedProductId w)
     (isDialogOpen w) (products w) (product_variants w) (bucket w ++ [f])
     (trace w).
End World.

(** Computations of the handler: they may throw and they change the world. *)
Definition M (A : Type) : Type := World.t -> (JsError.t + A) * World.t.

Definition ret {A : Type} (a : A) : M A := fun w => (inr a, w).

Definition bind {A B : Type} (m : M A) (k : A -> M B) : M B :=
  fun w =>
    match m w with
    | (inl e, w') => (inl e, w')
    | (inr a, w') => k a w'
    end.

Definition throw {A : Type} (e : JsError.t) : M A := fun w => (inl e, w).

Definition act (f : World.t -> World.t) : M unit := fun w => (inr tt, f w).

Definition emit (e : Event) : M unit := act (World.emit e).

Definition when_ (b : bool) (m : M unit) : M unit := if b then m else ret tt.

Declare Scope js_scope.
Delimit Scope js_scope with js.
Notation "x <- c1 ;; c2" := (bind c1 (fun x => c2))
  (at level 61, c1 at next level, right associativity) : js_scope.
Notation "c1 ;; c2" := (bind c1 (fun _ => c2))
  (at level 61, right associativity) : js_scope.

(** [try { body } catch (error) { handler (error) }] *)
Definition try_catch (body : M unit) (handler : JsError.t -> M unit) : M unit :=
  fun w =>
    match body w with
    | (inl e, w') => handler e w'
    | (inr tt, w') => (inr tt, w')
    end.

(* ------------------------------------------------------------------ *)
(** ** [uploadProductImage] and [handleSubmit] *)

Section Save.

(** [parseFloat] of the text of a numeric input. *)
Variable parseFloat : string -> number.

(** The answers of the storage service and of the database. *)
Variable backend : Backend.t.

Local Open Scope js_scope.

(** [uploadProductImage (file)]: the generated object path is internal to
    the store; any failure is rethrown as one fixed [Error]. *)
Definition uploadProductImage (position : nat) (file : File.t) : M string :=
  emit (StorageUpload file) ;;
  match Backend.storage_upload backend position file with
  | Some publicUrl => act (World.store file) ;; ret publicUrl
  | None => throw (JsError.mk true "Failed to upload image to Supabase Storage")
  end.

(** [pendingFiles.map (async pf => ...)]: every upload is started, each
    promise settles on its own. *)
Fixpoint start_uploads (pfs : list PendingFile.t) (position : nat)
    (w : World.t) : list (JsError.t + (string * option string)) * World.t :=
  match pfs with
  | [] => ([], w)
  | pf :: rest =>
      let '(r, w1) := uploadProductImage position (PendingFile.file pf) w in
      let settled :=
        match r with
        | inl e => inl e
        | inr url => inr (url, PendingFile.colorId pf)
        end in
      let '(rs, w2) := start_uploads rest (S position) w1 in
      (settled :: rs, w2)
  end.

(** [Promise.all]: all results, or a rejection when one promise rejects. *)
Fixpoint all_settled {A : Type} (rs : list (JsError.t + A)) : JsError.t + list A :=
  match rs with
  | [] => inr []
  | inl e :: _ => inl e
  | inr a :: rest =>
      match all_settled rest with
      | inl e => inl e
      | inr l => inr (a :: l)
      end
  end.

Definition promise_all_uploads (pfs : list PendingFile.t)
    : M (list (string * option string)) :=
  fun w =>
    let '(rs, w') := start_uploads pfs 0 w in
    (all_settled rs, w').

(** Body of [uploadedResults.forEach]. *)
Definition attach_upload (currentVariants : list Variant.t)
    (result : string * option string) : list Variant.t :=
  match snd result with
  | Some colorId =>
      if truthy colorId then
        map
          (fun v =>
             if strict_eq (Variant.color_id v) colorId
             then Variant.with_image_urls v
                    (if includes (Variant.image_urls v) (fst result)
                     then Variant.image_urls v
                     else Variant.image_urls v ++ [fst result])
             else v)
          currentVariants
      else currentVariants
  | None => currentVariants
  end.

(** [currentVariants.reduce ((acc, v) => acc + v.stock_quantity, 0)] *)
Definition total_stock (currentVariants : list Variant.t) : Z :=
  fold_left (fun acc v => double_add acc (Variant.stock_quantity v))
            currentVariants 0%Z.

Definition productPayload (formData : FormData.t)
    (currentVariants : list Variant.t) : ProductPayload.t :=
  ProductPayload.mk
    (FormData.sku formData)
    (FormData.name formData)
    (FormData.description formData)
    (parseFloat (FormData.price formData))
    (if truthy (FormData.discount_price formData)
     then Some (parseFloat (FormData.discount_price formData)) else None)
    (if truthy (FormData.collection_id formData)
     then Some (FormData.collection_id formData) else None)
    (FormData.fabrics formData)
    (FormData.status formData)
    (total_stock currentVariants).

(** [currentVariants[0].is_primary = true] *)
Definition force_first_primary (currentVariants : list Variant.t)
    : list Variant.t :=
  match currentVariants with
  | [] => []
  | v :: rest => Variant.with_is_primary v true :: rest
  end.

Definition variantsToInsert (productId : string)
    (currentVariants : list Variant.t) : list VariantRow.t :=
  map
    (fun v =>
       VariantRow.mk productId (Variant.color_id v) (Variant.size v)
         (Variant.sku v) (Variant.price v) (Variant.stock_quantity v)
         (Variant.image_urls v) (Variant.is_primary v))
    currentVariants.

(** Table-level effect of the four database requests. *)
Definition db_update_product (id : string) (payload : ProductPayload.t)
    (rows : list (string * ProductPayload.t)) : list (string * ProductPayload.t) :=
  map (fun row => if String.eqb (fst row) id then (fst row, payload) else row) rows.

Definition db_delete_variants (productId : string) (rows : list VariantRow.t)
    : list VariantRow.t :=
  filter (fun r => negb (String.eqb (VariantRow.product_id r) productId)) rows.

Definition supabase_products_update (id : string) (payload : ProductPayload.t)
    : M unit :=
  emit (ProductsUpdate id payload) ;;
  match Backend.products_update backend id payload with
  | Some error => throw error
  | None =>
      act (fun w => World.set_products
                      (db_update_product id payload (World.products w)) w)
  end.

Definition supabase_products_insert (payload : ProductPayload.t) : M string :=
  emit (ProductsInsert payload) ;;
  match Backend.products_insert backend payload with
  | inl error => throw error
  | inr id =>
      act (fun w => World.set_products (World.products w ++ [(id, payload)]) w) ;;
      ret id
  end.

Definition supabase_variants_delete (productId : string) : M unit :=
  emit (VariantsDelete productId) ;;
  match Backend.variants_delete backend productId with
  | Some deleteError => throw deleteError
  | None =>
      act (fun w => World.set_product_variants
                      (db_delete_variants productId (World.product_variants w)) w)
  end.

Definition supabase_variants_insert (rows : list VariantRow.t) : M unit :=
  emit (VariantsInsert rows) ;;
  match Backend.variants_insert backend rows with
  | Some variantError => throw variantError
  | None =>
      act (fun w => World.set_product_variants (World.product_variants w ++ rows) w)
  end.

(** The uploads of step 2: returns the local copy of the variants with
    the new image URLs attached. *)
Definition upload_pending (pendingFiles : list PendingFile.t)
    (currentVariants : list Variant.t) : M (list Variant.t) :=
  if 0 <? List.length pendingFiles then
    emit (ToastLoading
            ("Uploading " ++ show_nat (List.length pendingFiles) ++ " images...")
            (Some "upload")) ;;
    uploadedResults <- promise_all_uploads pendingFiles ;;
    let currentVariants' := fold_left attach_upload uploadedResults currentVariants in
    act (World.setFormData (fun prev => FormData.with_variants prev currentVariants')) ;;
    emit (ToastSuccess "All images uploaded" (Some "upload")) ;;
    ret currentVariants'
  else ret currentVariants.

(** The variant rows of step 4. The forced primary flag is written into
    the first variant object, which the draft shares with the local copy. *)
Definition save_variants (productId : string) (currentVariants : list Variant.t)
    : M unit :=
  supabase_variants_delete productId ;;
  let needs_primary :=
    (0 <? List.length currentVariants)
    && negb (existsb Variant.is_primary currentVariants) in
  let currentVariants' :=
    if needs_primary then force_first_primary currentVariants
    else currentVariants in
  when_ needs_primary
    (act (World.setFormData
            (fun prev => FormData.with_variants prev currentVariants'))) ;;
  let rows := variantsToInsert productId currentVariants' in
  emit (ConsoleLog ("Saving variants: " ++ show_nat (List.length rows))) ;;
  when_ (0 <? List.length rows) (supabase_variants_insert rows).

(** Steps 3 and 4 of the [try] block: the product row, then its variant
    rows, then the closing of the dialog. *)
Definition persist (formData : FormData.t) (editingProduct : option Product.t)
    (currentVariants : list Variant.t) : M unit :=
  let payload := productPayload formData currentVariants in
  productId <-
    match editingProduct with
    | Some p =>
        supabase_products_update (Product.id p) payload ;;
        ret (Product.id p)
    | None => supabase_products_insert payload
    end ;;
  when_ (truthy productId) (save_variants productId currentVariants) ;;
  emit (InvalidateQueries "products" None) ;;
  emit (InvalidateQueries "product-details" (Some productId)) ;;
  emit (ToastSuccess
          (match editingProduct with
           | Some _ => "Product updated"
           | None => "Product created"
           end) None) ;;
  act (World.setIsDialogOpen false) ;;
  act World.resetForm.

(** The [try] block of [handleSubmit], with the state captured by the
    handler's closure. *)
Definition submit_body (formData : FormData.t)
    (pendingFiles : list PendingFile.t) (editingProduct : option Product.t)
    : M unit :=
  currentVariants <- upload_pending pendingFiles (FormData.variants formData) ;;
  persist formData editingProduct currentVariants.

Definition submit_catch (error : JsError.t) : M unit :=
  let message :=
    if JsError.is_Error error then JsError.message error
    else "Submission failed" in
  emit (ToastError message (Some "upload")).

Definition handleSubmit (w : World.t) : World.t :=
  let formData := World.formData w in
  if (0 <? List.length (FormData.colors formData))
     && (List.length (FormData.variants formData) =? 0)
  then World.emit
         (ToastError "Please add at least one variant for your chosen colors" None)
         w
  else
    snd (try_catch
           (submit_body formData (World.pendingFiles w) (World.editingProduct w))
           submit_catch w).

End Save.

(* ------------------------------------------------------------------ *)
(** ** Predicates of the specification *)

(** Number of variants sitting in the cell (color id, size). *)
Definition cell_count (cid size : string) (vs : list Variant.t) : nat :=
  List.length (filter (same_cell cid size) vs).

(** Every variant belongs to a selected color and a selected size. *)
Definition within_selection (C : list ColorItem.t) (S : list string)
    (vs : list Variant.t) : Prop :=
  forall v, In v vs ->
    exists c, In c C /\ Variant.color_id v = Some (ColorItem.id c)
              /\ In (Variant.size v) S.

(** No cell holds two variants. *)
Definition at_most_one_per_cell (vs : list Variant.t) : Prop :=
  forall cid size, cell_count cid size vs <= 1.

(** The variant list is exactly the matrix C x S: nothing outside it, and
    one variant in each of its cells. *)
Definition full_matrix (C : list ColorItem.t) (S : list string)
    (vs : list Variant.t) : Prop :=
  within_selection C S vs
  /\ forall c s, In c C -> In s S -> cell_count (ColorItem.id c) s vs = 1.

(** Every variant of the draft carries one of the selected colors. *)
Definition colors_selected (d : FormData.t) : Prop :=
  forall v, In v (FormData.variants d) ->
    exists c, In c (FormData.colors d)
              /\ Variant.color_id v = Some (ColorItem.id c).

(** The fields of a freshly synthesized variant of color [cid]. *)
Definition synthesized (cid : string) (v : Variant.t) : Prop :=
  Variant.color_id v = Some cid
  /\ Variant.stock_quantity v = 0%Z
  /\ Variant.price v = None
  /\ Variant.image_urls v = []
  /\ Variant.is_primary v = false.

(** The (color, size) pairs in the order the two nested loops visit them. *)
Definition size_major (sizes : list string) (colors : list ColorItem.t)
    : list (ColorItem.t * string) :=
  flat_map (fun s => map (fun c => (c, s)) colors) sizes.

Definition color_major (colors : list ColorItem.t) (sizes : list string)
    : list (ColorItem.t * string) :=
  flat_map (fun c => map (fun s => (c, s)) sizes) colors.

Definition has_pair (cid size : string) (pairs : list (ColorItem.t * string))
    : bool :=
  existsb
    (fun p => String.eqb (ColorItem.id (fst p)) cid && String.eqb (snd p) size)
    pairs.

(** The color filter of [setColors]. *)
Definition color_kept (colorIds : list string) (v : Variant.t) : bool :=
  truthy_opt (Variant.color_id v)
  && match Variant.color_id v with
     | Some cid => includes colorIds cid
     | None => false
     end.

(** Number of variants / rows flagged primary. *)
Definition primary_count (vs : list Variant.t) : nat :=
  List.length (filter Variant.is_primary vs).

Definition primary_rows (rows : list VariantRow.t) : nat :=
  List.length (filter VariantRow.is_primary rows).

(** The rows of one product in [product_variants]. *)
Definition rows_of (productId : string) (rows : list VariantRow.t)
    : list VariantRow.t :=
  filter (fun r => String.eqb (VariantRow.product_id r) productId) rows.

(** Sum of the stock quantities of a variant list. *)
Fixpoint stock_sum (vs : list Variant.t) : Z :=
  match vs with
  | [] => 0%Z
  | v :: rest => (Variant.stock_quantity v + stock_sum rest)%Z
  end.

(** Sum of the magnitudes of the stock quantities: while it stays within
    [2 ^ 53] every partial sum of the reduce is an exact double. *)
Fixpoint stock_magnitude (vs : list Variant.t) : Z :=
  match vs with
  | [] => 0%Z
  | v :: rest => (Z.abs (Variant.stock_quantity v) + stock_magnitude rest)%Z
  end.

(** The part of the trace issued after [old]. *)
Definition issued_since (old new : list Event) : list Event :=
  skipn (List.length old) new.

(** The validation of step 1 lets the draft through. *)
Definition passes_validation (formData : FormData.t) : bool :=
  negb ((0 <? List.length (FormData.colors formData))
        && (List.length (FormData.variants formData) =? 0)).

(** Every pending upload is accepted by the store. *)
Definition uploads_succeed (backend : Backend.t) (pfs : list PendingFile.t)
    : Prop :=
  forall i pf, nth_error pfs i = Some pf ->
    Backend.storage_upload backend i (PendingFile.file pf) <> None.

(** The write of the [products] row succeeds and yields [productId]: the
    id of the edited product, or the id of the inserted row. *)
Definition product_write_ok (backend : Backend.t)
    (editingProduct : option Product.t) (productId : string) : Prop :=
  match editingProduct with
  | Some p =>
      Product.id p = productId
      /\ forall payload,
           Backend.products_update backend productId payload = None
  | None =>
      forall payload, Backend.products_insert backend payload = inr productId
  end.

(** Answer of the product write: the error, or the id the save goes on
    with. *)
Definition write_outcome (backend : Backend.t)
    (editingProduct : option Product.t) (payload : ProductPayload.t)
    : JsError.t + string :=
  match editingProduct with
  | Some p =>
      match Backend.products_update backend (Product.id p) payload with
      | Some error => inl error
      | None => inr (Product.id p)
      end
  | None => Backend.products_insert backend payload
  end.

(** The request of the product write. *)
Definition write_event (editingProduct : option Product.t)
    (payload : ProductPayload.t) : Event :=
  match editingProduct with
  | Some p => ProductsUpdate (Product.id p) payload
  | None => ProductsInsert payload
  end.

(** The [products] table after a successful product write. *)
Definition written_products (editingProduct : option Product.t)
    (productId : string) (payload : ProductPayload.t)
    (rows : list (string * ProductPayload.t))
    : list (string * ProductPayload.t) :=
  match editingProduct with
  | Some _ => db_update_product productId payload rows
  | None => rows ++ [(productId, payload)]
  end.

(** The events that close a successful save. *)
Definition closing_events (editingProduct : option Product.t)
    (productId : string) : list Event :=
  [InvalidateQueries "products" None;
   InvalidateQueries "product-details" (Some productId);
   ToastSuccess
     (match editingProduct with
      | Some _ => "Product updated"
      | None => "Product created"
      end) None].

(** The message shown by the [catch] block. *)
Definition catch_message (error : JsError.t) : string :=
  if JsError.is_Error error then JsError.message error
  else "Submission failed".

(** The variant list that reaches the insert of step 4. *)
Definition saved_variants (currentVariants : list Variant.t)
    : list Variant.t :=
  if (0 <? List.length currentVariants)
     && negb (existsb Variant.is_primary currentVariants)
  then force_first_primary currentVariants
  else currentVariants.


(** The two nested loops of [setSizes] / [setColors] as one pass over
    the visited pairs. *)
Definition ensure_pairs (random36 : nat -> string) (prev_sku : string)
    (pairs : list (ColorItem.t * string)) (acc : list Variant.t * nat)
    : list Variant.t * nat :=
  fold_left
    (fun acc p => ensure_variant random36 prev_sku (fst p) (snd p) acc)
    pairs acc.

(* ------------------------------------------------------------------ *)
(** ** Further parts of the dialog *)

(** [Array.from (new Set (arr))]: first occurrences, in order. *)
Definition set_from (arr : list string) : list string :=
  fold_left (fun seen x => if includes seen x then seen else seen ++ [x])
            arr [].

(** [s.replace (/,$/, "")]: one trailing comma is cut. *)
Fixpoint strip_trailing_comma (s : string) : string :=
  match s with
  | EmptyString => EmptyString
  | String c EmptyString =>
      if Ascii.eqb c ","%char then EmptyString else s
  | String c s' => String c (strip_trailing_comma s')
  end.

(** [name.split (".").pop ()]: the text after the last dot, the whole
    name when there is none. *)
Fixpoint last_segment (s : string) (segment : string) : string :=
  match s with
  | EmptyString => segment
  | String c s' =>
      if Ascii.eqb c "."%char then last_segment s' EmptyString
      else last_segment s' (segment ++ String c EmptyString)
  end.

Definition fileExt (file : File.t) : string :=
  last_segment (File.name file) EmptyString.

(** The object path built by [uploadProductImage] from [Date.now ()]
    (rendered) and one [Math.random ().toString (36)]. *)
Definition filePath (now : string) (random36 : string) (file : File.t)
    : string :=
  "products/" ++ now ++ "-" ++ js_substring 2 15 random36 ++ "."
  ++ fileExt file.

(** The tag input of the size and fabric fields. [trim] is
    [String.prototype.trim]. Each handler answers with the list handed to
    [setTags], if it calls it, and the text left in the input. *)
Module TagInput.
Section WithTrim.

Variable trim : string -> string.

Definition addTag (tags : list string) (inputValue : string)
    : option (list string) * string :=
  let trimmedValue := strip_trailing_comma (trim inputValue) in
  if truthy trimmedValue && negb (includes tags trimmedValue)
  then (Some (tags ++ [trimmedValue]), "")
  else (None, inputValue).

Definition removeTag (index : nat) (tags : list string) : list string :=
  remove_at index tags.

Definition handleKeyDown (key : string) (tags : list string)
    (inputValue : string) : option (list string) * string :=
  if String.eqb key "Enter" || String.eqb key "," then
    addTag tags inputValue
  else if String.eqb key "Backspace" && negb (truthy inputValue)
          && (0 <? List.length tags) then
    (Some (removeTag (List.length tags - 1) tags), inputValue)
  else (None, inputValue).

(** What the admin does with the widget. *)
Inductive Action : Type :=
| Type_ (text : string)
| KeyDown (key : string)
| ClickAdd
| ClickRemove (index : nat).

(** One action on the widget whose [tags] prop follows [setTags]. *)
Definition step (state : list string * string) (a : Action)
    : list string * string :=
  let '(tags, inputValue) := state in
  match a with
  | Type_ text => (tags, text)
  | KeyDown key =>
      match handleKeyDown key tags inputValue with
      | (Some tags', inputValue') => (tags', inputValue')
      | (None, inputValue') => (tags, inputValue')
      end
  | ClickAdd =>
      match addTag tags inputValue with
      | (Some tags', inputValue') => (tags', inputValue')
      | (None, inputValue') => (tags, inputValue')
      end
  | ClickRemove index => (removeTag index tags, inputValue)
  end.

End WithTrim.
End TagInput.

Section DialogHandlers.

Variable random36 : nat -> string.

(** The remove button of the [i]-th color badge. *)
Definition removeColorAt (i : nat) (st : Draft) : Draft :=
  setColors random36 (remove_at i (FormData.colors (fst st))) st.

(** [onValueChange] of the color library select. *)
Definition selectLibraryColor (globalColors : list ColorItem.t)
    (val : string) (st : Draft) : Draft :=
  match find (fun c => String.eqb (ColorItem.name c) val) globalColors with
  | Some color =>
      if negb (existsb
                 (fun c => String.eqb (ColorItem.name c) (ColorItem.name color))
                 (FormData.colors (fst st)))
      then setColors random36 (FormData.colors (fst st) ++ [color]) st
      else st
  | None => st
  end.

(** The remove button of the [index]-th size tag: [removeTag] of the tag
    input whose [setTags] is [setSizes]. *)
Definition removeSizeTag (index : nat) (st : Draft) : Draft :=
  setSizes random36 (remove_at index (FormData.sizes (fst st))) st.

(** Every reducer of the draft. *)
Inductive DraftOp : Type :=
| OpSetColors (colors : list ColorItem.t)
| OpSetSizes (sizes : list string)
| OpUpdateVariant (index : nat) (updates : VariantUpdate)
| OpRemoveVariant (index : nat)
| OpRemoveColorImage (colorId urlToRemove : string)
| OpSetPrimaryColor (colorId : string).

Definition apply_op (st : Draft) (op : DraftOp) : Draft :=
  match op with
  | OpSetColors cs => setColors random36 cs st
  | OpSetSizes ss => setSizes random36 ss st
  | OpUpdateVariant i u => (updateVariant i u (fst st), snd st)
  | OpRemoveVariant i => (removeVariant i (fst st), snd st)
  | OpRemoveColorImage c url => (removeColorImage c url (fst st), snd st)
  | OpSetPrimaryColor c => (setPrimaryColor c (fst st), snd st)
  end.

Definition run_ops (ops : list DraftOp) (st : Draft) : Draft :=
  fold_left apply_op ops st.

(** The two color controls: the library select and the badge buttons. *)
Inductive ColorClick : Type :=
| SelectColor (val : string)
| RemoveColor (index : nat).

Definition apply_click (globalColors : list ColorItem.t) (st : Draft)
    (click : ColorClick) : Draft :=
  match click with
  | SelectColor val => selectLibraryColor globalColors val st
  | RemoveColor index => removeColorAt index st
  end.

End DialogHandlers.

(** A reducer that leaves the color and the size of every row alone. *)
Definition keeps_cells (op : DraftOp) : bool :=
  match op with
  | OpSetColors _ | OpSetSizes _ => true
  | OpUpdateVariant _ (UpdSize _) => false
  | OpUpdateVariant _ _ => true
  | OpRemoveVariant _ => false
  | OpRemoveColorImage _ _ => true
  | OpSetPrimaryColor _ => true
  end.

(** A row edit that addresses a rendered row. *)
Definition op_in_range (st : Draft) (op : DraftOp) : bool :=
  match op with
  | OpUpdateVariant index _ | OpRemoveVariant index =>
      index <? List.length (FormData.variants (fst st))
  | _ => true
  end.

(** Every row edit of the sequence addresses a row that is rendered when
    the edit is made. *)
Fixpoint ops_in_range (random36 : nat -> string) (ops : list DraftOp)
    (st : Draft) : bool :=
  match ops with
  | [] => true
  | op :: rest =>
      op_in_range st op && ops_in_range random36 rest (apply_op random36 st op)
  end.

(** Position in [l] of the [i]-th element satisfying [p]
    ([prev.indexOf (prev.filter (p)[i])] on distinct objects); [None]
    stands for [-1]. *)
Fixpoint index_of_nth_matching {A : Type} (p : A -> bool) (i : nat)
    (l : list A) (position : nat) : option nat :=
  match l with
  | [] => None
  | x :: l' =>
      if p x then
        match i with
        | O => Some position
        | S i' => index_of_nth_matching p i' l' (S position)
        end
      else index_of_nth_matching p i l' (S position)
  end.

(** The remove button of the [i]-th pending image of a color. *)
Definition removePendingOfColor (colorId : string) (i : nat)
    (prev : list PendingFile.t) : list PendingFile.t :=
  match index_of_nth_matching
          (fun p => strict_eq (PendingFile.colorId p) colorId) i prev 0 with
  | Some absoluteIdx => remove_at absoluteIdx prev
  | None => prev
  end.

(** A [product_variants] row of the details query, with the joined
    color ([color_obj]). *)
Module FetchedVariant.
Record t : Type := mk {
  id : string;
  product_id : string;
  color_id : option string;
  size : string;
  sku : string;
  price : option number;
  stock_quantity : Z;
  image_urls : list string;
  is_primary : option bool;
  color_obj : option (string * string)
}.

(** [{ ...v, is_primary: v.is_primary ?? false }] as a draft variant. *)
Definition to_variant (v : t) : Variant.t :=
  Variant.mk (Some (id v)) (Some (product_id v)) (color_id v) (size v)
    (sku v) (price v) (stock_quantity v) (image_urls v)
    (match is_primary v with
     | Some b => b
     | None => false
     end).
End FetchedVariant.

(** Body of [variants.forEach] in the details query: the first joined
    color of each id enters [colorsMap]. *)
Definition collect_color (colorsMap : list ColorItem.t)
    (v : FetchedVariant.t) : list ColorItem.t :=
  match FetchedVariant.color_id v with
  | Some cid =>
      if truthy cid && negb (includes (map ColorItem.id colorsMap) cid) then
        match FetchedVariant.color_obj v with
        | Some (name, hex) => colorsMap ++ [ColorItem.mk cid name hex]
        | None => colorsMap
        end
      else colorsMap
  | None => colorsMap
  end.

(** The [variants], [colors] and [sizes] the details query derives from
    the fetched rows. *)
Definition details_variants (rows : list FetchedVariant.t) : list Variant.t :=
  map FetchedVariant.to_variant rows.

Definition details_colors (rows : list FetchedVariant.t) : list ColorItem.t :=
  fold_left collect_color rows [].

Definition details_sizes (rows : list FetchedVariant.t) : list string :=
  set_from (map Variant.size (details_variants rows)).

Section OpenDialog.

(** [n.toString ()] of a price. *)
Variable number_toString : number -> string.

(** [n.toString ()] of an integer stock quantity. *)
Definition stock_toString (q : Z) : string :=
  NilZero.string_of_int (Z.to_int q).

Definition handleOpenCreate (w : World.t) : World.t :=
  World.setIsDialogOpen true (World.resetForm w).

(** [handleOpenEdit (product)]: the draft starts from the list row, with
    no variant, color or size until the details arrive. *)
Definition handleOpenEdit (product : Product.t) (w : World.t) : World.t :=
  let columns := Product.columns product in
  World.mk
    (FormData.mk
       (ProductPayload.sku columns)
       (ProductPayload.name columns)
       ""
       (number_toString (ProductPayload.price columns))
       (match ProductPayload.discount_price columns with
        | Some d => number_toString d
        | None => ""
        end)
       (match ProductPayload.collection_id columns with
        | Some c => c
        | None => ""
        end)
       (stock_toString (ProductPayload.stock_quantity columns))
       (ProductPayload.status columns)
       (ProductPayload.fabrics columns)
       [] [] [])
    [] (Some product) (Some (Product.id product)) true
    (World.products w) (World.product_variants w) (World.bucket w)
    (World.trace w).

(** The effect that fills the draft once the details of the edited
    product are there. *)
Definition populateForm (details : Product.t) (rows : list FetchedVariant.t)
    (w : World.t) : World.t :=
  match World.editingProduct w, World.selectedProductId w with
  | Some editing, Some selected =>
      if String.eqb selected (Product.id editing) then
        let columns := Product.columns details in
        World.setFormData
          (fun _ =>
             FormData.mk
               (ProductPayload.sku columns)
               (ProductPayload.name columns)
               (ProductPayload.description columns)
               (number_toString (ProductPayload.price columns))
               (match ProductPayload.discount_price columns with
                | Some d => number_toString d
                | None => ""
                end)
               (match ProductPayload.collection_id columns with
                | Some c => c
                | None => ""
                end)
               (stock_toString (ProductPayload.stock_quantity columns))
               (ProductPayload.status columns)
               (ProductPayload.fabrics columns)
               (details_variants rows)
               (details_colors rows)
               (details_sizes rows))
          w
      else w
  | _, _ => w
  end.

(** [handleImageUpload (e, colorId)] with the object URLs of the
    previews. *)
Definition handleImageUpload (files : list (File.t * string))
    (colorId : option string) (w : World.t) : World.t :=
  match files with
  | [] => w
  | _ :: _ =>
      World.mk (World.formData w)
        (World.pendingFiles w
         ++ map (fun fp => PendingFile.mk (fst fp) (snd fp) colorId) files)
        (World.editingProduct w) (World.selectedProductId w)
        (World.isDialogOpen w) (World.products w) (World.product_variants w)
        (World.bucket w) (World.trace w)
  end.

End OpenDialog.

(** The files of [pfs] the store accepts, uploads being numbered from
    [position]. *)
Fixpoint accepted_files (backend : Backend.t) (pfs : list PendingFile.t)
    (position : nat) : list File.t :=
  match pfs with
  | [] => []
  | pf :: rest =>
      match Backend.storage_upload backend position (PendingFile.file pf) with
      | Some _ => PendingFile.file pf :: accepted_files backend rest (S position)
      | None => accepted_files backend rest (S position)
      end
  end.

(** The [{ url, colorId }] results of the accepted uploads. *)
Fixpoint uploaded_results (backend : Backend.t) (pfs : list PendingFile.t)
    (position : nat) : list (string * option string) :=
  match pfs with
  | [] => []
  | pf :: rest =>
      match Backend.storage_upload backend position (PendingFile.file pf) with
      | Some url =>
          (url, PendingFile.colorId pf)
          :: uploaded_results backend rest (S position)
      | None => uploaded_results backend rest (S position)
      end
  end.

(** What [uploadedResults.forEach] does to one variant for one result. *)
Definition attach_to (v : Variant.t) (result : string * option string)
    : Variant.t :=
  match snd result with
  | Some colorId =>
      if truthy colorId && strict_eq (Variant.color_id v) colorId
      then Variant.with_image_urls v
             (if includes (Variant.image_urls v) (fst result)
              then Variant.image_urls v
              else Variant.image_urls v ++ [fst result])
      else v
  | None => v
  end.

(** The local copy of the variants once every upload was accepted. *)
Definition local_copy (backend : Backend.t) (pfs : list PendingFile.t)
    (vs : list Variant.t) : list Variant.t :=
  fold_left attach_upload (uploaded_results backend pfs 0) vs.

(** Sum of the stock quantities of variant rows. *)
Fixpoint rows_stock (rows : list VariantRow.t) : Z :=
  match rows with
  | [] => 0%Z
  | r :: rest => (VariantRow.stock_quantity r + rows_stock rest)%Z
  end.

(** The color id of a variant that has one. *)
Definition has_color (cid : string) (v : Variant.t) : bool :=
  strict_eq (Variant.color_id v) cid.

(* ------------------------------------------------------------------ *)
(** ** Sample data: a two-color, two-size product *)

Definition sample_random36 (k : nat) : string :=
  match k with
  | 0 => "0.k3f9x2p"
  | 1 => "0.7mq2zd1"
  | 2 => "0.w81hct5"
  | _ => "0.b5y0rn8"
  end.

Definition sample_parseFloat (s : string) : number :=
  match s with
  | EmptyString => NaN
  | String _ _ => Num (1 # 1)
  end.

Definition red : ColorItem.t := ColorItem.mk "c-red" "Red" "#ff0000".
Definition blue : ColorItem.t := ColorItem.mk "c-blue" "Blue" "#0000ff".
Definition green : ColorItem.t := ColorItem.mk "c-green" "Green" "#00ff00".

(** Colors red and blue, then sizes S and M, on a fresh draft. *)
Definition sample_updates : list Update :=
  [SetColors [red; blue]; SetSizes ["S"; "M"]].

Definition sample_draft : FormData.t :=
  fst (run_updates sample_random36 sample_updates (FormData.empty, 0)).

(** The same draft with stock typed into two rows. *)
Definition stocked_draft : FormData.t :=
  updateVariant 0 (UpdStock 3) (updateVariant 1 (UpdStock 4) sample_draft).

(** The draft of a product whose rows came back with two flagged
    variants, (red, S) and (blue, S). *)
Definition two_flagged_draft : FormData.t :=
  FormData.with_variants sample_draft
    (mapi (fun v i => Variant.with_is_primary v (i <? 2))
          (FormData.variants sample_draft)).

(** The stocked draft after the last color was taken away. *)
Definition cleared_draft : FormData.t :=
  fst (run_updates sample_random36 [SetSizes ["S"]]
         (setColors sample_random36 [] (stocked_draft, 4))).

Definition sample_product : Product.t :=
  Product.mk "p-1"
    (ProductPayload.mk "TEE" "Tee" "" (Num (1 # 1)) None None [] active 7%Z)
    "2024-01-01".

Definition sample_file : File.t := File.mk "front.png".

Definition sample_pending : list PendingFile.t :=
  [PendingFile.mk sample_file "blob:front" (Some "c-red")].

(** A backend that accepts everything. *)
Definition accepting_backend : Backend.t :=
  Backend.mk
    (fun _ f => Some (String.append "https://cdn/" (File.name f)))
    (fun _ _ => None)
    (fun _ => inr "p-new")
    (fun _ => None)
    (fun _ => None).

(** A store that refuses every upload. *)
Definition refusing_store : Backend.t :=
  Backend.mk
    (fun _ _ => None)
    (fun _ _ => None)
    (fun _ => inr "p-new")
    (fun _ => None)
    (fun _ => None).

Definition duplicate_sku : JsError.t :=
  JsError.mk false "duplicate key value violates unique constraint".

(** A database that refuses the insert of variant rows. *)
Definition refusing_insert : Backend.t :=
  Backend.mk
    (fun _ f => Some (String.append "https://cdn/" (File.name f)))
    (fun _ _ => None)
    (fun _ => inr "p-new")
    (fun _ => None)
    (fun _ => Some duplicate_sku).

Definition old_rows : list VariantRow.t :=
  [VariantRow.mk "p-1" (Some "c-red") "S" "TEE-RED-S" None 5%Z [] true;
   VariantRow.mk "p-2" (Some "c-red") "S" "CAP-RED-S" None 1%Z [] true].

(** The dialog of a new product, a file pending for red. *)
Definition create_world (formData : FormData.t) : World.t :=
  World.mk formData sample_pending None None true [] old_rows [] [].

(** The dialog of the edited product [p-1]. *)
Definition edit_world (formData : FormData.t) : World.t :=
  World.mk formData [] (Some sample_product) (Some "p-1") true
    [("p-1", Product.columns sample_product)] old_rows [] [].

(** A one-color draft whose color carries an empty id. *)
Definition blank_id_draft : FormData.t :=
  FormData.mk "" "" "" "" "" "" "" active []
    [Variant.mk None None (Some "") "S" "X-S" None 5%Z [] false]
    [ColorItem.mk "" "Blank" "#000000"] ["S"].

(** *** Sample data for the dialog handlers *)

(** Inputs typed without surrounding blanks. *)
Definition sample_trim (s : string) : string := s.

Definition sample_number_toString (n : number) : string :=
  match n with
  | NaN => "NaN"
  | Num _ => "1"
  end.

(** The color library. *)
Definition library : list ColorItem.t := [red; blue; green].

(** The rows of product [p-1] as the details query fetches them. *)
Definition sample_fetched : list FetchedVariant.t :=
  [FetchedVariant.mk "v-1" "p-1" (Some "c-red") "S" "TEE-RED-S" None 5%Z []
     (Some true) (Some ("Red", "#ff0000"));
   FetchedVariant.mk "v-2" "p-1" (Some "c-blue") "S" "TEE-BLUE-S" None 2%Z []
     None (Some ("Blue", "#0000ff"))].

(** The sample draft once the pending file of red was uploaded. *)
Definition pictured_draft : FormData.t :=
  FormData.with_variants sample_draft
    (local_copy accepting_backend sample_pending
       (FormData.variants sample_draft)).

Definition two_pending : list PendingFile.t :=
  [PendingFile.mk sample_file "blob:front" (Some "c-red");
   PendingFile.mk (File.mk "back.png") "blob:back" (Some "c-blue")].

(** A store that accepts the first upload of a save and refuses the
    others. *)
Definition partial_store : Backend.t :=
  Backend.mk
    (fun i f =>
       match i with
       | 0 => Some (String.append "https://cdn/" (File.name f))
       | _ => None
       end)
    (fun _ _ => None)
    (fun _ => inr "p-new")
    (fun _ => None)
    (fun _ => None).

Definition permission_denied : JsError.t :=
  JsError.mk false "permission denied for table products".

(** A database that refuses every write of a product row. *)
Definition failing_write : Backend.t :=
  Backend.mk
    (fun _ f => Some (String.append "https://cdn/" (File.name f)))
    (fun _ _ => Some permission_denied)
    (fun _ => inl permission_denied)
    (fun _ => None)
    (fun _ => None).

(** A database that refuses the delete of variant rows. *)
Definition failing_delete : Backend.t :=
  Backend.mk
    (fun _ f => Some (String.append "https://cdn/" (File.name f)))
    (fun _ _ => None)
    (fun _ => inr "p-new")
    (fun _ => Some permission_denied)
    (fun _ => None).

(** The dialog of a new product with two pending files. *)
Definition two_file_world : World.t :=
  World.mk stocked_draft two_pending None None true [] old_rows [] [].


(** The rows of product [p-1] after their color was deleted from the
    library: [ON DELETE SET NULL] left them without [color_id]. *)
Definition orphaned_rows : list VariantRow.t :=
  [VariantRow.mk "p-1" None "S" "TEE-RED-S" None 3%Z [] true;
   VariantRow.mk "p-1" None "M" "TEE-RED-M" None 4%Z [] false].

(** The same rows as the details query fetches them: no color to join. *)
Definition orphaned_fetched : list FetchedVariant.t :=
  [FetchedVariant.mk "v-1" "p-1" None "S" "TEE-RED-S" None 3%Z []
     (Some true) None;
   FetchedVariant.mk "v-2" "p-1" None "M" "TEE-RED-M" None 4%Z []
     (Some false) None].

(** The dialog opened on [p-1] once these details have arrived. *)
Definition orphaned_world : World.t :=
  populateForm sample_number_toString sample_product orphaned_fetched
    (handleOpenEdit sample_number_toString sample_product
       (World.mk FormData.empty [] None None false
          [("p-1", Product.columns sample_product)] orphaned_rows [] [])).

(** Distinctness of a list of literals. *)
Ltac distinct_strings :=
  repeat (constructor; [simpl; intuition discriminate|]); constructor.

(* ------------------------------------------------------------------ *)
(** ** Facts about cells *)

Lemma strict_eq_true (a : option string) (b : string) :
  strict_eq a b = true <-> a = Some b.
Proof.
  destruct a as [x|]; simpl.
  - rewrite String.eqb_eq. split; congruence.
  - split; discriminate.
Qed.

Lemma same_cell_true (cid size : string) (v : Variant.t) :
  same_cell cid size v = true
  <-> Variant.color_id v = Some cid /\ Variant.size v = size.
Proof.
  unfold same_cell. rewrite andb_true_iff, strict_eq_true, String.eqb_eq.
  tauto.
Qed.

Lemma includes_true (arr : list string) (x : string) :
  includes arr x = true <-> In x arr.
Proof.
  unfold includes. rewrite existsb_exists. split.
  - intros (y & Hy & E). apply String.eqb_eq in E. now subst.
  - intros H. exists x. split; [assumption | apply String.eqb_refl].
Qed.

Lemma cell_count_app (cid size : string) (a b : list Variant.t) :
  cell_count cid size (a ++ b) = cell_count cid size a + cell_count cid size b.
Proof.
  unfold cell_count. now rewrite filter_app, length_app.
Qed.

Lemma cell_count_pos (cid size : string) (vs : list Variant.t) :
  cell_count cid size vs <> 0
  <-> exists v, In v vs /\ Variant.color_id v = Some cid
                /\ Variant.size v = size.
Proof.
  unfold cell_count. split.
  - intros H. destruct (filter (same_cell cid size) vs) as [|v l] eqn:E.
    + now elim H.
    + assert (Hin : In v (filter (same_cell cid size) vs))
        by (rewrite E; now left).
      apply filter_In in Hin. destruct Hin as [Hin Hc].
      apply same_cell_true in Hc. now exists v.
  - intros (v & Hin & Hc & Hs) H.
    assert (Hf : In v (filter (same_cell cid size) vs)).
    { apply filter_In. split; [assumption|]. now apply same_cell_true. }
    destruct (filter (same_cell cid size) vs); [contradiction | discriminate].
Qed.

Lemma find_none_cell (cid size : string) (vs : list Variant.t) :
  find (same_cell cid size) vs = None <-> cell_count cid size vs = 0.
Proof.
  unfold cell_count. induction vs as [|v vs IH]; simpl.
  - tauto.
  - destruct (same_cell cid size v); simpl.
    + split; discriminate.
    + exact IH.
Qed.

Lemma cell_count_filter_le (p : Variant.t -> bool) (cid size : string)
    (vs : list Variant.t) :
  cell_count cid size (filter p vs) <= cell_count cid size vs.
Proof.
  unfold cell_count. induction vs as [|v vs IH]; simpl; [lia|].
  destruct (p v), (same_cell cid size v) eqn:E; simpl; rewrite ?E; simpl; lia.
Qed.

Lemma cell_count_filter_keep (p : Variant.t -> bool) (cid size : string)
    (vs : list Variant.t) :
  (forall v, In v vs -> same_cell cid size v = true -> p v = true) ->
  cell_count cid size (filter p vs) = cell_count cid size vs.
Proof.
  unfold cell_count. induction vs as [|v vs IH]; simpl; intros H; [reflexivity|].
  destruct (same_cell cid size v) eqn:E.
  - rewrite (H v (or_introl eq_refl) E). simpl. rewrite E. simpl.
    f_equal. apply IH. intros u Hu. apply H. now right.
  - destruct (p v); simpl; rewrite ?E; apply IH; intros u Hu; apply H; now right.
Qed.

Lemma filter_all (A : Type) (p : A -> bool) (l : list A) :
  (forall x, In x l -> p x = true) -> filter p l = l.
Proof.
  induction l as [|x l IH]; simpl; intros H; [reflexivity|].
  rewrite (H x (or_introl eq_refl)). f_equal. apply IH.
  intros y Hy. apply H. now right.
Qed.

Lemma in_size_major (c : ColorItem.t) (s : string) (sizes : list string)
    (colors : list ColorItem.t) :
  In (c, s) (size_major sizes colors) <-> In c colors /\ In s sizes.
Proof.
  unfold size_major. rewrite in_flat_map. split.
  - intros (s' & Hs & Hin). apply in_map_iff in Hin.
    destruct Hin as (c' & E & Hc). inversion E; subst. tauto.
  - intros [Hc Hs]. exists s. split; [assumption|].
    apply in_map_iff. now exists c.
Qed.

Lemma in_color_major (c : ColorItem.t) (s : string)
    (colors : list ColorItem.t) (sizes : list string) :
  In (c, s) (color_major colors sizes) <-> In c colors /\ In s sizes.
Proof.
  unfold color_major. rewrite in_flat_map. split.
  - intros (c' & Hc & Hin). apply in_map_iff in Hin.
    destruct Hin as (s' & E & Hs). inversion E; subst. tauto.
  - intros [Hc Hs]. exists c. split; [assumption|].
    apply in_map_iff. now exists s.
Qed.

Lemma has_pair_true (cid size : string) (pairs : list (ColorItem.t * string)) :
  has_pair cid size pairs = true
  <-> exists c, In (c, size) pairs /\ ColorItem.id c = cid.
Proof.
  unfold has_pair. rewrite existsb_exists. split.
  - intros ([c s] & Hin & E). simpl in E.
    apply andb_true_iff in E. destruct E as [E1 E2].
    apply String.eqb_eq in E1, E2. subst. now exists c.
  - intros (c & Hin & E). exists (c, size). split; [assumption|].
    simpl. subst. now rewrite !String.eqb_refl.
Qed.

Lemma full_matrix_at_most_one (C : list ColorItem.t) (S : list string)
    (vs : list Variant.t) :
  full_matrix C S vs -> at_most_one_per_cell vs.
Proof.
  intros [Hw Hc] cid size.
  destruct (Nat.eq_dec (cell_count cid size vs) 0) as [E|E]; [lia|].
  apply cell_count_pos in E. destruct E as (v & Hin & Hcol & Hs).
  destruct (Hw v Hin) as (c & HcC & Hcol' & HsS).
  assert (cid = ColorItem.id c) by congruence. subst.
  rewrite (Hc c (Variant.size v) HcC HsS). lia.
Qed.

Lemma full_matrix_empty_axis (C : list ColorItem.t) (S : list string)
    (vs : list Variant.t) :
  within_selection C S vs -> C = [] \/ S = [] -> vs = [].
Proof.
  intros Hw H. destruct vs as [|v vs]; [reflexivity|].
  destruct (Hw v (or_introl eq_refl)) as (c & HcC & _ & HsS).
  destruct H; subst; contradiction.
Qed.

(* ------------------------------------------------------------------ *)
(** ** The filling loops *)

Section Filling.

Variable random36 : nat -> string.

Lemma nested_size_major (sku : string) (sizes : list string)
    (colors : list ColorItem.t) (acc : list Variant.t * nat) :
  fold_left
    (fun acc size =>
       fold_left
         (fun acc colorObj => ensure_variant random36 sku colorObj size acc)
         colors acc)
    sizes acc
  = ensure_pairs random36 sku (size_major sizes colors) acc.
Proof.
  unfold ensure_pairs, size_major. revert acc.
  induction sizes as [|s sizes IH]; intros acc; simpl; [reflexivity|].
  rewrite fold_left_app, IH. f_equal.
  clear IH. revert acc. induction colors as [|c colors IHc]; intros acc; simpl.
  - reflexivity.
  - apply IHc.
Qed.

Lemma nested_color_major (sku : string) (colors : list ColorItem.t)
    (sizes : list string) (acc : list Variant.t * nat) :
  fold_left
    (fun acc colorObj =>
       fold_left
         (fun acc size => ensure_variant random36 sku colorObj size acc)
         sizes acc)
    colors acc
  = ensure_pairs random36 sku (color_major colors sizes) acc.
Proof.
  unfold ensure_pairs, color_major. revert acc.
  induction colors as [|c colors IH]; intros acc; simpl; [reflexivity|].
  rewrite fold_left_app, IH. f_equal.
  clear IH. revert acc. induction sizes as [|s sizes IHs]; intros acc; simpl.
  - reflexivity.
  - apply IHs.
Qed.

Lemma same_cell_new_variant (cid size sku : string) (c : ColorItem.t)
    (s : string) (k : nat) :
  same_cell cid size (new_variant random36 sku c s k)
  = String.eqb (ColorItem.id c) cid && String.eqb s size.
Proof. reflexivity. Qed.

Lemma synthesized_new_variant (sku : string) (c : ColorItem.t) (s : string)
    (k : nat) :
  synthesized (ColorItem.id c) (new_variant random36 sku c s k).
Proof. unfold synthesized. simpl. tauto. Qed.

Lemma cell_count_new_variant (cid size sku : string) (c : ColorItem.t)
    (s : string) (k : nat) :
  cell_count cid size [new_variant random36 sku c s k]
  = if String.eqb (ColorItem.id c) cid && String.eqb s size then 1 else 0.
Proof.
  unfold cell_count. simpl. rewrite same_cell_new_variant.
  now destruct (String.eqb (ColorItem.id c) cid && String.eqb s size).
Qed.

(** Effect of the loops on every cell: an empty visited cell gets one
    variant, every other cell keeps its count. *)
Lemma ensure_pairs_count (sku cid size : string)
    (pairs : list (ColorItem.t * string)) (vs : list Variant.t) (n : nat) :
  cell_count cid size (fst (ensure_pairs random36 sku pairs (vs, n)))
  = if (cell_count cid size vs =? 0) && has_pair cid size pairs
    then 1 else cell_count cid size vs.
Proof.
  unfold ensure_pairs. revert vs n.
  induction pairs as [|[c s] pairs IH]; intros vs n; simpl.
  - now rewrite andb_false_r.
  - unfold ensure_variant at 2. simpl.
    destruct (find (same_cell (ColorItem.id c) s) vs) as [v|] eqn:F.
    + rewrite IH.
      destruct (String.eqb (ColorItem.id c) cid && String.eqb s size) eqn:E;
        simpl; [|reflexivity].
      apply andb_true_iff in E. destruct E as [E1 E2].
      apply String.eqb_eq in E1, E2. subst cid size.
      assert (Hne : cell_count (ColorItem.id c) s vs <> 0).
      { intro Z. apply find_none_cell in Z. congruence. }
      apply Nat.eqb_neq in Hne. now rewrite Hne.
    + rewrite IH, cell_count_app, cell_count_new_variant.
      apply find_none_cell in F.
      destruct (String.eqb (ColorItem.id c) cid && String.eqb s size) eqn:E;
        simpl.
      * apply andb_true_iff in E. destruct E as [E1 E2].
        apply String.eqb_eq in E1, E2. subst cid size. rewrite F. reflexivity.
      * rewrite Nat.add_0_r. reflexivity.
Qed.

(** The loops only append, and what they append was synthesized for a
    visited pair whose cell was empty before the loops. *)
Lemma ensure_pairs_appends (sku : string) (pairs : list (ColorItem.t * string))
    (vs : list Variant.t) (n : nat) :
  exists news,
    ensure_pairs random36 sku pairs (vs, n) = (vs ++ news, n + List.length news)
    /\ Forall
         (fun v => exists c s k,
            In (c, s) pairs /\ v = new_variant random36 sku c s k
            /\ cell_count (ColorItem.id c) s vs = 0)
         news.
Proof.
  unfold ensure_pairs. revert vs n.
  induction pairs as [|[c s] pairs IH]; intros vs n; simpl.
  - exists []. rewrite app_nil_r, Nat.add_0_r. split; [reflexivity | constructor].
  - unfold ensure_variant at 2. simpl.
    destruct (find (same_cell (ColorItem.id c) s) vs) as [v|] eqn:F.
    + destruct (IH vs n) as (news & E & Hall). exists news. split; [exact E|].
      eapply Forall_impl; [|exact Hall].
      intros u (c' & s' & k & Hin & Hu & Hz). exists c', s', k. tauto.
    + destruct (IH (vs ++ [new_variant random36 sku c s n]) (S n))
        as (news & E & Hall).
      exists (new_variant random36 sku c s n :: news). split.
      * rewrite E. rewrite <- app_assoc. simpl. f_equal. lia.
      * constructor.
        -- exists c, s, n. apply find_none_cell in F. tauto.
        -- eapply Forall_impl; [|exact Hall].
           intros u (c' & s' & k & Hin & Hu & Hz). exists c', s', k.
           rewrite cell_count_app in Hz. repeat split; [tauto | tauto | lia].
Qed.

Lemma ensure_pairs_nothing_missing (sku : string)
    (pairs : list (ColorItem.t * string)) (vs : list Variant.t) (n : nat) :
  (forall c s, In (c, s) pairs -> cell_count (ColorItem.id c) s vs <> 0) ->
  ensure_pairs random36 sku pairs (vs, n) = (vs, n).
Proof.
  intros H. destruct (ensure_pairs_appends sku pairs vs n) as (news & E & Hall).
  destruct news as [|v news].
  - rewrite E, app_nil_r, Nat.add_0_r. reflexivity.
  - inversion Hall as [|? ? (c & s & k & Hin & _ & Hz) _]; subst.
    elim (H c s Hin Hz).
Qed.

Lemma setSizes_unfold (sizes : list string) (prev : FormData.t) (n : nat) :
  setSizes random36 sizes (prev, n)
  = let filled :=
      ensure_pairs random36 (FormData.sku prev)
        (size_major sizes (FormData.colors prev))
        (filter (fun v => includes sizes (Variant.size v))
                (FormData.variants prev), n) in
    (FormData.with_sizes_variants prev sizes (fst filled), snd filled).
Proof. unfold setSizes. simpl. now rewrite nested_size_major. Qed.

Lemma setColors_unfold (colors : list ColorItem.t) (prev : FormData.t)
    (n : nat) :
  setColors random36 colors (prev, n)
  = let filled :=
      ensure_pairs random36 (FormData.sku prev)
        (color_major colors (FormData.sizes prev))
        (filter (color_kept (map ColorItem.id colors))
                (FormData.variants prev), n) in
    (FormData.with_colors_variants prev colors (fst filled), snd filled).
Proof. unfold setColors. simpl. now rewrite nested_color_major. Qed.

End Filling.

(* ------------------------------------------------------------------ *)
(** ** The variant matrix *)

Section Matrix.

Variable random36 : nat -> string.

Lemma color_kept_true (colorIds : list string) (v : Variant.t) :
  color_kept colorIds v = true
  <-> exists cid, Variant.color_id v = Some cid /\ truthy cid = true
                  /\ In cid colorIds.
Proof.
  unfold color_kept. destruct (Variant.color_id v) as [cid|]; simpl.
  - rewrite andb_true_iff, includes_true. split.
    + intros [H1 H2]. now exists cid.
    + intros (x & E & H1 & H2). inversion E; subst. tauto.
  - split; [discriminate|]. intros (x & E & _). discriminate.
Qed.

(** One size update turns a list without duplicated cells whose colors
    are all selected into the full matrix. *)
Lemma setSizes_full_matrix (sizes : list string) (prev : FormData.t)
    (n : nat) :
  (forall v, In v (FormData.variants prev) ->
     exists c, In c (FormData.colors prev)
               /\ Variant.color_id v = Some (ColorItem.id c)) ->
  at_most_one_per_cell (FormData.variants prev) ->
  let d' := fst (setSizes random36 sizes (prev, n)) in
  full_matrix (FormData.colors d') (FormData.sizes d') (FormData.variants d').
Proof.
  intros Hcol Huniq. rewrite setSizes_unfold. simpl.
  set (kept := filter (fun v => includes sizes (Variant.size v))
                      (FormData.variants prev)).
  split.
  - destruct (ensure_pairs_appends random36 (FormData.sku prev)
                (size_major sizes (FormData.colors prev)) kept n)
      as (news & E & Hall).
    rewrite E. simpl. intros v Hin. apply in_app_or in Hin.
    destruct Hin as [Hin|Hin].
    + apply filter_In in Hin. destruct Hin as [Hin Hs].
      apply includes_true in Hs.
      destruct (Hcol v Hin) as (c & Hc & Hv). now exists c.
    + rewrite Forall_forall in Hall.
      destruct (Hall v Hin) as (c & s & k & Hp & Hv & _).
      apply in_size_major in Hp. subst v. exists c. simpl. tauto.
  - intros c s Hc Hs. rewrite ensure_pairs_count.
    assert (Hp : has_pair (ColorItem.id c) s
                   (size_major sizes (FormData.colors prev)) = true).
    { apply has_pair_true. exists c. split; [|reflexivity].
      apply in_size_major. tauto. }
    rewrite Hp, andb_true_r.
    destruct (cell_count (ColorItem.id c) s kept =? 0) eqn:Z; [reflexivity|].
    apply Nat.eqb_neq in Z.
    pose proof (cell_count_filter_le
                  (fun v => includes sizes (Variant.size v))
                  (ColorItem.id c) s (FormData.variants prev)) as Hle.
    pose proof (Huniq (ColorItem.id c) s) as Hu. fold kept in Hle. lia.
Qed.

(** One color update turns a list without duplicated cells whose sizes
    are all selected into the full matrix. *)
Lemma setColors_full_matrix (colors : list ColorItem.t) (prev : FormData.t)
    (n : nat) :
  (forall v, In v (FormData.variants prev) ->
     In (Variant.size v) (FormData.sizes prev)) ->
  at_most_one_per_cell (FormData.variants prev) ->
  let d' := fst (setColors random36 colors (prev, n)) in
  full_matrix (FormData.colors d') (FormData.sizes d') (FormData.variants d').
Proof.
  intros Hsz Huniq. rewrite setColors_unfold. simpl.
  set (kept := filter (color_kept (map ColorItem.id colors))
                      (FormData.variants prev)).
  split.
  - destruct (ensure_pairs_appends random36 (FormData.sku prev)
                (color_major colors (FormData.sizes prev)) kept n)
      as (news & E & Hall).
    rewrite E. simpl. intros v Hin. apply in_app_or in Hin.
    destruct Hin as [Hin|Hin].
    + apply filter_In in Hin. destruct Hin as [Hin Hk].
      apply color_kept_true in Hk. destruct Hk as (cid & Hv & _ & Hc).
      apply in_map_iff in Hc. destruct Hc as (c & Hid & Hc). subst cid.
      exists c. auto.
    + rewrite Forall_forall in Hall.
      destruct (Hall v Hin) as (c & s & k & Hp & Hv & _).
      apply in_color_major in Hp. subst v. exists c. simpl. tauto.
  - intros c s Hc Hs. rewrite ensure_pairs_count.
    assert (Hp : has_pair (ColorItem.id c) s
                   (color_major colors (FormData.sizes prev)) = true).
    { apply has_pair_true. exists c. split; [|reflexivity].
      apply in_color_major. tauto. }
    rewrite Hp, andb_true_r.
    destruct (cell_count (ColorItem.id c) s kept =? 0) eqn:Z; [reflexivity|].
    apply Nat.eqb_neq in Z.
    pose proof (cell_count_filter_le (color_kept (map ColorItem.id colors))
                  (ColorItem.id c) s (FormData.variants prev)) as Hle.
    pose proof (Huniq (ColorItem.id c) s) as Hu. fold kept in Hle. lia.
Qed.

Lemma apply_update_full_matrix (u : Update) (d : FormData.t) (n : nat) :
  within_selection (FormData.colors d) (FormData.sizes d) (FormData.variants d) ->
  at_most_one_per_cell (FormData.variants d) ->
  let d' := fst (apply_update random36 (d, n) u) in
  full_matrix (FormData.colors d') (FormData.sizes d') (FormData.variants d').
Proof.
  intros Hw Hu. destruct u as [cs|ss]; simpl.
  - apply setColors_full_matrix; [|assumption].
    intros v Hin. destruct (Hw v Hin) as (c & _ & _ & Hs). exact Hs.
  - apply setSizes_full_matrix; [|assumption].
    intros v Hin. destruct (Hw v Hin) as (c & Hc & Hv & _). now exists c.
Qed.

Lemma run_updates_full_matrix (us : list Update) (st : Draft) :
  full_matrix (FormData.colors (fst st)) (FormData.sizes (fst st))
    (FormData.variants (fst st)) ->
  let d' := fst (run_updates random36 us st) in
  full_matrix (FormData.colors d') (FormData.sizes d') (FormData.variants d').
Proof.
  unfold run_updates. revert st.
  induction us as [|u us IH]; intros [d n] H; simpl in *; [exact H|].
  apply IH. apply apply_update_full_matrix.
  - exact (proj1 H).
  - exact (full_matrix_at_most_one H).
Qed.

(** C1. Whatever sequence of [setColors] / [setSizes] updates is applied
    to a draft whose variant list is empty (a fresh draft has no color or
    no size either; once one update ran this no longer matters), the
    resulting variant list lies inside C x S for the current color set C
    and size set S and holds exactly one variant in each of its cells;
    when C or S is empty the list is empty. *)
Theorem matrix_after_updates (us : list Update) (d : FormData.t) (n : nat) :
  FormData.variants d = [] ->
  (us = [] -> FormData.colors d = [] \/ FormData.sizes d = []) ->
  let d' := fst (run_updates random36 us (d, n)) in
  full_matrix (FormData.colors d') (FormData.sizes d') (FormData.variants d')
  /\ (FormData.colors d' = [] \/ FormData.sizes d' = [] ->
      FormData.variants d' = []).
Proof.
  intros Hempty Hfresh. cbv zeta.
  assert (Hfull :
    full_matrix
      (FormData.colors (fst (run_updates random36 us (d, n))))
      (FormData.sizes (fst (run_updates random36 us (d, n))))
      (FormData.variants (fst (run_updates random36 us (d, n))))).
  { destruct us as [|u us].
    - simpl. rewrite Hempty. split.
      + intros v [].
      + intros c s Hc Hs. destruct (Hfresh eq_refl) as [E|E];
          rewrite E in *; contradiction.
    - change (run_updates random36 (u :: us) (d, n))
        with (run_updates random36 us (apply_update random36 (d, n) u)).
      apply run_updates_full_matrix. apply apply_update_full_matrix.
      + rewrite Hempty. intros v [].
      + rewrite Hempty. intros cid size. unfold cell_count. simpl. lia. }
  split; [exact Hfull|].
  intros Haxis. exact (full_matrix_empty_axis (proj1 Hfull) Haxis).
Qed.

(** C2. On a full matrix, [setSizes] with the size set minus one size [s]
    returns the same list with exactly the variants of size [s] taken out:
    the others are the same records, in the same order, and nothing is
    synthesized (no random draw is made). *)
Theorem setSizes_drops_one_size (prev : FormData.t) (n : nat)
    (sizes : list string) (s : string) :
  full_matrix (FormData.colors prev) (FormData.sizes prev)
    (FormData.variants prev) ->
  (forall x, In x sizes <-> In x (FormData.sizes prev) /\ x <> s) ->
  setSizes random36 sizes (prev, n)
  = (FormData.with_sizes_variants prev sizes
       (filter (fun v => negb (String.eqb (Variant.size v) s))
               (FormData.variants prev)),
     n).
Proof.
  intros Hfull Hsizes. rewrite setSizes_unfold. cbv zeta.
  destruct Hfull as [Hw Hc].
  assert (Hkept :
    filter (fun v => includes sizes (Variant.size v)) (FormData.variants prev)
    = filter (fun v => negb (String.eqb (Variant.size v) s))
             (FormData.variants prev)).
  { apply filter_ext_in. intros v Hin.
    destruct (Hw v Hin) as (c & _ & _ & HsS).
    destruct (String.eqb (Variant.size v) s) eqn:E; simpl.
    - apply String.eqb_eq in E.
      destruct (includes sizes (Variant.size v)) eqn:I; [|reflexivity].
      apply includes_true, Hsizes in I. tauto.
    - apply String.eqb_neq in E. apply includes_true, Hsizes. tauto. }
  rewrite Hkept. rewrite ensure_pairs_nothing_missing; [reflexivity|].
  intros c x Hp. apply in_size_major in Hp. destruct Hp as [HcC Hx].
  apply Hsizes in Hx. destruct Hx as [HxS Hxs].
  rewrite cell_count_filter_keep.
  - rewrite (Hc c x HcC HxS). discriminate.
  - intros v _ Hcell. apply same_cell_true in Hcell.
    destruct Hcell as [_ Hsize]. rewrite Hsize.
    apply negb_true_iff, String.eqb_neq. exact Hxs.
Qed.

Lemma one_color_sizes_nodup (cid : string) (l : list Variant.t) :
  (forall v, In v l -> Variant.color_id v = Some cid) ->
  (forall s, cell_count cid s l <= 1) ->
  NoDup (map Variant.size l).
Proof.
  induction l as [|v l IH]; intros Hcol Hcnt; simpl; constructor.
  - intros Hin. apply in_map_iff in Hin. destruct Hin as (u & Hsz & Hu).
    pose proof (Hcnt (Variant.size v)) as H.
    change (v :: l) with ([v] ++ l) in H. rewrite cell_count_app in H.
    assert (H1 : cell_count cid (Variant.size v) [v] = 1).
    { unfold cell_count. simpl.
      assert (E : same_cell cid (Variant.size v) v = true).
      { apply same_cell_true. split; [|reflexivity].
        apply Hcol. now left. }
      now rewrite E. }
    assert (H2 : cell_count cid (Variant.size v) l <> 0).
    { apply cell_count_pos. exists u. repeat split; try assumption.
      apply Hcol. now right. }
    lia.
  - apply IH.
    + intros u Hu. apply Hcol. now right.
    + intros s. pose proof (Hcnt s) as H.
      change (v :: l) with ([v] ++ l) in H. rewrite cell_count_app in H. lia.
Qed.

(** C3. On a full matrix over colors with (non-empty) library ids,
    [setColors] with one more color [c] keeps the existing list as it is
    and appends one synthesized variant of color [c] per size of S, that
    is |S| of them, each with stock 0, no price override, no image and the
    primary flag off. *)
Theorem setColors_adds_one_color (prev : FormData.t) (n : nat)
    (colors : list ColorItem.t) (c : ColorItem.t) :
  full_matrix (FormData.colors prev) (FormData.sizes prev)
    (FormData.variants prev) ->
  (forall c0, In c0 (FormData.colors prev) -> ColorItem.id c0 <> "") ->
  ~ In (ColorItem.id c) (map ColorItem.id (FormData.colors prev)) ->
  (forall x, In x (map ColorItem.id colors)
             <-> In x (map ColorItem.id (FormData.colors prev))
                 \/ x = ColorItem.id c) ->
  exists news,
    FormData.variants (fst (setColors random36 colors (prev, n)))
    = FormData.variants prev ++ news
    /\ List.length news = List.length (nodup string_dec (FormData.sizes prev))
    /\ NoDup (map Variant.size news)
    /\ (forall s, In s (map Variant.size news) <-> In s (FormData.sizes prev))
    /\ Forall (synthesized (ColorItem.id c)) news.
Proof.
  intros Hfull Hids Hnew Hcolors. rewrite setColors_unfold. cbv zeta.
  pose proof Hfull as [Hw Hc].
  assert (Hkept : filter (color_kept (map ColorItem.id colors))
                    (FormData.variants prev) = FormData.variants prev).
  { apply filter_all. intros v Hin.
    destruct (Hw v Hin) as (c0 & Hc0 & Hv & _).
    apply color_kept_true. exists (ColorItem.id c0). repeat split.
    - exact Hv.
    - pose proof (Hids c0 Hc0) as Hne.
      destruct (ColorItem.id c0); [now elim Hne | reflexivity].
    - apply Hcolors. left. now apply in_map. }
  rewrite Hkept.
  set (pairs := color_major colors (FormData.sizes prev)).
  destruct (ensure_pairs_appends random36 (FormData.sku prev) pairs
              (FormData.variants prev) n) as (news & E & Hall).
  pose proof (ensure_pairs_count random36 (FormData.sku prev)) as Hcount.
  exists news. simpl. rewrite E. simpl.
  (* every appended variant is one of color [c] with a selected size *)
  assert (Hnews : forall v, In v news ->
            synthesized (ColorItem.id c) v
            /\ In (Variant.size v) (FormData.sizes prev)).
  { rewrite Forall_forall in Hall. intros v Hin.
    destruct (Hall v Hin) as (c1 & s1 & k & Hp & Hv & Hz).
    apply in_color_major in Hp. destruct Hp as [Hc1 Hs1].
    assert (Hid : In (ColorItem.id c1) (map ColorItem.id colors))
      by now apply in_map.
    apply Hcolors in Hid. destruct Hid as [Hold|Hid].
    - apply in_map_iff in Hold. destruct Hold as (c0 & Hid0 & Hc0).
      rewrite <- Hid0 in Hz. rewrite (Hc c0 s1 Hc0 Hs1) in Hz. discriminate.
    - subst v. rewrite <- Hid. split.
      + apply synthesized_new_variant.
      + exact Hs1. }
  (* the old list has nothing of color [c] *)
  assert (Hzero : forall s, cell_count (ColorItem.id c) s
                              (FormData.variants prev) = 0).
  { intros s.
    destruct (Nat.eq_dec (cell_count (ColorItem.id c) s
                            (FormData.variants prev)) 0) as [Z|Z];
      [exact Z|].
    apply cell_count_pos in Z. destruct Z as (v & Hin & Hv & _).
    destruct (Hw v Hin) as (c0 & Hc0 & Hv0 & _).
    elim Hnew. assert (ColorItem.id c = ColorItem.id c0) as -> by congruence.
    now apply in_map. }
  (* cells of color [c] among the appended variants *)
  assert (Hcell : forall s, cell_count (ColorItem.id c) s news
                            = if has_pair (ColorItem.id c) s pairs
                              then 1 else 0).
  { intros s.
    pose proof (Hcount (ColorItem.id c) s pairs (FormData.variants prev) n)
      as H.
    rewrite E in H. simpl in H. rewrite cell_count_app, Hzero in H.
    simpl in H. exact H. }
  assert (Hpair : forall s, In s (FormData.sizes prev) ->
                            has_pair (ColorItem.id c) s pairs = true).
  { intros s Hs. apply has_pair_true.
    assert (Hin : In (ColorItem.id c) (map ColorItem.id colors))
      by (apply Hcolors; now right).
    apply in_map_iff in Hin. destruct Hin as (c1 & Hid & Hc1).
    exists c1. split; [|exact Hid]. apply in_color_major. tauto. }
  assert (Hnodup : NoDup (map Variant.size news)).
  { apply one_color_sizes_nodup with (cid := ColorItem.id c).
    - intros v Hin. exact (proj1 (proj1 (Hnews v Hin))).
    - intros s. rewrite Hcell.
      destruct (has_pair (ColorItem.id c) s pairs); lia. }
  assert (Hmem : forall s, In s (map Variant.size news)
                           <-> In s (FormData.sizes prev)).
  { intros s. split.
    - intros Hin. apply in_map_iff in Hin. destruct Hin as (v & Hv & Hin).
      subst s. exact (proj2 (Hnews v Hin)).
    - intros Hs.
      assert (Hne : cell_count (ColorItem.id c) s news <> 0)
        by (rewrite Hcell, (Hpair s Hs); discriminate).
      apply cell_count_pos in Hne. destruct Hne as (v & Hin & _ & Hv).
      subst s. now apply in_map. }
  repeat split.
  - rewrite <- (length_map Variant.size news).
    apply Permutation_length. apply NoDup_Permutation.
    + exact Hnodup.
    + apply NoDup_nodup.
    + intros s. rewrite nodup_In. apply Hmem.
  - exact Hnodup.
  - apply Hmem.
  - apply Hmem.
  - apply Forall_forall. intros v Hin. exact (proj1 (Hnews v Hin)).
Qed.

End Matrix.

(* ------------------------------------------------------------------ *)
(** ** The primary flag in the draft *)

Lemma nth_error_mapi_from (A B : Type) (f : A -> nat -> B) (l : list A)
    (k i : nat) :
  nth_error (mapi_from f l k) i
  = option_map (fun x => f x (k + i)) (nth_error l i).
Proof.
  revert k i. induction l as [|x l IH]; intros k i; simpl.
  - now destruct i.
  - destruct i as [|i]; simpl.
    + now rewrite Nat.add_0_r.
    + rewrite IH. now replace (S k + i) with (k + S i) by lia.
Qed.

Lemma length_mapi_from (A B : Type) (f : A -> nat -> B) (l : list A) (k : nat) :
  List.length (mapi_from f l k) = List.length l.
Proof.
  revert k. induction l as [|x l IH]; intros k; simpl; [reflexivity|].
  now rewrite IH.
Qed.

(** [findIndex] answers [-1] when nothing matches, and otherwise the
    position of the first match. *)
Lemma findIndex_from_spec (A : Type) (p : A -> bool) (l : list A) (k : Z) :
  (findIndex_from p l k = (-1)%Z /\ forall x, In x l -> p x = false)
  \/ exists i x,
       findIndex_from p l k = (k + Z.of_nat i)%Z
       /\ nth_error l i = Some x /\ p x = true
       /\ forall j y, j < i -> nth_error l j = Some y -> p y = false.
Proof.
  revert k. induction l as [|a l IH]; intros k; simpl.
  - left. split; [reflexivity | intros x []].
  - destruct (p a) eqn:Pa.
    + right. exists 0, a. repeat split; try assumption.
      * lia.
      * intros j y Hj. lia.
    + destruct (IH (k + 1)%Z) as [[E Hnone]|(i & x & E & Hn & Px & Hmin)].
      * left. split; [exact E|]. intros x [<-|Hx]; auto.
      * right. exists (S i), x. repeat split; try assumption.
        -- rewrite E. lia.
        -- intros j y Hj Hy. destruct j as [|j]; simpl in Hy.
           ++ inversion Hy; subst. exact Pa.
           ++ apply (Hmin j y); [lia | exact Hy].
Qed.

(** C5. [setPrimaryColor c] keeps the list in place, changes no field
    but the primary flag, and leaves the flag on exactly the first
    variant (in list order) whose color is [c]: every other variant, of
    color [c] or not, ends with the flag off, and when no variant has
    color [c] all flags are off. *)
Theorem setPrimaryColor_first_of_color (colorId : string) (prev : FormData.t) :
  let vs := FormData.variants prev in
  let vs' := FormData.variants (setPrimaryColor colorId prev) in
  List.length vs' = List.length vs
  /\ (forall i v, nth_error vs i = Some v ->
        exists v',
          nth_error vs' i = Some v'
          /\ v' = Variant.with_is_primary v (Variant.is_primary v')
          /\ (Variant.is_primary v' = true
              <-> Variant.color_id v = Some colorId
                  /\ forall j u, j < i -> nth_error vs j = Some u ->
                       Variant.color_id u <> Some colorId))
  /\ ((forall v, In v vs -> Variant.color_id v <> Some colorId) ->
      forall v', In v' vs' -> Variant.is_primary v' = false).
Proof.
  cbv zeta. unfold setPrimaryColor, mapi. simpl.
  set (vs := FormData.variants prev).
  set (p := fun varnt : Variant.t => strict_eq (Variant.color_id varnt) colorId).
  assert (Hflag : forall i v, nth_error vs i = Some v ->
            (p v && Z.eqb (findIndex p vs) (Z.of_nat i) = true
             <-> Variant.color_id v = Some colorId
                 /\ forall j u, j < i -> nth_error vs j = Some u ->
                      Variant.color_id u <> Some colorId)).
  { intros i v Hv. rewrite andb_true_iff, Z.eqb_eq. unfold p at 1.
    rewrite strict_eq_true. unfold findIndex.
    destruct (findIndex_from_spec p vs 0)
      as [[E Hnone]|(i0 & x & E & Hn & Px & Hmin)].
    - split.
      + intros [_ H]. rewrite E in H. lia.
      + intros [Hc _]. apply nth_error_In in Hv.
        specialize (Hnone v Hv). unfold p in Hnone.
        apply strict_eq_true in Hc. congruence.
    - rewrite E. split.
      + intros [Hc Hi]. split; [exact Hc|].
        assert (i0 = i) by lia. subst i0.
        intros j u Hj Hu Hcu. apply strict_eq_true in Hcu.
        specialize (Hmin j u Hj Hu). unfold p in Hmin. congruence.
      + intros [Hc Hbefore]. split; [exact Hc|].
        destruct (Nat.lt_trichotomy i0 i) as [Hlt|[Heq|Hgt]].
        * exfalso. apply (Hbefore i0 x Hlt Hn).
          apply strict_eq_true. exact Px.
        * lia.
        * exfalso. specialize (Hmin i v Hgt Hv). unfold p in Hmin.
          apply strict_eq_true in Hc. congruence. }
  split; [apply length_mapi_from|]. split.
  - intros i v Hv. rewrite nth_error_mapi_from, Hv. simpl.
    eexists. split; [reflexivity|]. split; [reflexivity|].
    simpl. apply Hflag. exact Hv.
  - intros Hnone v' Hin. apply In_nth_error in Hin. destruct Hin as [i Hi].
    rewrite nth_error_mapi_from in Hi.
    destruct (nth_error vs i) as [v|] eqn:Hv; [|discriminate].
    simpl in Hi. inversion Hi; subst v'. simpl.
    apply not_true_is_false. intros Ht.
    apply (Hflag i v Hv) in Ht. destruct Ht as [Hc _].
    apply nth_error_In in Hv. exact (Hnone v Hv Hc).
Qed.

(* ------------------------------------------------------------------ *)
(** ** Facts about the local copy of the variants *)

Lemma issued_since_app (old evs : list Event) :
  issued_since old (old ++ evs) = evs.
Proof.
  unfold issued_since. induction old as [|e old IH]; simpl; [reflexivity|].
  exact IH.
Qed.

Lemma attach_upload_map (B : Type) (f : Variant.t -> B)
    (vs : list Variant.t) (result : string * option string) :
  (forall v urls, f (Variant.with_image_urls v urls) = f v) ->
  map f (attach_upload vs result) = map f vs.
Proof.
  intros Hf. unfold attach_upload.
  destruct (snd result) as [colorId|]; [|reflexivity].
  destruct (truthy colorId); [|reflexivity].
  rewrite map_map. apply map_ext. intros v.
  destruct (strict_eq (Variant.color_id v) colorId); [apply Hf | reflexivity].
Qed.

Lemma attach_uploads_map (B : Type) (f : Variant.t -> B)
    (results : list (string * option string)) (vs : list Variant.t) :
  (forall v urls, f (Variant.with_image_urls v urls) = f v) ->
  map f (fold_left attach_upload results vs) = map f vs.
Proof.
  intros Hf. revert vs.
  induction results as [|r results IH]; intros vs; simpl; [reflexivity|].
  rewrite IH. now apply attach_upload_map.
Qed.

Lemma double_round_exact (z : Z) :
  (Z.abs z <= 2 ^ 53)%Z -> double_round z = z.
Proof.
  intros H. unfold double_round. cbv zeta.
  apply Z.leb_le in H. now rewrite H.
Qed.

Lemma total_stock_from (vs : list Variant.t) (acc : Z) :
  (Z.abs acc + stock_magnitude vs <= 2 ^ 53)%Z ->
  fold_left (fun acc v => double_add acc (Variant.stock_quantity v)) vs acc
  = (acc + stock_sum vs)%Z.
Proof.
  revert acc.
  induction vs as [|v vs IH]; intros acc H;
    cbn [fold_left stock_sum stock_magnitude] in *; [lia|].
  pose proof (Z.abs_nonneg (Variant.stock_quantity v)).
  assert (Hm : (0 <= stock_magnitude vs)%Z).
  { clear. induction vs as [|x vs IHvs]; cbn [stock_magnitude]; lia. }
  unfold double_add. rewrite double_round_exact by lia.
  rewrite IH by lia. lia.
Qed.

(** Within the exact range the reduce is the sum. *)
Lemma total_stock_sum (vs : list Variant.t) :
  (stock_magnitude vs <= 2 ^ 53)%Z -> total_stock vs = stock_sum vs.
Proof.
  intros H. unfold total_stock. rewrite total_stock_from; [reflexivity|].
  simpl Z.abs. lia.
Qed.

Lemma stock_magnitude_ext (a b : list Variant.t) :
  map Variant.stock_quantity a = map Variant.stock_quantity b ->
  stock_magnitude a = stock_magnitude b.
Proof.
  revert b. induction a as [|x a IH]; intros [|y b] H; simpl in *;
    try discriminate; [reflexivity|].
  inversion H as [[Hx Hrest]]. rewrite Hx. f_equal. now apply IH.
Qed.

Lemma stock_sum_ext (a b : list Variant.t) :
  map Variant.stock_quantity a = map Variant.stock_quantity b ->
  stock_sum a = stock_sum b.
Proof.
  revert b. induction a as [|x a IH]; intros [|y b] H; simpl in *;
    try discriminate; [reflexivity|].
  inversion H as [[Hx Hrest]]. rewrite Hx. f_equal. now apply IH.
Qed.

Lemma primary_count_ext (a b : list Variant.t) :
  map Variant.is_primary a = map Variant.is_primary b ->
  primary_count a = primary_count b.
Proof.
  unfold primary_count. revert b.
  induction a as [|x a IH]; intros [|y b] H; simpl in *;
    try discriminate; [reflexivity|].
  inversion H as [[Hx Hrest]]. rewrite Hx.
  destruct (Variant.is_primary y); simpl; [f_equal|]; now apply IH.
Qed.

Lemma existsb_primary_count (vs : list Variant.t) :
  existsb Variant.is_primary vs = negb (primary_count vs =? 0).
Proof.
  unfold primary_count. induction vs as [|v vs IH]; simpl; [reflexivity|].
  destruct (Variant.is_primary v); simpl; [reflexivity | exact IH].
Qed.

Lemma primary_rows_variantsToInsert (productId : string)
    (vs : list Variant.t) :
  primary_rows (variantsToInsert productId vs) = primary_count vs.
Proof.
  unfold primary_rows, primary_count, variantsToInsert.
  induction vs as [|v vs IH]; simpl; [reflexivity|].
  destruct (Variant.is_primary v); simpl; now rewrite IH.
Qed.

(** The variant list sent to the insert carries one flag when the local
    copy carried none, and the flags of the local copy otherwise. *)
Lemma primary_count_saved (vs : list Variant.t) :
  primary_count (saved_variants vs)
  = match vs with
    | [] => 0
    | _ :: _ => Nat.max 1 (primary_count vs)
    end.
Proof.
  unfold saved_variants. rewrite existsb_primary_count, negb_involutive.
  destruct vs as [|v vs]; [reflexivity|].
  change (0 <? List.length (v :: vs)) with true. cbv beta iota. simpl andb.
  destruct (primary_count (v :: vs) =? 0) eqn:E.
  - apply Nat.eqb_eq in E. rewrite E.
    unfold primary_count in *. simpl in *.
    destruct (Variant.is_primary v); simpl in *; [discriminate|].
    now rewrite E.
  - apply Nat.eqb_neq in E. lia.
Qed.

Lemma rows_of_variantsToInsert (productId : string) (vs : list Variant.t) :
  rows_of productId (variantsToInsert productId vs)
  = variantsToInsert productId vs.
Proof.
  unfold rows_of. apply filter_all. intros r Hin.
  unfold variantsToInsert in Hin. apply in_map_iff in Hin.
  destruct Hin as (v & <- & _). simpl. apply String.eqb_refl.
Qed.

Lemma rows_of_deleted (productId : string) (rows : list VariantRow.t) :
  rows_of productId (db_delete_variants productId rows) = [].
Proof.
  unfold rows_of, db_delete_variants.
  induction rows as [|r rows IH]; simpl; [reflexivity|].
  destruct (String.eqb (VariantRow.product_id r) productId) eqn:E; simpl.
  - exact IH.
  - rewrite E. exact IH.
Qed.

Lemma rows_of_app (productId : string) (a b : list VariantRow.t) :
  rows_of productId (a ++ b) = rows_of productId a ++ rows_of productId b.
Proof. unfold rows_of. apply filter_app. Qed.

(* ------------------------------------------------------------------ *)
(** ** The upload step *)

Section SaveFacts.

Variable parseFloat : string -> number.
Variable backend : Backend.t.

Lemma bind_run (A B : Type) (m : M A) (k : A -> M B) (w : World.t) :
  bind m k w
  = match m w with
    | (inl e, w') => (inl e, w')
    | (inr a, w') => k a w'
    end.
Proof. reflexivity. Qed.

Lemma start_uploads_run (pfs : list PendingFile.t) (k : nat) (w : World.t) :
  let rs := fst (start_uploads backend pfs k w) in
  let w' := snd (start_uploads backend pfs k w) in
  World.formData w' = World.formData w
  /\ World.isDialogOpen w' = World.isDialogOpen w
  /\ World.products w' = World.products w
  /\ World.product_variants w' = World.product_variants w
  /\ World.trace w'
     = World.trace w ++ map (fun pf => StorageUpload (PendingFile.file pf)) pfs
  /\ (forall e, all_settled rs = inl e ->
        e = JsError.mk true "Failed to upload image to Supabase Storage"
        /\ exists i pf,
             nth_error pfs i = Some pf
             /\ Backend.storage_upload backend (k + i) (PendingFile.file pf)
                = None)
  /\ (forall urls, all_settled rs = inr urls ->
        forall i pf, nth_error pfs i = Some pf ->
          Backend.storage_upload backend (k + i) (PendingFile.file pf) <> None).
Proof.
  revert k w. induction pfs as [|pf rest IH]; intros k w; cbv zeta.
  - simpl. rewrite app_nil_r. do 5 (split; [reflexivity|]). split.
    + intros e H. discriminate.
    + intros urls _ [|i] pf' H; discriminate.
  - simpl. unfold uploadProductImage, bind, emit, act, throw, ret.
    destruct (Backend.storage_upload backend k (PendingFile.file pf))
      as [url|] eqn:U.
    + match goal with
      | |- context [start_uploads backend rest (S k) ?w1] =>
          specialize (IH (S k) w1);
          destruct (start_uploads backend rest (S k) w1) as [rs w2]
      end.
      cbv zeta in IH. simpl in IH. simpl.
      destruct IH as (Hf & Ho & Hp & Hv & Ht & Hfail & Hok).
      rewrite Hf, Ho, Hp, Hv, Ht, <- app_assoc. simpl.
      do 5 (split; [reflexivity|]). split.
      * destruct (all_settled rs) as [e'|l] eqn:A; intros e He;
          inversion He; subst.
        destruct (Hfail e eq_refl) as (He' & i & pf' & Hn & Hu).
        split; [exact He'|].
        exists (S i), pf'. split; [exact Hn|].
        now replace (k + S i) with (S k + i) by lia.
      * intros urls Hurls i pf' Hn.
        destruct (all_settled rs) as [e'|l]; [discriminate|].
        destruct i as [|i]; simpl in Hn.
        -- inversion Hn; subst. rewrite Nat.add_0_r, U. discriminate.
        -- replace (k + S i) with (S k + i) by lia.
           apply (Hok l eq_refl i pf' Hn).
    + match goal with
      | |- context [start_uploads backend rest (S k) ?w1] =>
          specialize (IH (S k) w1);
          destruct (start_uploads backend rest (S k) w1) as [rs w2]
      end.
      cbv zeta in IH. simpl in IH. simpl.
      destruct IH as (Hf & Ho & Hp & Hv & Ht & Hfail & Hok).
      rewrite Hf, Ho, Hp, Hv, Ht, <- app_assoc. simpl.
      do 5 (split; [reflexivity|]). split.
      * intros e He. inversion He. split; [reflexivity|].
        exists 0, pf. split; [reflexivity|].
        now rewrite Nat.add_0_r.
      * intros urls H. discriminate.
Qed.

(** Outcome of the upload step: either one upload was refused and the
    step throws with nothing written, or every upload was accepted and
    the local copy differs from the draft in image lists only. *)
Lemma upload_pending_run (pfs : list PendingFile.t) (vs : list Variant.t)
    (w : World.t) :
  match upload_pending backend pfs vs w with
  | (inl e, w') =>
      e = JsError.mk true "Failed to upload image to Supabase Storage"
      /\ (exists i pf,
            nth_error pfs i = Some pf
            /\ Backend.storage_upload backend i (PendingFile.file pf) = None)
      /\ World.formData w' = World.formData w
      /\ World.isDialogOpen w' = World.isDialogOpen w
      /\ World.products w' = World.products w
      /\ World.product_variants w' = World.product_variants w
      /\ exists evs, World.trace w' = World.trace w ++ evs
                     /\ Forall (fun e => is_db_write e = false) evs
  | (inr cv, w') =>
      uploads_succeed backend pfs
      /\ (forall (B : Type) (f : Variant.t -> B),
            (forall v urls, f (Variant.with_image_urls v urls) = f v) ->
            map f cv = map f vs)
      /\ World.isDialogOpen w' = World.isDialogOpen w
      /\ World.products w' = World.products w
      /\ World.product_variants w' = World.product_variants w
      /\ exists evs, World.trace w' = World.trace w ++ evs
                     /\ Forall (fun e => is_db_write e = false) evs
  end.
Proof.
  unfold upload_pending. destruct pfs as [|pf rest].
  - simpl. unfold ret. repeat split; try reflexivity.
    + intros [|i] pf' H; discriminate.
    + exists []. rewrite app_nil_r. split; [reflexivity | constructor].
  - change (0 <? List.length (pf :: rest)) with true. cbv iota.
    unfold bind, emit, act, ret, promise_all_uploads.
    set (w0 := World.emit _ w).
    pose proof (start_uploads_run (pf :: rest) 0 w0) as H. cbv zeta in H.
    destruct (start_uploads backend (pf :: rest) 0 w0) as [rs w1].
    simpl fst in H. simpl snd in H.
    destruct H as (Hf & Ho & Hp & Hv & Ht & Hfail & Hok).
    assert (Hnw : forall l : list PendingFile.t,
              Forall (fun e => is_db_write e = false)
                (map (fun pf => StorageUpload (PendingFile.file pf)) l)).
    { intros l. apply Forall_forall. intros e Hin. apply in_map_iff in Hin.
      destruct Hin as (x & <- & _). reflexivity. }
    destruct (all_settled rs) as [e|urls] eqn:A.
    + destruct (Hfail e eq_refl) as (He & i & pf' & Hn & Hu).
      split; [exact He|]. split; [now exists i, pf'|].
      split; [exact Hf|]. split; [exact Ho|].
      split; [exact Hp|]. split; [exact Hv|].
      eexists. split.
      * rewrite Ht. unfold w0. simpl. rewrite <- app_assoc. reflexivity.
      * constructor; [reflexivity | apply (Hnw (pf :: rest))].
    + simpl.
      split; [intros i pf' Hn; apply (Hok urls eq_refl i pf' Hn)|].
      split; [intros B f Hfield; now apply attach_uploads_map|].
      split; [exact Ho|]. split; [exact Hp|]. split; [exact Hv|].
      eexists. split.
      * rewrite Ht. unfold w0. simpl. rewrite <- !app_assoc. reflexivity.
      * constructor; [reflexivity|]. apply Forall_app. split.
        -- apply (Hnw (pf :: rest)).
        -- constructor; [reflexivity | constructor].
Qed.

(* ------------------------------------------------------------------ *)
(** ** Rejected and aborted saves *)

(** C6. A draft with a color selected and no variant is rejected: the
    handler only shows the validation message and returns; no upload and
    no database request is issued, and the draft, the pending files, the
    dialog and the remote tables and bucket are as before. *)
Theorem submit_rejects_colors_without_variants (w : World.t) :
  FormData.colors (World.formData w) <> [] ->
  FormData.variants (World.formData w) = [] ->
  let w' := handleSubmit parseFloat backend w in
  w' = World.emit
         (ToastError "Please add at least one variant for your chosen colors"
            None) w
  /\ issued_since (World.trace w) (World.trace w')
     = [ToastError "Please add at least one variant for your chosen colors"
          None]
  /\ Forall (fun e => is_network e = false)
       (issued_since (World.trace w) (World.trace w'))
  /\ World.formData w' = World.formData w
  /\ World.pendingFiles w' = World.pendingFiles w
  /\ World.isDialogOpen w' = World.isDialogOpen w
  /\ World.products w' = World.products w
  /\ World.product_variants w' = World.product_variants w
  /\ World.bucket w' = World.bucket w.
Proof.
  intros Hcolors Hvariants. unfold handleSubmit. cbv zeta.
  rewrite Hvariants.
  destruct (FormData.colors (World.formData w)) as [|c cs];
    [now elim Hcolors|].
  simpl. rewrite issued_since_app.
  repeat split. constructor; [reflexivity | constructor].
Qed.

(** C8. When one pending upload is refused, the save stops there with
    the upload error shown: no request to [products] or
    [product_variants] is issued, both tables are as before the save, and
    the draft stays in the open dialog. *)
Theorem upload_failure_writes_nothing (w : World.t) (i : nat)
    (pf : PendingFile.t) :
  passes_validation (World.formData w) = true ->
  nth_error (World.pendingFiles w) i = Some pf ->
  Backend.storage_upload backend i (PendingFile.file pf) = None ->
  let w' := handleSubmit parseFloat backend w in
  World.products w' = World.products w
  /\ World.product_variants w' = World.product_variants w
  /\ World.formData w' = World.formData w
  /\ World.isDialogOpen w' = World.isDialogOpen w
  /\ exists evs,
       issued_since (World.trace w) (World.trace w')
       = evs ++ [ToastError "Failed to upload image to Supabase Storage"
                   (Some "upload")]
       /\ Forall (fun e => is_db_write e = false) evs.
Proof.
  intros Hvalid Hn Hu. unfold handleSubmit. cbv zeta.
  unfold passes_validation in Hvalid. apply negb_true_iff in Hvalid.
  rewrite Hvalid. unfold try_catch, submit_body. rewrite bind_run.
  pose proof (upload_pending_run (World.pendingFiles w)
                (FormData.variants (World.formData w)) w) as H.
  destruct (upload_pending backend (World.pendingFiles w)
              (FormData.variants (World.formData w)) w) as [[e|cv] w1].
  - destruct H as (He & _ & Hf & Ho & Hp & Hv & evs & Ht & Hev).
    subst e. simpl.
    split; [exact Hp|]. split; [exact Hv|].
    split; [exact Hf|]. split; [exact Ho|].
    exists evs. split; [|exact Hev].
    rewrite Ht, <- app_assoc. apply issued_since_app.
  - destruct H as (Hok & _). elim (Hok i pf Hn Hu).
Qed.

(* ------------------------------------------------------------------ *)
(** ** The product row and the variant rows *)

Lemma product_write_ok_outcome (editingProduct : option Product.t)
    (productId : string) (payload : ProductPayload.t) :
  product_write_ok backend editingProduct productId ->
  write_outcome backend editingProduct payload = inr productId.
Proof.
  unfold product_write_ok, write_outcome.
  destruct editingProduct as [p|].
  - intros [<- H]. now rewrite H.
  - intros H. apply H.
Qed.

(** What steps 3 and 4 do, by the answers of the database. *)
Lemma persist_run (formData : FormData.t) (editingProduct : option Product.t)
    (cv : list Variant.t) (w : World.t) :
  let payload := productPayload parseFloat formData cv in
  let r := persist parseFloat backend formData editingProduct cv w in
  match write_outcome backend editingProduct payload with
  | inl error =>
      fst r = inl error
      /\ World.products (snd r) = World.products w
      /\ World.product_variants (snd r) = World.product_variants w
      /\ World.trace (snd r)
         = World.trace w ++ [write_event editingProduct payload]
  | inr productId =>
      World.products (snd r)
      = written_products editingProduct productId payload (World.products w)
      /\ if truthy productId then
           match Backend.variants_delete backend productId with
           | Some deleteError =>
               fst r = inl deleteError
               /\ World.product_variants (snd r) = World.product_variants w
               /\ World.trace (snd r)
                  = World.trace w
                    ++ [write_event editingProduct payload;
                        VariantsDelete productId]
           | None =>
               let rows := variantsToInsert productId (saved_variants cv) in
               let log :=
                 ConsoleLog ("Saving variants: "
                             ++ show_nat (List.length rows)) in
               match rows, Backend.variants_insert backend rows with
               | _ :: _, Some variantError =>
                   fst r = inl variantError
                   /\ World.product_variants (snd r)
                      = db_delete_variants productId (World.product_variants w)
                   /\ World.trace (snd r)
                      = World.trace w
                        ++ [write_event editingProduct payload;
                            VariantsDelete productId; log;
                            VariantsInsert rows]
               | _, _ =>
                   fst r = inr tt
                   /\ World.product_variants (snd r)
                      = db_delete_variants productId (World.product_variants w)
                        ++ rows
                   /\ World.trace (snd r)
                      = World.trace w
                        ++ [write_event editingProduct payload;
                            VariantsDelete productId; log]
                        ++ match rows with
                           | [] => []
                           | _ :: _ => [VariantsInsert rows]
                           end
                        ++ closing_events editingProduct productId
                   /\ World.formData (snd r) = FormData.empty
                   /\ World.isDialogOpen (snd r) = false
               end
           end
         else
           fst r = inr tt
           /\ World.product_variants (snd r) = World.product_variants w
           /\ World.trace (snd r)
              = World.trace w
                ++ [write_event editingProduct payload]
                ++ closing_events editingProduct productId
  end.
Proof.
  cbv zeta.
  assert (Hsaved : forall pid,
    variantsToInsert pid
      (if (0 <? List.length cv) && negb (existsb Variant.is_primary cv)
       then force_first_primary cv else cv)
    = variantsToInsert pid (saved_variants cv)) by reflexivity.
  unfold persist, write_outcome, write_event, written_products,
    closing_events.
  unfold supabase_products_update, supabase_products_insert, save_variants,
    supabase_variants_delete, supabase_variants_insert.
  cbv zeta. unfold bind, emit, act, ret, throw.
  destruct editingProduct as [p|].
  - destruct (Backend.products_update backend (Product.id p)
                (productPayload parseFloat formData cv)) as [error|].
    + simpl. repeat split.
    + destruct (truthy (Product.id p)); cbv beta iota delta [when_].
      * destruct (Backend.variants_delete backend (Product.id p))
          as [deleteError|].
        -- simpl. rewrite <- app_assoc. repeat split.
        -- rewrite !Hsaved.
           destruct (variantsToInsert (Product.id p) (saved_variants cv))
             as [|row rows].
           ++ destruct ((0 <? List.length cv)
                         && negb (existsb Variant.is_primary cv));
                simpl; rewrite <- !app_assoc; simpl; repeat split;
                now rewrite app_nil_r.
           ++ change (0 <? List.length (row :: rows)) with true. cbv iota.
              destruct (Backend.variants_insert backend (row :: rows));
                destruct ((0 <? List.length cv)
                          && negb (existsb Variant.is_primary cv));
                simpl; rewrite <- !app_assoc; simpl; repeat split.
      * simpl. rewrite <- !app_assoc. repeat split.
  - destruct (Backend.products_insert backend
                (productPayload parseFloat formData cv)) as [error|productId].
    + simpl. repeat split.
    + destruct (truthy productId); cbv beta iota delta [when_].
      * destruct (Backend.variants_delete backend productId)
          as [deleteError|].
        -- simpl. rewrite <- app_assoc. repeat split.
        -- rewrite !Hsaved.
           destruct (variantsToInsert productId (saved_variants cv))
             as [|row rows].
           ++ destruct ((0 <? List.length cv)
                         && negb (existsb Variant.is_primary cv));
                simpl; rewrite <- !app_assoc; simpl; repeat split;
                now rewrite app_nil_r.
           ++ change (0 <? List.length (row :: rows)) with true. cbv iota.
              destruct (Backend.variants_insert backend (row :: rows));
                destruct ((0 <? List.length cv)
                          && negb (existsb Variant.is_primary cv));
                simpl; rewrite <- !app_assoc; simpl; repeat split.
      * simpl. rewrite <- !app_assoc. repeat split.
Qed.



(** Steps 3 and 4 start with the product write, and no other request of
    theirs carries a product payload. *)
Lemma persist_events (formData : FormData.t)
    (editingProduct : option Product.t) (cv : list Variant.t) (w : World.t) :
  exists evs,
    World.trace (snd (persist parseFloat backend formData editingProduct cv w))
    = World.trace w
      ++ write_event editingProduct (productPayload parseFloat formData cv)
         :: evs
    /\ Forall (fun e => match e with
                        | ProductsUpdate _ _ | ProductsInsert _ => False
                        | _ => True
                        end) evs.
Proof.
  pose proof (persist_run formData editingProduct cv w) as R. cbv zeta in R.
  destruct (write_outcome backend editingProduct
              (productPayload parseFloat formData cv)) as [error|productId].
  - destruct R as (_ & _ & _ & Ht). exists []. split; [exact Ht | constructor].
  - destruct R as [_ R]. destruct (truthy productId).
    + destruct (Backend.variants_delete backend productId) as [deleteError|].
      * destruct R as (_ & _ & Ht). eexists. split; [exact Ht|].
        repeat constructor.
      * destruct (variantsToInsert productId (saved_variants cv))
          as [|row rows].
        -- destruct R as (_ & _ & Ht & _). eexists. split; [exact Ht|].
           unfold closing_events. simpl. repeat constructor.
        -- destruct (Backend.variants_insert backend (row :: rows)).
           ++ destruct R as (_ & _ & Ht). eexists. split; [exact Ht|].
              repeat constructor.
           ++ destruct R as (_ & _ & Ht & _). eexists. split; [exact Ht|].
              unfold closing_events. simpl. repeat constructor.
    + destruct R as (_ & _ & Ht). eexists. split; [exact Ht|].
      unfold closing_events. simpl. repeat constructor.
Qed.



Lemma length_saved_variants (cv : list Variant.t) :
  List.length (saved_variants cv) = List.length cv.
Proof.
  unfold saved_variants.
  destruct ((0 <? List.length cv) && negb (existsb Variant.is_primary cv));
    [|reflexivity].
  now destruct cv.
Qed.

Lemma length_variantsToInsert (productId : string) (vs : list Variant.t) :
  List.length (variantsToInsert productId vs) = List.length vs.
Proof. unfold variantsToInsert. apply length_map. Qed.

Lemma local_copy_length (cv vs : list Variant.t) :
  (forall (B : Type) (f : Variant.t -> B),
     (forall v urls, f (Variant.with_image_urls v urls) = f v) ->
     map f cv = map f vs) ->
  List.length cv = List.length vs.
Proof.
  intros H. rewrite <- (length_map (fun _ => tt) cv), <- (length_map (fun _ => tt) vs).
  f_equal. now apply H.
Qed.

(** C9. The variant rows are replaced in two separate requests, the
    delete of every row of the product and then the insert of the whole
    in-memory list. When the delete succeeds and the insert fails, the
    save ends on the error message with nothing undone: the product row
    is written, and the product has no variant row left. *)
Theorem insert_failure_leaves_no_variants (w : World.t) (productId : string)
    (variantError : JsError.t) :
  passes_validation (World.formData w) = true ->
  uploads_succeed backend (World.pendingFiles w) ->
  product_write_ok backend (World.editingProduct w) productId ->
  truthy productId = true ->
  Backend.variants_delete backend productId = None ->
  FormData.variants (World.formData w) <> [] ->
  (forall rows, Backend.variants_insert backend rows = Some variantError) ->
  let w' := handleSubmit parseFloat backend w in
  rows_of productId (World.product_variants w') = []
  /\ World.product_variants w'
     = db_delete_variants productId (World.product_variants w)
  /\ exists cv before log,
       (forall (B : Type) (f : Variant.t -> B),
          (forall v urls, f (Variant.with_image_urls v urls) = f v) ->
          map f cv = map f (FormData.variants (World.formData w)))
       /\ World.products w'
          = written_products (World.editingProduct w) productId
              (productPayload parseFloat (World.formData w) cv)
              (World.products w)
       /\ issued_since (World.trace w) (World.trace w')
          = before
            ++ [write_event (World.editingProduct w)
                  (productPayload parseFloat (World.formData w) cv);
                VariantsDelete productId;
                log;
                VariantsInsert (variantsToInsert productId (saved_variants cv));
                ToastError (catch_message variantError) (Some "upload")]
       /\ Forall (fun e => is_db_write e = false) before.
Proof.
  intros Hvalid Hup Hwrite Htruthy Hdelete Hne Hinsert.
  unfold handleSubmit. cbv zeta.
  unfold passes_validation in Hvalid. apply negb_true_iff in Hvalid.
  rewrite Hvalid. unfold try_catch, submit_body. rewrite bind_run.
  pose proof (upload_pending_run (World.pendingFiles w)
                (FormData.variants (World.formData w)) w) as H.
  destruct (upload_pending backend (World.pendingFiles w)
              (FormData.variants (World.formData w)) w) as [[e|cv] w1].
  - destruct H as (_ & (i & pf & Hn & Hu) & _). elim (Hup i pf Hn Hu).
  - destruct H as (_ & Hmap & _ & Hp & Hv & evs & Ht & Hev).
    pose proof (persist_run (World.formData w) (World.editingProduct w) cv w1)
      as R. cbv zeta in R.
    rewrite (@product_write_ok_outcome _ productId _ Hwrite) in R.
    rewrite Htruthy, Hdelete in R.
    destruct (variantsToInsert productId (saved_variants cv))
      as [|row rows] eqn:Hrows.
    + exfalso. apply Hne.
      apply (f_equal (@List.length _)) in Hrows.
      rewrite length_variantsToInsert, length_saved_variants,
        (@local_copy_length _ _ Hmap) in Hrows.
      now destruct (FormData.variants (World.formData w)).
    + rewrite Hinsert in R. destruct R as (Hp' & Hr & Hv' & Ht').
      destruct (persist parseFloat backend (World.formData w)
                  (World.editingProduct w) cv w1) as [[e|[]] w2];
        simpl in *; [|discriminate].
      inversion Hr; subst e. rewrite Hv', Hv.
      split; [apply rows_of_deleted|]. split; [reflexivity|].
      exists cv, evs. eexists. rewrite Hrows. split; [exact Hmap|].
      split; [now rewrite Hp', Hp|]. split; [|exact Hev].
      rewrite Ht', Ht, <- !app_assoc. simpl.
      rewrite issued_since_app. reflexivity.
Qed.

(** The flag of each variant that reaches the insert: its own, and the
    forced one on the first variant when none is flagged. *)
Lemma nth_error_saved_variants (cv : list Variant.t) (j : nat)
    (c : Variant.t) :
  nth_error cv j = Some c ->
  exists c',
    nth_error (saved_variants cv) j = Some c'
    /\ Variant.is_primary c'
       = Variant.is_primary c
         || ((j =? 0) && negb (existsb Variant.is_primary cv)).
Proof.
  intros H. unfold saved_variants.
  destruct cv as [|c0 rest]; [destruct j; discriminate|].
  change (0 <? List.length (c0 :: rest)) with true. cbn [andb].
  destruct (existsb Variant.is_primary (c0 :: rest)); cbn [negb].
  - exists c. split; [exact H|]. now rewrite andb_false_r, orb_false_r.
  - cbn [force_first_primary]. destruct j as [|j]; cbn [nth_error] in *.
    + inversion H; subst c0. eexists. split; [reflexivity|].
      simpl. now rewrite orb_true_r.
    + exists c. split; [exact H|]. simpl. now rewrite orb_false_r.
Qed.

(** C4, as the code has it. A completed save never clears a flag and
    sets one only when the local copy has none: row [j] of the persisted
    list of the product is primary exactly when variant [j] of the draft
    was flagged, or when it is the first row and no variant was flagged.
    So the list has no primary row when the variant list is empty, at
    least one otherwise, and exactly one whenever at most one variant of
    the draft was flagged; when none was flagged and a variant exists,
    the first row in list order is the one made primary. *)
Theorem save_keeps_a_primary (w : World.t) (productId : string) :
  passes_validation (World.formData w) = true ->
  uploads_succeed backend (World.pendingFiles w) ->
  product_write_ok backend (World.editingProduct w) productId ->
  truthy productId = true ->
  Backend.variants_delete backend productId = None ->
  (forall rows, Backend.variants_insert backend rows = None) ->
  let vs := FormData.variants (World.formData w) in
  let rows :=
    rows_of productId
      (World.product_variants (handleSubmit parseFloat backend w)) in
  List.length rows = List.length vs
  /\ (forall j v, nth_error vs j = Some v ->
        exists r,
          nth_error rows j = Some r
          /\ VariantRow.is_primary r
             = Variant.is_primary v
               || ((j =? 0) && negb (existsb Variant.is_primary vs)))
  /\ (vs = [] -> primary_rows rows = 0)
  /\ (vs <> [] -> 1 <= primary_rows rows)
  /\ (vs <> [] -> primary_count vs <= 1 -> primary_rows rows = 1)
  /\ (vs <> [] -> primary_count vs = 0 ->
      exists r rest,
        rows = r :: rest
        /\ VariantRow.is_primary r = true
        /\ primary_rows rest = 0).
Proof.
  intros Hvalid Hup Hwrite Htruthy Hdelete Hinsert. cbv zeta.
  unfold handleSubmit. cbv zeta.
  unfold passes_validation in Hvalid. apply negb_true_iff in Hvalid.
  rewrite Hvalid. unfold try_catch, submit_body. rewrite bind_run.
  pose proof (upload_pending_run (World.pendingFiles w)
                (FormData.variants (World.formData w)) w) as H.
  destruct (upload_pending backend (World.pendingFiles w)
              (FormData.variants (World.formData w)) w) as [[e|cv] w1].
  - destruct H as (_ & (i & pf & Hn & Hu) & _). elim (Hup i pf Hn Hu).
  - destruct H as (_ & Hmap & _ & Hp & Hv & evs & Ht & Hev).
    pose proof (persist_run (World.formData w) (World.editingProduct w) cv w1)
      as R. cbv zeta in R.
    rewrite (@product_write_ok_outcome _ productId _ Hwrite) in R.
    rewrite Htruthy, Hdelete in R.
    assert (Hrows :
      rows_of productId
        (World.product_variants
           (snd (persist parseFloat backend (World.formData w)
                   (World.editingProduct w) cv w1)))
      = variantsToInsert productId (saved_variants cv)).
    { destruct (variantsToInsert productId (saved_variants cv))
        as [|row rows] eqn:E; rewrite ?Hinsert in R;
        destruct R as (_ & _ & Hv' & _);
        rewrite Hv', rows_of_app, rows_of_deleted, app_nil_l, <- E;
        apply rows_of_variantsToInsert. }
    assert (Hsucc :
      fst (persist parseFloat backend (World.formData w)
             (World.editingProduct w) cv w1) = inr tt).
    { destruct (variantsToInsert productId (saved_variants cv));
        rewrite ?Hinsert in R; now destruct R as (_ & Hr & _). }
    destruct (persist parseFloat backend (World.formData w)
                (World.editingProduct w) cv w1) as [[e|[]] w2];
      simpl in Hsucc; [discriminate|].
    simpl in Hrows. simpl. rewrite Hrows.
    assert (Hlen : List.length cv
                   = List.length (FormData.variants (World.formData w)))
      by exact (@local_copy_length _ _ Hmap).
    assert (Hprim : primary_count cv
                    = primary_count (FormData.variants (World.formData w))).
    { apply primary_count_ext. apply Hmap. reflexivity. }
    assert (Hpoint : forall j v,
      nth_error (FormData.variants (World.formData w)) j = Some v ->
      exists r,
        nth_error (variantsToInsert productId (saved_variants cv)) j = Some r
        /\ VariantRow.is_primary r
           = Variant.is_primary v
             || ((j =? 0)
                 && negb (existsb Variant.is_primary
                            (FormData.variants (World.formData w))))).
    { intros j v Hj.
      pose proof (map_nth_error Variant.is_primary _ _ Hj) as Hflag.
      rewrite <- (Hmap bool Variant.is_primary (fun _ _ => eq_refl)) in Hflag.
      rewrite nth_error_map in Hflag.
      destruct (nth_error cv j) as [c|] eqn:Hc; [|discriminate].
      simpl in Hflag. inversion Hflag as [Hcv].
      destruct (nth_error_saved_variants _ _ Hc) as (c' & Hc' & Hprimary).
      exists (VariantRow.mk productId (Variant.color_id c') (Variant.size c')
                (Variant.sku c') (Variant.price c')
                (Variant.stock_quantity c') (Variant.image_urls c')
                (Variant.is_primary c')).
      split.
      - unfold variantsToInsert.
        exact (map_nth_error _ _ _ Hc').
      - cbn [VariantRow.is_primary]. rewrite Hprimary.
        now rewrite !existsb_primary_count, Hprim. }
    rewrite primary_rows_variantsToInsert, primary_count_saved.
    rewrite length_variantsToInsert, length_saved_variants.
    split; [exact Hlen|]. split; [exact Hpoint|]. clear Hpoint.
    destruct (FormData.variants (World.formData w)) as [|v0 vs0] eqn:Evs.
    + destruct cv; [|discriminate]. repeat split; try reflexivity;
        intros Hc; now elim Hc.
    + destruct cv as [|c0 cv0]; [discriminate|].
      split; [discriminate|]. split; [intros _; lia|].
      split; [intros _ Hle; lia|].
      intros _ Hzero. rewrite Hzero in Hprim.
      unfold saved_variants.
      rewrite existsb_primary_count, Hprim. simpl.
      eexists. eexists. split; [reflexivity|]. split; [reflexivity|].
      fold (variantsToInsert productId cv0).
      rewrite primary_rows_variantsToInsert.
      unfold primary_count in *. simpl in Hprim.
      destruct (Variant.is_primary c0); simpl in Hprim;
        [discriminate | exact Hprim].
Qed.

End SaveFacts.

(* ------------------------------------------------------------------ *)
(** ** Saving after the color set was cleared *)

Section EditFlow.

Variable random36 : nat -> string.
Variable parseFloat : string -> number.
Variable backend : Backend.t.

Lemma setColors_colors_selected (colors : list ColorItem.t) (st : Draft) :
  colors_selected (fst (setColors random36 colors st)).
Proof.
  destruct st as [prev n]. rewrite setColors_unfold. cbv zeta.
  destruct (ensure_pairs_appends random36 (FormData.sku prev)
              (color_major colors (FormData.sizes prev))
              (filter (color_kept (map ColorItem.id colors))
                      (FormData.variants prev)) n) as (news & E & Hall).
  rewrite E. intros v Hin. simpl in Hin. simpl.
  apply in_app_or in Hin. destruct Hin as [Hin|Hin].
  - apply filter_In in Hin. destruct Hin as [_ Hk].
    apply color_kept_true in Hk. destruct Hk as (cid & Hv & _ & Hc).
    apply in_map_iff in Hc. destruct Hc as (c & Hid & Hc). subst cid.
    now exists c.
  - rewrite Forall_forall in Hall.
    destruct (Hall v Hin) as (c & s & k & Hp & Hv & _).
    apply in_color_major in Hp. subst v. exists c. simpl. tauto.
Qed.

Lemma setSizes_colors_selected (sizes : list string) (st : Draft) :
  colors_selected (fst st) ->
  colors_selected (fst (setSizes random36 sizes st)).
Proof.
  destruct st as [prev n]. intros Hsel. rewrite setSizes_unfold. cbv zeta.
  destruct (ensure_pairs_appends random36 (FormData.sku prev)
              (size_major sizes (FormData.colors prev))
              (filter (fun v => includes sizes (Variant.size v))
                      (FormData.variants prev)) n) as (news & E & Hall).
  rewrite E. intros v Hin. simpl in Hin. simpl.
  apply in_app_or in Hin. destruct Hin as [Hin|Hin].
  - apply filter_In in Hin. destruct Hin as [Hin _]. exact (Hsel v Hin).
  - rewrite Forall_forall in Hall.
    destruct (Hall v Hin) as (c & s & k & Hp & Hv & _).
    apply in_size_major in Hp. subst v. exists c. simpl. tauto.
Qed.

Lemma run_updates_colors_selected (us : list Update) (st : Draft) :
  colors_selected (fst st) ->
  colors_selected (fst (run_updates random36 us st)).
Proof.
  unfold run_updates. revert st.
  induction us as [|u us IH]; intros st H; simpl; [exact H|].
  apply IH. destruct u as [cs|ss]; simpl.
  - apply setColors_colors_selected.
  - now apply setSizes_colors_selected.
Qed.

(** C10, as the code has it. Once the color set of the draft has been
    emptied through [setColors] the variant list is empty too, the validation of step 1
    does not fire, and saving the edited product deletes every variant
    row of that product, inserts none, writes [stock_quantity = 0] on the
    product row and ends on the success message. *)
Theorem clearing_colors_drops_all_variants (w : World.t) (p : Product.t)
    (st : Draft) (colors : list ColorItem.t) (us : list Update) :
  World.formData w
  = fst (run_updates random36 us (setColors random36 colors st)) ->
  FormData.colors (World.formData w) = [] ->
  World.editingProduct w = Some p ->
  truthy (Product.id p) = true ->
  uploads_succeed backend (World.pendingFiles w) ->
  (forall payload,
     Backend.products_update backend (Product.id p) payload = None) ->
  Backend.variants_delete backend (Product.id p) = None ->
  let w' := handleSubmit parseFloat backend w in
  FormData.variants (World.formData w) = []
  /\ passes_validation (World.formData w) = true
  /\ rows_of (Product.id p) (World.product_variants w') = []
  /\ World.product_variants w'
     = db_delete_variants (Product.id p) (World.product_variants w)
  /\ exists payload before,
       ProductPayload.stock_quantity payload = 0%Z
       /\ World.products w'
          = db_update_product (Product.id p) payload (World.products w)
       /\ issued_since (World.trace w) (World.trace w')
          = before
            ++ [ProductsUpdate (Product.id p) payload;
                VariantsDelete (Product.id p);
                ConsoleLog "Saving variants: 0";
                InvalidateQueries "products" None;
                InvalidateQueries "product-details" (Some (Product.id p));
                ToastSuccess "Product updated" None]
       /\ Forall (fun e => is_db_write e = false) before.
Proof.
  intros Hdraft Hcolors Hed Htruthy Hup Hupdate Hdelete.
  assert (Hvs : FormData.variants (World.formData w) = []).
  { assert (Hsel : colors_selected (World.formData w)).
    { rewrite Hdraft. apply run_updates_colors_selected.
      apply setColors_colors_selected. }
    destruct (FormData.variants (World.formData w)) as [|v vs] eqn:E;
      [reflexivity|].
    destruct (Hsel v) as (c & Hc & _); [rewrite E; now left|].
    rewrite Hcolors in Hc. contradiction. }
  assert (Hvalid : passes_validation (World.formData w) = true).
  { unfold passes_validation. now rewrite Hcolors. }
  cbv zeta. split; [exact Hvs|]. split; [exact Hvalid|].
  unfold handleSubmit. cbv zeta.
  unfold passes_validation in Hvalid. apply negb_true_iff in Hvalid.
  rewrite Hvalid. unfold try_catch, submit_body. rewrite bind_run.
  pose proof (upload_pending_run backend (World.pendingFiles w)
                (FormData.variants (World.formData w)) w) as H.
  destruct (upload_pending backend (World.pendingFiles w)
              (FormData.variants (World.formData w)) w) as [[e|cv] w1].
  - destruct H as (_ & (i & pf & Hn & Hu) & _). elim (Hup i pf Hn Hu).
  - destruct H as (_ & Hmap & _ & Hp & Hv & evs & Ht & Hev).
    assert (Hcv : cv = []).
    { pose proof (@local_copy_length _ _ Hmap) as Hlen.
      rewrite Hvs in Hlen. now destruct cv. }
    subst cv.
    pose proof (persist_run parseFloat backend (World.formData w)
                  (World.editingProduct w) [] w1) as R.
    cbv zeta in R. rewrite Hed in R. unfold write_outcome in R.
    rewrite Hupdate, Htruthy, Hdelete in R. simpl in R.
    destruct R as (Hp' & Hr & Hv' & Ht' & _).
    rewrite Hed.
    destruct (persist parseFloat backend (World.formData w) (Some p) [] w1)
      as [[e|[]] w2]; simpl in *; [discriminate|].
    rewrite Hv', Hv, app_nil_r.
    split; [apply rows_of_deleted|]. split; [reflexivity|].
    exists (productPayload parseFloat (World.formData w) []), evs.
    split; [reflexivity|]. split; [now rewrite Hp', Hp|].
    split; [|exact Hev].
    rewrite Ht', Ht, <- !app_assoc. simpl. apply issued_since_app.
Qed.

End EditFlow.

(* ------------------------------------------------------------------ *)
(** ** At most one flagged variant in the draft *)

Lemma primary_count_app (a b : list Variant.t) :
  primary_count (a ++ b) = primary_count a + primary_count b.
Proof. unfold primary_count. now rewrite filter_app, length_app. Qed.

Lemma primary_count_filter_le (p : Variant.t -> bool) (vs : list Variant.t) :
  primary_count (filter p vs) <= primary_count vs.
Proof.
  unfold primary_count. induction vs as [|v vs IH]; simpl; [lia|].
  destruct (p v), (Variant.is_primary v) eqn:E; simpl; rewrite ?E; simpl; lia.
Qed.

Lemma flag_at_index_at_most_one (g : Variant.t -> bool) (idx : Z)
    (l : list Variant.t) (k : nat) :
  let flagged :=
    mapi_from
      (fun v i => Variant.with_is_primary v (g v && Z.eqb idx (Z.of_nat i)))
      l k in
  ((idx < Z.of_nat k)%Z -> primary_count flagged = 0)
  /\ primary_count flagged <= 1.
Proof.
  cbv zeta. revert k. induction l as [|v l IH]; intros k; simpl.
  - split; [reflexivity | unfold primary_count; simpl; lia].
  - destruct (IH (S k)) as [Hzero Hle].
    unfold primary_count in *. simpl.
    destruct (g v && Z.eqb idx (Z.of_nat k)) eqn:E; simpl.
    + apply andb_true_iff in E. destruct E as [_ E]. apply Z.eqb_eq in E.
      split; [lia|]. rewrite Hzero; lia.
    + split; [|exact Hle]. intros Hlt. apply Hzero. lia.
Qed.

(** After [setPrimaryColor] at most one variant of the draft is flagged. *)
Lemma setPrimaryColor_at_most_one_primary (colorId : string)
    (prev : FormData.t) :
  primary_count (FormData.variants (setPrimaryColor colorId prev)) <= 1.
Proof.
  unfold setPrimaryColor, mapi. simpl.
  apply (flag_at_index_at_most_one
           (fun v => strict_eq (Variant.color_id v) colorId)).
Qed.

Lemma ensure_pairs_primary_count (random36 : nat -> string) (sku : string)
    (pairs : list (ColorItem.t * string)) (vs : list Variant.t) (n : nat) :
  primary_count (fst (ensure_pairs random36 sku pairs (vs, n)))
  = primary_count vs.
Proof.
  destruct (ensure_pairs_appends random36 sku pairs vs n)
    as (news & E & Hall).
  rewrite E. simpl. rewrite primary_count_app.
  assert (Hzero : primary_count news = 0).
  { clear E. unfold primary_count.
    induction Hall as [|v news (c & s & k & _ & Hv & _) _ IH];
      [reflexivity|].
    subst v. simpl. exact IH. }
  lia.
Qed.

(** The color and size updates never add a flag. *)
Lemma setSizes_primary_count_le (random36 : nat -> string)
    (sizes : list string) (st : Draft) :
  primary_count (FormData.variants (fst (setSizes random36 sizes st)))
  <= primary_count (FormData.variants (fst st)).
Proof.
  destruct st as [prev n]. rewrite setSizes_unfold. cbv zeta. simpl.
  rewrite ensure_pairs_primary_count. apply primary_count_filter_le.
Qed.

Lemma setColors_primary_count_le (random36 : nat -> string)
    (colors : list ColorItem.t) (st : Draft) :
  primary_count (FormData.variants (fst (setColors random36 colors st)))
  <= primary_count (FormData.variants (fst st)).
Proof.
  destruct st as [prev n]. rewrite setColors_unfold. cbv zeta. simpl.
  rewrite ensure_pairs_primary_count. apply primary_count_filter_le.
Qed.

Lemma removeVariant_primary_count_le (index : nat) (prev : FormData.t) :
  primary_count (FormData.variants (removeVariant index prev))
  <= primary_count (FormData.variants prev).
Proof.
  unfold removeVariant. simpl. unfold primary_count.
  generalize (FormData.variants prev) as l. revert index.
  induction index as [|k IH]; intros [|v l]; simpl; try lia.
  - destruct (Variant.is_primary v); simpl; lia.
  - specialize (IH l). destruct (Variant.is_primary v); simpl; lia.
Qed.

Lemma updateVariant_primary_count (index : nat) (u : VariantUpdate)
    (prev : FormData.t) :
  primary_count (FormData.variants (updateVariant index u prev))
  = primary_count (FormData.variants prev).
Proof.
  unfold updateVariant. simpl. apply primary_count_ext.
  generalize (FormData.variants prev) as l. revert index.
  induction index as [|k IH]; intros [|v l]; simpl; try reflexivity.
  - now destruct u.
  - now rewrite IH.
Qed.

(* ------------------------------------------------------------------ *)
(** ** The properties on the sample product *)

Lemma sample_draft_full_matrix :
  full_matrix (FormData.colors sample_draft) (FormData.sizes sample_draft)
    (FormData.variants sample_draft).
Proof.
  unfold sample_draft, sample_updates.
  change (run_updates sample_random36 [SetColors [red; blue]; SetSizes ["S"; "M"]]
            (FormData.empty, 0))
    with (run_updates sample_random36 [SetSizes ["S"; "M"]]
            (apply_update sample_random36 (FormData.empty, 0)
               (SetColors [red; blue]))).
  apply run_updates_full_matrix. apply apply_update_full_matrix.
  - intros v [].
  - intros cid size. unfold cell_count. simpl. lia.
Qed.

Lemma matrix_after_updates_on_sample :
  let d' := sample_draft in
  List.length (FormData.variants d') = 4
  /\ full_matrix (FormData.colors d') (FormData.sizes d') (FormData.variants d')
  /\ (FormData.colors d' = [] \/ FormData.sizes d' = [] ->
      FormData.variants d' = []).
Proof.
  split; [reflexivity|].
  apply (@matrix_after_updates sample_random36 sample_updates FormData.empty 0).
  - reflexivity.
  - discriminate.
Defined.

Lemma setSizes_drops_one_size_on_sample :
  map (fun v => (Variant.color_id v, Variant.size v))
    (FormData.variants (fst (setSizes sample_random36 ["S"] (stocked_draft, 4))))
  = [(Some "c-red", "S"); (Some "c-blue", "S")]
  /\ setSizes sample_random36 ["S"] (stocked_draft, 4)
     = (FormData.with_sizes_variants stocked_draft ["S"]
          (filter (fun v => negb (String.eqb (Variant.size v) "M"))
                  (FormData.variants stocked_draft)),
        4).
Proof.
  split; [reflexivity|].
  apply (@setSizes_drops_one_size sample_random36 stocked_draft 4 ["S"] "M").
  - split.
    + intros v Hin. simpl in Hin.
      destruct Hin as [<-|[<-|[<-|[<-|[]]]]]; simpl;
        [exists red | exists blue | exists red | exists blue]; simpl; tauto.
    + intros c s Hc Hs. simpl in Hc, Hs.
      destruct Hc as [<-|[<-|[]]]; destruct Hs as [<-|[<-|[]]]; reflexivity.
  - intros x. simpl. split.
    + intros [<-|[]]. split; [now left | discriminate].
    + intros [[<-|[<-|[]]] Hne]; [now left | now elim Hne].
Defined.

Lemma setColors_adds_one_color_on_sample :
  exists news,
    FormData.variants
      (fst (setColors sample_random36 [red; blue; green] (sample_draft, 4)))
    = FormData.variants sample_draft ++ news
    /\ List.length news = 2
    /\ NoDup (map Variant.size news)
    /\ (forall s, In s (map Variant.size news) <-> In s ["S"; "M"])
    /\ Forall (synthesized "c-green") news.
Proof.
  apply (@setColors_adds_one_color sample_random36 sample_draft 4
           [red; blue; green] green).
  - exact sample_draft_full_matrix.
  - intros c0 Hc0. simpl in Hc0. destruct Hc0 as [<-|[<-|[]]]; discriminate.
  - simpl. intros [H|[H|[]]]; discriminate.
  - intros x. simpl. split.
    + intros [H|[H|[H|[]]]]; auto.
    + intros [[H|[H|[]]]|H]; auto.
Defined.

Lemma setPrimaryColor_first_of_color_on_sample :
  exists v',
    nth_error (FormData.variants (setPrimaryColor "c-blue" sample_draft)) 1
    = Some v'
    /\ Variant.is_primary v' = true.
Proof.
  destruct (setPrimaryColor_first_of_color "c-blue" sample_draft)
    as (_ & Hat & _).
  destruct (Hat 1 (new_variant sample_random36 "" blue "S" 1) eq_refl)
    as (v' & Hnth & _ & Hflag).
  exists v'. split; [exact Hnth|].
  apply Hflag. split; [reflexivity|].
  intros j u Hj Hu. destruct j as [|j]; [|lia].
  simpl in Hu. inversion Hu. discriminate.
Defined.

Lemma uploads_succeed_accepting (pfs : list PendingFile.t) :
  uploads_succeed accepting_backend pfs.
Proof. intros i pf _ H. discriminate H. Qed.

Lemma uploads_succeed_refusing_insert (pfs : list PendingFile.t) :
  uploads_succeed refusing_insert pfs.
Proof. intros i pf _ H. discriminate H. Qed.

Lemma submit_rejects_colors_without_variants_on_sample :
  let w :=
    create_world (fst (setColors sample_random36 [red] (FormData.empty, 0))) in
  let w' := handleSubmit sample_parseFloat accepting_backend w in
  issued_since (World.trace w) (World.trace w')
  = [ToastError "Please add at least one variant for your chosen colors" None]
  /\ World.product_variants w' = old_rows
  /\ World.bucket w' = [].
Proof.
  cbv zeta.
  destruct (@submit_rejects_colors_without_variants sample_parseFloat
              accepting_backend
              (create_world
                 (fst (setColors sample_random36 [red] (FormData.empty, 0)))))
    as (_ & Hissued & _ & _ & _ & _ & _ & Hrows & Hbucket).
  - discriminate.
  - reflexivity.
  - split; [exact Hissued|]. split; [exact Hrows | exact Hbucket].
Defined.


Lemma upload_failure_writes_nothing_on_sample :
  let w := create_world stocked_draft in
  let w' := handleSubmit sample_parseFloat refusing_store w in
  World.products w' = []
  /\ World.product_variants w' = old_rows
  /\ World.formData w' = stocked_draft
  /\ World.isDialogOpen w' = true
  /\ exists evs,
       issued_since (World.trace w) (World.trace w')
       = evs ++ [ToastError "Failed to upload image to Supabase Storage"
                   (Some "upload")]
       /\ Forall (fun e => is_db_write e = false) evs.
Proof.
  apply (@upload_failure_writes_nothing sample_parseFloat refusing_store
           (create_world stocked_draft) 0
           (PendingFile.mk sample_file "blob:front" (Some "c-red")));
    reflexivity.
Defined.

Lemma insert_failure_leaves_no_variants_on_sample :
  let w := edit_world stocked_draft in
  let w' := handleSubmit sample_parseFloat refusing_insert w in
  rows_of "p-1" (World.product_variants w') = []
  /\ World.product_variants w'
     = [VariantRow.mk "p-2" (Some "c-red") "S" "CAP-RED-S" None 1%Z [] true].
Proof.
  cbv zeta.
  destruct (@insert_failure_leaves_no_variants sample_parseFloat
              refusing_insert (edit_world stocked_draft) "p-1" duplicate_sku)
    as (Hnone & Hrows & _).
  - reflexivity.
  - apply uploads_succeed_refusing_insert.
  - split; [reflexivity | intros payload; reflexivity].
  - reflexivity.
  - reflexivity.
  - discriminate.
  - intros rows. reflexivity.
  - split; [exact Hnone | exact Hrows].
Defined.

Lemma clearing_colors_drops_all_variants_on_sample :
  let w := edit_world cleared_draft in
  let w' := handleSubmit sample_parseFloat accepting_backend w in
  FormData.variants (World.formData w) = []
  /\ rows_of "p-1" (World.product_variants w') = []
  /\ exists payload,
       ProductPayload.stock_quantity payload = 0%Z
       /\ World.products w' = [("p-1", payload)].
Proof.
  cbv zeta.
  destruct (@clearing_colors_drops_all_variants sample_random36
              sample_parseFloat accepting_backend (edit_world cleared_draft)
              sample_product (stocked_draft, 4) [] [SetSizes ["S"]])
    as (Hvs & _ & Hnone & _ & payload & before & Hq & Hproducts & _).
  - reflexivity.
  - reflexivity.
  - reflexivity.
  - reflexivity.
  - apply uploads_succeed_accepting.
  - intros payload. reflexivity.
  - reflexivity.
  - split; [exact Hvs|]. split; [exact Hnone|].
    exists payload. split; [exact Hq | exact Hproducts].
Defined.

Lemma save_keeps_a_primary_on_sample :
  let rows :=
    rows_of "p-1"
      (World.product_variants
         (handleSubmit sample_parseFloat accepting_backend
            (edit_world stocked_draft))) in
  List.length rows = 4
  /\ primary_rows rows = 1
  /\ exists r rest,
       rows = r :: rest /\ VariantRow.is_primary r = true
       /\ primary_rows rest = 0.
Proof.
  cbv zeta.
  destruct (@save_keeps_a_primary sample_parseFloat accepting_backend
              (edit_world stocked_draft) "p-1")
    as (Hlen & _ & _ & _ & Hone & Hfirst).
  - reflexivity.
  - apply uploads_succeed_accepting.
  - split; [reflexivity | intros payload; reflexivity].
  - reflexivity.
  - reflexivity.
  - intros rows. reflexivity.
  - split; [exact Hlen|]. split.
    + apply Hone; [discriminate | vm_compute; lia].
    + apply Hfirst; [discriminate | reflexivity].
Defined.

(** A draft with two flagged variants is saved as it is: the save
    completes and the persisted list of the product has two primary
    rows, not one. *)
Lemma two_flagged_variants_are_both_saved :
  let w := edit_world two_flagged_draft in
  let w' := handleSubmit sample_parseFloat accepting_backend w in
  primary_count (FormData.variants (World.formData w)) = 2
  /\ last (World.trace w') (ConsoleLog "")
     = ToastSuccess "Product updated" None
  /\ primary_rows (rows_of "p-1" (World.product_variants w')) = 2
  /\ primary_rows (rows_of "p-1" (World.product_variants w')) <> 1.
Proof.
  cbv zeta. split; [reflexivity|]. split; [reflexivity|].
  split; [reflexivity|]. vm_compute. discriminate.
Qed.


(** A draft loaded from rows whose color was deleted has no color and two
    variants: the validation of step 1 lets it through, and the save
    writes the two rows back and the sum of their stock on the product
    row. *)
Lemma null_colored_variants_are_saved_again :
  let w := orphaned_world in
  let w' := handleSubmit sample_parseFloat accepting_backend w in
  World.editingProduct w = Some sample_product
  /\ FormData.colors (World.formData w) = []
  /\ FormData.variants (World.formData w) <> []
  /\ passes_validation (World.formData w) = true
  /\ last (World.trace w') (ConsoleLog "")
     = ToastSuccess "Product updated" None
  /\ rows_of "p-1" (World.product_variants w') = orphaned_rows
  /\ rows_of "p-1" (World.product_variants w') <> []
  /\ map (fun row => ProductPayload.stock_quantity (snd row))
       (World.products w')
     = [7%Z].
Proof.
  cbv zeta. split; [reflexivity|]. split; [reflexivity|].
  split; [discriminate|]. split; [reflexivity|].
  split; [vm_compute; reflexivity|]. split; [vm_compute; reflexivity|].
  split; [vm_compute; discriminate | vm_compute; reflexivity].
Qed.

(** With an empty color id the color filter of [setColors] drops the
    edited variant and the loop builds it anew: the stock typed in is
    lost. Library colors carry non-empty ids. *)
Example setColors_blank_id_rebuilds :
  map Variant.stock_quantity (FormData.variants blank_id_draft) = [5%Z]
  /\ map Variant.stock_quantity
       (FormData.variants
          (fst (setColors sample_random36
                  [ColorItem.mk "" "Blank" "#000000"; red]
                  (blank_id_draft, 0))))
     = [0%Z; 0%Z].
Proof. split; reflexivity. Qed.

(* ------------------------------------------------------------------ *)
(** ** Shrinking the selection *)

Lemma remove_at_out_of_range (A : Type) (i : nat) (l : list A) :
  List.length l <= i -> remove_at i l = l.
Proof.
  revert i. induction l as [|x l IH]; intros i H.
  - now destruct i.
  - destruct i as [|i]; simpl in *; [lia|]. f_equal. apply IH. lia.
Qed.

Lemma in_remove_at (A : Type) (i : nat) (l : list A) (x : A) :
  In x (remove_at i l) -> In x l.
Proof.
  revert i. induction l as [|y l IH]; intros i H.
  - now destruct i.
  - destruct i as [|i]; simpl in *; [now right|].
    destruct H as [H|H]; [now left | right; eapply IH; eassumption].
Qed.

Lemma in_remove_at_nodup (A : Type) (i : nat) (l : list A) (a x : A) :
  NoDup l -> nth_error l i = Some a ->
  (In x (remove_at i l) <-> In x l /\ x <> a).
Proof.
  revert i. induction l as [|y l IH]; intros i Hnd Hn.
  - destruct i; discriminate.
  - inversion Hnd as [|? ? Hy Hl]; subst. destruct i as [|i]; simpl in *.
    + inversion Hn; subst. split.
      * intros Hx. split; [now right|]. intros ->. contradiction.
      * intros [[<-|Hx] Hne]; [now elim Hne | assumption].
    + rewrite (IH i Hl Hn). split.
      * intros [<-|[Hx Hne]].
        -- split; [now left|]. intros ->. apply Hy.
           eapply nth_error_In. eassumption.
        -- split; [now right | assumption].
      * intros [[<-|Hx] Hne]; [now left | right; tauto].
Qed.

Section Shrinking.

Variable random36 : nat -> string.

(** On a full matrix, a size list drawn from the current sizes only
    filters. *)
Lemma setSizes_shrink (prev : FormData.t) (n : nat) (sizes : list string) :
  full_matrix (FormData.colors prev) (FormData.sizes prev)
    (FormData.variants prev) ->
  (forall x, In x sizes -> In x (FormData.sizes prev)) ->
  setSizes random36 sizes (prev, n)
  = (FormData.with_sizes_variants prev sizes
       (filter (fun v => includes sizes (Variant.size v))
               (FormData.variants prev)),
     n).
Proof.
  intros [Hw Hc] Hsub. rewrite setSizes_unfold. cbv zeta.
  rewrite ensure_pairs_nothing_missing; [reflexivity|].
  intros c x Hp. apply in_size_major in Hp. destruct Hp as [HcC Hx].
  rewrite cell_count_filter_keep.
  - rewrite (Hc c x HcC (Hsub x Hx)). discriminate.
  - intros v _ Hcell. apply same_cell_true in Hcell.
    destruct Hcell as [_ Hsize]. rewrite Hsize. now apply includes_true.
Qed.

(** On a full matrix over non-empty color ids, a color list drawn from
    the current colors only filters. *)
Lemma setColors_shrink (prev : FormData.t) (n : nat)
    (colors : list ColorItem.t) :
  full_matrix (FormData.colors prev) (FormData.sizes prev)
    (FormData.variants prev) ->
  (forall c, In c (FormData.colors prev) -> ColorItem.id c <> "") ->
  (forall c, In c colors ->
     In (ColorItem.id c) (map ColorItem.id (FormData.colors prev))) ->
  setColors random36 colors (prev, n)
  = (FormData.with_colors_variants prev colors
       (filter (color_kept (map ColorItem.id colors))
               (FormData.variants prev)),
     n).
Proof.
  intros [Hw Hc] Hids Hsub. rewrite setColors_unfold. cbv zeta.
  rewrite ensure_pairs_nothing_missing; [reflexivity|].
  intros c x Hp. apply in_color_major in Hp. destruct Hp as [Hcol Hx].
  pose proof (Hsub c Hcol) as Hold. apply in_map_iff in Hold.
  destruct Hold as (c0 & Hid & Hc0).
  rewrite cell_count_filter_keep.
  - rewrite <- Hid, (Hc c0 x Hc0 Hx). discriminate.
  - intros v _ Hcell. apply same_cell_true in Hcell.
    destruct Hcell as [Hcolor _]. apply color_kept_true.
    exists (ColorItem.id c). repeat split.
    + exact Hcolor.
    + rewrite <- Hid. pose proof (Hids c0 Hc0) as Hne.
      destruct (ColorItem.id c0); [now elim Hne | reflexivity].
    + now apply in_map.
Qed.

(** X1. On a full matrix, [setSizes] with any list of sizes that are
    all currently selected (fewer sizes, another order, repeated
    entries) keeps exactly the variants whose size is in the list, as
    they are and in their order, synthesizes nothing, and the result is
    the full matrix of the new selection. *)
Theorem setSizes_subset_only_filters (prev : FormData.t) (n : nat)
    (sizes : list string) :
  full_matrix (FormData.colors prev) (FormData.sizes prev)
    (FormData.variants prev) ->
  (forall x, In x sizes -> In x (FormData.sizes prev)) ->
  let st' := setSizes random36 sizes (prev, n) in
  FormData.variants (fst st')
  = filter (fun v => includes sizes (Variant.size v)) (FormData.variants prev)
  /\ snd st' = n
  /\ full_matrix (FormData.colors (fst st')) (FormData.sizes (fst st'))
       (FormData.variants (fst st')).
Proof.
  intros Hfull Hsub. cbv zeta.
  split; [now rewrite setSizes_shrink|].
  split; [now rewrite setSizes_shrink|].
  apply setSizes_full_matrix.
  - intros v Hin. destruct (proj1 Hfull v Hin) as (c & Hc & Hv & _).
    now exists c.
  - exact (full_matrix_at_most_one Hfull).
Qed.

(** X2. On a full matrix over library colors (non-empty ids),
    [setColors] with any list of colors whose ids are all currently
    selected keeps exactly the variants of those colors, as they are,
    synthesizes nothing, and the result is the full matrix of the new
    selection. *)
Theorem setColors_subset_only_filters (prev : FormData.t) (n : nat)
    (colors : list ColorItem.t) :
  full_matrix (FormData.colors prev) (FormData.sizes prev)
    (FormData.variants prev) ->
  (forall c, In c (FormData.colors prev) -> ColorItem.id c <> "") ->
  (forall c, In c colors ->
     In (ColorItem.id c) (map ColorItem.id (FormData.colors prev))) ->
  let st' := setColors random36 colors (prev, n) in
  FormData.variants (fst st')
  = filter
      (fun v => existsb (fun c => has_color (ColorItem.id c) v) colors)
      (FormData.variants prev)
  /\ snd st' = n
  /\ full_matrix (FormData.colors (fst st')) (FormData.sizes (fst st'))
       (FormData.variants (fst st')).
Proof.
  intros Hfull Hids Hsub. cbv zeta. split; [|split].
  - rewrite setColors_shrink by assumption. simpl.
    apply filter_ext_in. intros v Hin.
    destruct (proj1 Hfull v Hin) as (c0 & Hc0 & Hv & _).
    destruct (existsb (fun c => has_color (ColorItem.id c) v) colors) eqn:E.
    + apply existsb_exists in E. destruct E as (c & Hc & Hhas).
      apply strict_eq_true in Hhas. apply color_kept_true.
      exists (ColorItem.id c). repeat split; [exact Hhas| |now apply in_map].
      assert (ColorItem.id c = ColorItem.id c0) as -> by congruence.
      pose proof (Hids c0 Hc0) as Hne.
      destruct (ColorItem.id c0); [now elim Hne | reflexivity].
    + destruct (color_kept (map ColorItem.id colors) v) eqn:K;
        [|reflexivity].
      apply color_kept_true in K. destruct K as (cid & Hcid & _ & Hin').
      apply in_map_iff in Hin'. destruct Hin' as (c & Hid & Hc).
      assert (Hex : existsb (fun c => has_color (ColorItem.id c) v) colors
                    = true).
      { apply existsb_exists. exists c. split; [exact Hc|].
        apply strict_eq_true. congruence. }
      congruence.
  - now rewrite setColors_shrink.
  - apply setColors_full_matrix.
    + intros v Hin. destruct (proj1 Hfull v Hin) as (c & _ & _ & Hs).
      exact Hs.
    + exact (full_matrix_at_most_one Hfull).
Qed.

(** X3. The remove button of a size tag: on a full matrix whose size
    tags are distinct, removing the tag at [index] deletes exactly the
    variants of that size and leaves the others as they are; an index
    past the last tag changes no variant. *)
Theorem removeSizeTag_drops_that_size (prev : FormData.t) (n index : nat) :
  full_matrix (FormData.colors prev) (FormData.sizes prev)
    (FormData.variants prev) ->
  NoDup (FormData.sizes prev) ->
  FormData.variants (fst (removeSizeTag random36 index (prev, n)))
  = match nth_error (FormData.sizes prev) index with
    | Some s =>
        filter (fun v => negb (String.eqb (Variant.size v) s))
               (FormData.variants prev)
    | None => FormData.variants prev
    end.
Proof.
  intros Hfull Hnd. unfold removeSizeTag.
  change (fst (prev, n)) with prev.
  rewrite setSizes_shrink; [|exact Hfull|intros x; apply in_remove_at].
  simpl.
  destruct (nth_error (FormData.sizes prev) index) as [s|] eqn:Hn.
  - apply filter_ext_in. intros v Hin.
    destruct (proj1 Hfull v Hin) as (c & _ & _ & HsS).
    destruct (String.eqb (Variant.size v) s) eqn:E; simpl.
    + apply String.eqb_eq in E.
      destruct (includes (remove_at index (FormData.sizes prev))
                  (Variant.size v)) eqn:I; [|reflexivity].
      apply includes_true in I.
      apply (@in_remove_at_nodup _ _ _ _ _ Hnd Hn) in I. tauto.
    + apply String.eqb_neq in E. apply includes_true.
      apply (@in_remove_at_nodup _ _ _ _ _ Hnd Hn). tauto.
  - apply nth_error_None in Hn. rewrite remove_at_out_of_range by exact Hn.
    apply filter_all. intros v Hin.
    destruct (proj1 Hfull v Hin) as (c & _ & _ & HsS).
    now apply includes_true.
Qed.

(** X4. The remove button of a color badge: on a full matrix over
    library colors with distinct, non-empty ids, removing the badge at
    [index] deletes exactly the variants of that color and leaves the
    others as they are. *)
Theorem removeColorAt_drops_that_color (prev : FormData.t) (n index : nat)
    (c : ColorItem.t) :
  full_matrix (FormData.colors prev) (FormData.sizes prev)
    (FormData.variants prev) ->
  (forall c0, In c0 (FormData.colors prev) -> ColorItem.id c0 <> "") ->
  NoDup (map ColorItem.id (FormData.colors prev)) ->
  nth_error (FormData.colors prev) index = Some c ->
  removeColorAt random36 index (prev, n)
  = (FormData.with_colors_variants prev
       (remove_at index (FormData.colors prev))
       (filter (fun v => negb (has_color (ColorItem.id c) v))
               (FormData.variants prev)),
     n).
Proof.
  intros Hfull Hids Hnd Hn. unfold removeColorAt.
  change (fst (prev, n)) with prev.
  rewrite setColors_shrink;
    [|exact Hfull|exact Hids
     |intros c0 Hc0; apply in_map; eapply in_remove_at; exact Hc0].
  f_equal. f_equal.
  assert (Hmap : forall l i,
            map ColorItem.id (remove_at i l)
            = remove_at i (map ColorItem.id l)).
  { induction l as [|y l IH]; intros [|i]; simpl; try reflexivity.
    now rewrite IH. }
  assert (Hn' : nth_error (map ColorItem.id (FormData.colors prev)) index
                = Some (ColorItem.id c)).
  { rewrite nth_error_map, Hn. reflexivity. }
  apply filter_ext_in. intros v Hin.
  destruct (proj1 Hfull v Hin) as (c0 & Hc0 & Hv & _).
  unfold has_color.
  destruct (strict_eq (Variant.color_id v) (ColorItem.id c)) eqn:E; simpl.
  - apply strict_eq_true in E.
    destruct (color_kept (map ColorItem.id
                            (remove_at index (FormData.colors prev))) v)
      eqn:K; [|reflexivity].
    apply color_kept_true in K. destruct K as (cid & Hcid & _ & Hin').
    rewrite Hmap in Hin'. apply (@in_remove_at_nodup _ _ _ _ _ Hnd Hn') in Hin'.
    destruct Hin' as [_ Hne]. congruence.
  - apply color_kept_true. exists (ColorItem.id c0). repeat split.
    + exact Hv.
    + pose proof (Hids c0 Hc0) as Hne.
      destruct (ColorItem.id c0); [now elim Hne | reflexivity].
    + rewrite Hmap. apply (@in_remove_at_nodup _ _ _ _ _ Hnd Hn'). split.
      * now apply in_map.
      * intros Heq. rewrite <- Heq in E.
        assert (strict_eq (Variant.color_id v) (ColorItem.id c0) = true)
          by now apply strict_eq_true.
        congruence.
Qed.

End Shrinking.

(* ------------------------------------------------------------------ *)
(** ** Counting the matrix and growing the size set *)

Lemma nodup_map_injective (A B : Type) (f : A -> B) (l : list A) :
  (forall x y, f x = f y -> x = y) -> NoDup l -> NoDup (map f l).
Proof.
  intros Hinj. induction 1 as [|x l Hx Hl IH]; simpl; constructor.
  - rewrite in_map_iff. intros (y & E & Hy). apply Hinj in E. now subst.
  - exact IH.
Qed.

Lemma nodup_list_prod (A B : Type) (a : list A) (b : list B) :
  NoDup a -> NoDup b -> NoDup (list_prod a b).
Proof.
  intros Ha Hb. induction Ha as [|x a Hx Ha IH]; simpl; [constructor|].
  apply NoDup_app.
  - apply nodup_map_injective; [|exact Hb]. intros y z E. now inversion E.
  - exact IH.
  - intros [x' y] Hin Hin'. apply in_map_iff in Hin.
    destruct Hin as (z & E & _). inversion E; subst.
    apply in_prod_iff in Hin'. tauto.
Qed.

Lemma cells_nodup (l : list Variant.t) :
  (forall v, In v l -> exists cid, Variant.color_id v = Some cid) ->
  at_most_one_per_cell l ->
  NoDup (map (fun v => (Variant.color_id v, Variant.size v)) l).
Proof.
  induction l as [|v l IH]; intros Hcol Hcnt; simpl; constructor.
  - intros Hin. apply in_map_iff in Hin. destruct Hin as (u & E & Hu).
    inversion E as [[Hc Hs]].
    destruct (Hcol v (or_introl eq_refl)) as (cid & Hv).
    pose proof (Hcnt cid (Variant.size v)) as H.
    change (v :: l) with ([v] ++ l) in H. rewrite cell_count_app in H.
    assert (H1 : cell_count cid (Variant.size v) [v] = 1).
    { unfold cell_count. simpl.
      assert (same_cell cid (Variant.size v) v = true) as ->
        by now apply same_cell_true.
      reflexivity. }
    assert (H2 : cell_count cid (Variant.size v) l <> 0).
    { apply cell_count_pos. exists u. repeat split; congruence. }
    lia.
  - apply IH.
    + intros u Hu. apply Hcol. now right.
    + intros cid s. pose proof (Hcnt cid s) as H.
      change (v :: l) with ([v] ++ l) in H. rewrite cell_count_app in H. lia.
Qed.

(** A full matrix holds as many variants as there are distinct color ids
    times distinct sizes. *)
Lemma full_matrix_length (C : list ColorItem.t) (S : list string)
    (vs : list Variant.t) :
  full_matrix C S vs ->
  List.length vs
  = List.length (nodup string_dec (map ColorItem.id C))
    * List.length (nodup string_dec S).
Proof.
  intros Hfull. pose proof Hfull as [Hw Hc].
  rewrite <- length_prod.
  rewrite <- (length_map (fun v => (Variant.color_id v, Variant.size v)) vs).
  rewrite <- (length_map (fun p : string * string => (Some (fst p), snd p))
                (list_prod _ _)).
  apply Permutation_length. apply NoDup_Permutation.
  - apply cells_nodup.
    + intros v Hin. destruct (Hw v Hin) as (c & _ & Hv & _). eauto.
    + exact (full_matrix_at_most_one Hfull).
  - apply nodup_map_injective.
    + intros [a b] [a' b'] E. simpl in E. now inversion E.
    + apply nodup_list_prod; apply NoDup_nodup.
  - intros [k s]. rewrite !in_map_iff. split.
    + intros (v & E & Hin). inversion E; subst.
      destruct (Hw v Hin) as (c & HcC & Hv & Hs).
      exists (ColorItem.id c, Variant.size v). split.
      * simpl. now rewrite Hv.
      * apply in_prod_iff. rewrite !nodup_In. split; [|exact Hs].
        now apply in_map.
    + intros ([i s'] & E & Hin). simpl in E. inversion E; subst.
      apply in_prod_iff in Hin. rewrite !nodup_In in Hin.
      destruct Hin as [Hi Hs]. apply in_map_iff in Hi.
      destruct Hi as (c & Hid & HcC). subst i.
      assert (Hne : cell_count (ColorItem.id c) s vs <> 0)
        by (rewrite (Hc c s HcC Hs); discriminate).
      apply cell_count_pos in Hne. destruct Hne as (v & Hv & Hcol & Hsz).
      exists v. split; [|exact Hv]. now rewrite Hcol, Hsz.
Qed.

(** X5. The number of variants after a color or size update: on a draft
    without duplicate cells and without variants outside the selection,
    [setColors] or [setSizes] leaves as many variants as there are
    distinct selected color ids times distinct selected sizes; repeated
    entries in the new list add nothing. *)
Theorem variant_count_after_update (random36 : nat -> string) (u : Update)
    (d : FormData.t) (n : nat) :
  within_selection (FormData.colors d) (FormData.sizes d)
    (FormData.variants d) ->
  at_most_one_per_cell (FormData.variants d) ->
  let d' := fst (apply_update random36 (d, n) u) in
  List.length (FormData.variants d')
  = List.length (nodup string_dec (map ColorItem.id (FormData.colors d')))
    * List.length (nodup string_dec (FormData.sizes d')).
Proof.
  intros Hw Hu. cbv zeta.
  exact (@full_matrix_length _ _ _
           (@apply_update_full_matrix random36 u d n Hw Hu)).
Qed.

Section Growing.

Variable random36 : nat -> string.

Lemma one_size_colors_nodup (s : string) (l : list Variant.t) :
  (forall v, In v l ->
     Variant.size v = s /\ exists cid, Variant.color_id v = Some cid) ->
  (forall cid, cell_count cid s l <= 1) ->
  NoDup (map Variant.color_id l).
Proof.
  intros Hall Hcnt.
  assert (Hcells :
    NoDup (map (fun v => (Variant.color_id v, Variant.size v)) l)).
  { apply cells_nodup.
    - intros v Hin. exact (proj2 (Hall v Hin)).
    - intros cid x. destruct (Nat.eq_dec (cell_count cid x l) 0) as [Z|Z];
        [lia|].
      apply cell_count_pos in Z. destruct Z as (v & Hin & _ & Hx).
      destruct (Hall v Hin) as [Hs _].
      assert (x = s) as -> by congruence. apply Hcnt. }
  clear Hcnt. induction l as [|v l IH]; simpl in *; constructor.
  - inversion Hcells as [|? ? Hv _]; subst. intros Hin. apply Hv.
    apply in_map_iff in Hin. destruct Hin as (u & E & Hu).
    apply in_map_iff. exists u. split; [|exact Hu].
    destruct (Hall u (or_intror Hu)) as [Hsu _].
    destruct (Hall v (or_introl eq_refl)) as [Hsv _].
    now rewrite E, Hsu, Hsv.
  - apply IH.
    + intros u Hu. apply Hall. now right.
    + now inversion Hcells.
Qed.

(** X6. On a full matrix, [setSizes] with one more size [s] keeps the
    existing list as it is and appends one synthesized variant of size
    [s] per selected color id (stock 0, no price override, no image,
    flag off). *)
Theorem setSizes_adds_one_size (prev : FormData.t) (n : nat)
    (sizes : list string) (s : string) :
  full_matrix (FormData.colors prev) (FormData.sizes prev)
    (FormData.variants prev) ->
  ~ In s (FormData.sizes prev) ->
  (forall x, In x sizes <-> In x (FormData.sizes prev) \/ x = s) ->
  exists news,
    FormData.variants (fst (setSizes random36 sizes (prev, n)))
    = FormData.variants prev ++ news
    /\ List.length news
       = List.length
           (nodup string_dec (map ColorItem.id (FormData.colors prev)))
    /\ NoDup (map Variant.color_id news)
    /\ (forall cid, In (Some cid) (map Variant.color_id news)
                    <-> In cid (map ColorItem.id (FormData.colors prev)))
    /\ Forall (fun v => Variant.size v = s
                        /\ exists cid, synthesized cid v) news.
Proof.
  intros Hfull Hnew Hsizes. rewrite setSizes_unfold. cbv zeta.
  pose proof Hfull as [Hw Hc].
  assert (Hkept : filter (fun v => includes sizes (Variant.size v))
                    (FormData.variants prev) = FormData.variants prev).
  { apply filter_all. intros v Hin.
    destruct (Hw v Hin) as (c0 & _ & _ & Hs).
    apply includes_true, Hsizes. now left. }
  rewrite Hkept.
  set (pairs := size_major sizes (FormData.colors prev)).
  destruct (ensure_pairs_appends random36 (FormData.sku prev) pairs
              (FormData.variants prev) n) as (news & E & Hall).
  pose proof (ensure_pairs_count random36 (FormData.sku prev)) as Hcount.
  exists news. simpl. rewrite E. simpl.
  assert (Hnews : forall v, In v news ->
            Variant.size v = s
            /\ exists c, In c (FormData.colors prev)
                         /\ synthesized (ColorItem.id c) v).
  { rewrite Forall_forall in Hall. intros v Hin.
    destruct (Hall v Hin) as (c1 & s1 & k & Hp & Hv & Hz).
    apply in_size_major in Hp. destruct Hp as [Hc1 Hs1].
    apply Hsizes in Hs1. destruct Hs1 as [Hold|Hs1].
    - rewrite (Hc c1 s1 Hc1 Hold) in Hz. discriminate.
    - subst v s1. split; [reflexivity|]. exists c1. split; [exact Hc1|].
      apply synthesized_new_variant. }
  assert (Hzero : forall cid, cell_count cid s (FormData.variants prev) = 0).
  { intros cid.
    destruct (Nat.eq_dec (cell_count cid s (FormData.variants prev)) 0)
      as [Z|Z]; [exact Z|].
    apply cell_count_pos in Z. destruct Z as (v & Hin & _ & Hs).
    destruct (Hw v Hin) as (c0 & _ & _ & HsS). elim Hnew. congruence. }
  assert (Hcell : forall cid, cell_count cid s news
                              = if has_pair cid s pairs then 1 else 0).
  { intros cid.
    pose proof (Hcount cid s pairs (FormData.variants prev) n) as H.
    rewrite E in H. simpl in H. rewrite cell_count_app, Hzero in H.
    simpl in H. exact H. }
  assert (Hpair : forall c, In c (FormData.colors prev) ->
                            has_pair (ColorItem.id c) s pairs = true).
  { intros c Hcol. apply has_pair_true. exists c. split; [|reflexivity].
    apply in_size_major. split; [exact Hcol|]. apply Hsizes. now right. }
  assert (Hnodup : NoDup (map Variant.color_id news)).
  { apply one_size_colors_nodup with (s := s).
    - intros v Hin. destruct (Hnews v Hin) as (Hs & c & _ & Hsyn).
      split; [exact Hs|]. exists (ColorItem.id c). exact (proj1 Hsyn).
    - intros cid. rewrite Hcell. destruct (has_pair cid s pairs); lia. }
  assert (Hmem : forall cid, In (Some cid) (map Variant.color_id news)
                  <-> In cid (map ColorItem.id (FormData.colors prev))).
  { intros cid. split.
    - intros Hin. apply in_map_iff in Hin. destruct Hin as (v & Hv & Hin).
      destruct (Hnews v Hin) as (_ & c & Hcol & Hsyn).
      assert (cid = ColorItem.id c) as ->
        by (destruct Hsyn as [Hcv _]; congruence).
      now apply in_map.
    - intros Hin. apply in_map_iff in Hin. destruct Hin as (c & <- & Hcol).
      assert (Hne : cell_count (ColorItem.id c) s news <> 0)
        by (rewrite Hcell, (Hpair c Hcol); discriminate).
      apply cell_count_pos in Hne. destruct Hne as (v & Hin & Hv & _).
      apply in_map_iff. now exists v. }
  split; [reflexivity|]. split; [|split; [exact Hnodup|split; [exact Hmem|]]].
  - rewrite <- (length_map Variant.color_id news).
    rewrite <- (length_map (@Some string) (nodup _ _)).
    apply Permutation_length. apply NoDup_Permutation.
    + exact Hnodup.
    + apply nodup_map_injective; [|apply NoDup_nodup].
      intros x y H. now inversion H.
    + intros [cid|].
      * rewrite Hmem. split.
        -- intros Hin. apply in_map. now apply nodup_In.
        -- intros Hin. apply in_map_iff in Hin.
           destruct Hin as (x & Ex & Hin). inversion Ex; subst.
           now apply nodup_In in Hin.
      * split.
        -- intros Hin. apply in_map_iff in Hin.
           destruct Hin as (v & Hv & Hin).
           destruct (Hnews v Hin) as (_ & c & _ & Hsyn).
           destruct Hsyn as [Hcv _]. congruence.
        -- intros Hin. apply in_map_iff in Hin.
           destruct Hin as (x & Ex & _). discriminate.
  - apply Forall_forall. intros v Hin.
    destruct (Hnews v Hin) as (Hs & c & _ & Hsyn).
    split; [exact Hs|]. now exists (ColorItem.id c).
Qed.

End Growing.

(* ------------------------------------------------------------------ *)
(** ** Row edits and the matrix *)

Lemma length_remove_at (A : Type) (i : nat) (l : list A) (a : A) :
  nth_error l i = Some a -> S (List.length (remove_at i l)) = List.length l.
Proof.
  revert i. induction l as [|x l IH]; intros i H.
  - destruct i; discriminate.
  - destruct i as [|i]; simpl in *; [reflexivity|]. f_equal. now apply IH.
Qed.

Lemma cell_count_remove_at (cid size : string) (i : nat)
    (l : list Variant.t) (v : Variant.t) :
  nth_error l i = Some v ->
  cell_count cid size (remove_at i l)
  + (if same_cell cid size v then 1 else 0)
  = cell_count cid size l.
Proof.
  unfold cell_count. revert i. induction l as [|x l IH]; intros i H.
  - destruct i; discriminate.
  - destruct i as [|i]; simpl in *.
    + inversion H; subst. destruct (same_cell cid size v); simpl; lia.
    + specialize (IH i H). destruct (same_cell cid size x); simpl; lia.
Qed.

Lemma cell_count_update_at (cid size : string) (i : nat) (u : VariantUpdate)
    (l : list Variant.t) (v : Variant.t) :
  nth_error l i = Some v ->
  cell_count cid size (update_at i u l)
  + (if same_cell cid size v then 1 else 0)
  = cell_count cid size l
    + (if same_cell cid size (apply_updates v u) then 1 else 0).
Proof.
  unfold cell_count. revert i. induction l as [|x l IH]; intros i H.
  - destruct i; discriminate.
  - destruct i as [|i]; simpl in *.
    + inversion H; subst.
      destruct (same_cell cid size v),
        (same_cell cid size (apply_updates v u)); simpl; lia.
    + specialize (IH i H). destruct (same_cell cid size x); simpl; lia.
Qed.

Lemma cell_count_all_in_cell (cid size : string) (l : list Variant.t) :
  (forall v, In v l -> same_cell cid size v = true) ->
  cell_count cid size l = List.length l.
Proof.
  intros H. unfold cell_count. now rewrite filter_all.
Qed.

(** Cells only look at color and size. *)
Lemma cell_count_keys (cid size : string) (a b : list Variant.t) :
  map (fun v => (Variant.color_id v, Variant.size v)) a
  = map (fun v => (Variant.color_id v, Variant.size v)) b ->
  cell_count cid size a = cell_count cid size b.
Proof.
  unfold cell_count. revert b.
  induction a as [|x a IH]; intros [|y b] H; simpl in *; try discriminate;
    [reflexivity|].
  inversion H as [[Hc Hs Hrest]].
  assert (same_cell cid size x = same_cell cid size y) as ->
    by (unfold same_cell; now rewrite Hc, Hs).
  destruct (same_cell cid size y); simpl; [f_equal|]; now apply IH.
Qed.

Lemma full_matrix_keys (C : list ColorItem.t) (S : list string)
    (a b : list Variant.t) :
  map (fun v => (Variant.color_id v, Variant.size v)) a
  = map (fun v => (Variant.color_id v, Variant.size v)) b ->
  full_matrix C S a -> full_matrix C S b.
Proof.
  intros Hkeys [Hw Hc]. split.
  - intros v Hin.
    assert (Hk : In (Variant.color_id v, Variant.size v)
                    (map (fun v => (Variant.color_id v, Variant.size v)) a)).
    { rewrite Hkeys. now apply (in_map (fun v => (Variant.color_id v, Variant.size v))). }
    apply in_map_iff in Hk. destruct Hk as (u & E & Hu). inversion E as [[Ec Es]].
    destruct (Hw u Hu) as (c & HcC & Hcol & Hs). exists c.
    split; [exact HcC|]. split; [congruence|].
    replace (Variant.size v) with (Variant.size u) by congruence. exact Hs.
  - intros c s HcC Hs. rewrite <- (@cell_count_keys _ _ _ _ Hkeys). now apply Hc.
Qed.

Lemma update_at_keys (i : nat) (u : VariantUpdate) (l : list Variant.t) :
  (forall s, u <> UpdSize s) ->
  map (fun v => (Variant.color_id v, Variant.size v)) (update_at i u l)
  = map (fun v => (Variant.color_id v, Variant.size v)) l.
Proof.
  intros Hu. revert i. induction l as [|x l IH]; intros i.
  - now destruct i.
  - destruct i as [|i]; simpl.
    + f_equal. destruct u; simpl; try reflexivity. now elim (Hu val).
    + f_equal. apply IH.
Qed.

Lemma removeColorImage_keys (colorId url : string) (prev : FormData.t) :
  map (fun v => (Variant.color_id v, Variant.size v))
      (FormData.variants (removeColorImage colorId url prev))
  = map (fun v => (Variant.color_id v, Variant.size v))
        (FormData.variants prev).
Proof.
  unfold removeColorImage. simpl. rewrite map_map. apply map_ext.
  intros v. now destruct (strict_eq (Variant.color_id v) colorId).
Qed.

Lemma mapi_from_keys (f : Variant.t -> nat -> bool) (l : list Variant.t)
    (k : nat) :
  map (fun v => (Variant.color_id v, Variant.size v))
      (mapi_from (fun v i => Variant.with_is_primary v (f v i)) l k)
  = map (fun v => (Variant.color_id v, Variant.size v)) l.
Proof.
  revert k. induction l as [|x l IH]; intros k; simpl; [reflexivity|].
  f_equal. apply IH.
Qed.

Lemma setPrimaryColor_keys (colorId : string) (prev : FormData.t) :
  map (fun v => (Variant.color_id v, Variant.size v))
      (FormData.variants (setPrimaryColor colorId prev))
  = map (fun v => (Variant.color_id v, Variant.size v))
        (FormData.variants prev).
Proof.
  unfold setPrimaryColor, mapi. simpl.
  apply (mapi_from_keys
           (fun v i =>
              strict_eq (Variant.color_id v) colorId
              && Z.eqb (findIndex
                          (fun varnt => strict_eq (Variant.color_id varnt) colorId)
                          (FormData.variants prev))
                       (Z.of_nat i))).
Qed.

Section RowEdits.

Variable random36 : nat -> string.

(** X7. Removing a variant row does not last: on a full matrix the
    removed cell is empty afterwards, but every following color or size
    update restores the full matrix, and re-applying the current sizes
    appends a freshly synthesized variant (stock 0, no price, no image)
    for exactly that cell. *)
Theorem removeVariant_cell_comes_back (prev : FormData.t) (n i : nat)
    (v : Variant.t) (cid : string) :
  full_matrix (FormData.colors prev) (FormData.sizes prev)
    (FormData.variants prev) ->
  nth_error (FormData.variants prev) i = Some v ->
  Variant.color_id v = Some cid ->
  let d1 := removeVariant i prev in
  S (List.length (FormData.variants d1)) = List.length (FormData.variants prev)
  /\ cell_count cid (Variant.size v) (FormData.variants d1) = 0
  /\ (forall u,
        let d2 := fst (apply_update random36 (d1, n) u) in
        full_matrix (FormData.colors d2) (FormData.sizes d2)
          (FormData.variants d2))
  /\ exists nv,
       FormData.variants
         (fst (setSizes random36 (FormData.sizes prev) (d1, n)))
       = FormData.variants d1 ++ [nv]
       /\ Variant.size nv = Variant.size v
       /\ synthesized cid nv.
Proof.
  intros Hfull Hn Hcid. cbv zeta. pose proof Hfull as [Hw Hc].
  set (vs := FormData.variants prev) in *.
  assert (Hcnt : forall c s,
            cell_count c s (remove_at i vs)
            + (if same_cell c s v then 1 else 0) = cell_count c s vs)
    by (intros c s; now apply cell_count_remove_at).
  assert (Hw1 : within_selection (FormData.colors prev) (FormData.sizes prev)
                  (remove_at i vs)).
  { intros u Hu. apply Hw. eapply in_remove_at. exact Hu. }
  assert (Hu1 : at_most_one_per_cell (remove_at i vs)).
  { intros c s. pose proof (full_matrix_at_most_one Hfull c s) as H.
    fold vs in H. specialize (Hcnt c s). lia. }
  assert (Hself : same_cell cid (Variant.size v) v = true)
    by now apply same_cell_true.
  destruct (Hw v (nth_error_In _ _ Hn)) as (c0 & Hc0 & Hv0 & Hs0).
  assert (cid = ColorItem.id c0) by congruence. subst cid.
  assert (Hzero : cell_count (ColorItem.id c0) (Variant.size v)
                    (remove_at i vs) = 0).
  { specialize (Hcnt (ColorItem.id c0) (Variant.size v)).
    rewrite Hself, (Hc c0 _ Hc0 Hs0) in Hcnt. lia. }
  split; [exact (length_remove_at _ _ Hn)|]. split; [exact Hzero|]. split.
  - intros u. apply apply_update_full_matrix; assumption.
  - rewrite setSizes_unfold. cbv zeta.
    change (FormData.variants (removeVariant i prev)) with (remove_at i vs).
    change (FormData.colors (removeVariant i prev))
      with (FormData.colors prev).
    change (FormData.sku (removeVariant i prev)) with (FormData.sku prev).
    rewrite (filter_all (fun v0 => includes (FormData.sizes prev) (Variant.size v0))).
    2:{ intros u Hu. destruct (Hw1 u Hu) as (c & _ & _ & Hs).
        now apply includes_true. }
    set (pairs := size_major (FormData.sizes prev) (FormData.colors prev)).
    destruct (ensure_pairs_appends random36 (FormData.sku prev) pairs
                (remove_at i vs) n) as (news & E & Hall).
    pose proof (ensure_pairs_count random36 (FormData.sku prev)
                  (ColorItem.id c0) (Variant.size v) pairs (remove_at i vs) n)
      as Hcount.
    rewrite E in *. simpl in *. rewrite cell_count_app, Hzero in Hcount.
    assert (Hp : has_pair (ColorItem.id c0) (Variant.size v) pairs = true).
    { apply has_pair_true. exists c0. split; [|reflexivity].
      apply in_size_major. tauto. }
    rewrite Hp in Hcount. simpl in Hcount.
    assert (Hnews : forall u, In u news ->
              same_cell (ColorItem.id c0) (Variant.size v) u = true
              /\ synthesized (ColorItem.id c0) u).
    { rewrite Forall_forall in Hall. intros u Hu.
      destruct (Hall u Hu) as (c1 & s1 & k & Hp1 & Hu1' & Hz).
      apply in_size_major in Hp1. destruct Hp1 as [Hc1 Hs1].
      specialize (Hcnt (ColorItem.id c1) s1).
      rewrite Hz, (Hc c1 s1 Hc1 Hs1) in Hcnt.
      destruct (same_cell (ColorItem.id c1) s1 v) eqn:Ecell; [|discriminate].
      apply same_cell_true in Ecell. destruct Ecell as [Ec Es].
      assert (ColorItem.id c1 = ColorItem.id c0) as Hid by congruence.
      subst u s1. rewrite <- Hid. split.
      - apply same_cell_true. split; reflexivity.
      - apply synthesized_new_variant. }
    rewrite cell_count_all_in_cell in Hcount
      by (intros u Hu; exact (proj1 (Hnews u Hu))).
    destruct news as [|nv [|nv' news]]; simpl in Hcount; try discriminate.
    exists nv. split; [reflexivity|].
    destruct (Hnews nv (or_introl eq_refl)) as [Hcell Hsyn].
    apply same_cell_true in Hcell. tauto.
Qed.

End RowEdits.

(** X8. Changing the size of a row through its select breaks the
    matrix: on a full matrix, moving a variant to another selected size
    leaves its old cell empty and puts two variants in the new one. *)
Theorem updateVariant_size_duplicates_cell (prev : FormData.t) (i : nat)
    (v : Variant.t) (cid val : string) :
  full_matrix (FormData.colors prev) (FormData.sizes prev)
    (FormData.variants prev) ->
  nth_error (FormData.variants prev) i = Some v ->
  Variant.color_id v = Some cid ->
  In val (FormData.sizes prev) ->
  val <> Variant.size v ->
  let vs' := FormData.variants (updateVariant i (UpdSize val) prev) in
  cell_count cid (Variant.size v) vs' = 0
  /\ cell_count cid val vs' = 2
  /\ List.length vs' = List.length (FormData.variants prev).
Proof.
  intros Hfull Hn Hcid Hval Hne. cbv zeta. pose proof Hfull as [Hw Hc].
  destruct (Hw v (nth_error_In _ _ Hn)) as (c0 & Hc0 & Hv0 & Hs0).
  assert (cid = ColorItem.id c0) by congruence. subst cid.
  unfold updateVariant. simpl.
  assert (Hold : same_cell (ColorItem.id c0) (Variant.size v) v = true)
    by now apply same_cell_true.
  assert (Hold' : same_cell (ColorItem.id c0) (Variant.size v)
                    (apply_updates v (UpdSize val)) = false).
  { apply not_true_is_false. intros H. apply same_cell_true in H.
    simpl in H. tauto. }
  assert (Hnew : same_cell (ColorItem.id c0) val v = false).
  { apply not_true_is_false. intros H. apply same_cell_true in H.
    destruct H as [_ H]. congruence. }
  assert (Hnew' : same_cell (ColorItem.id c0) val
                    (apply_updates v (UpdSize val)) = true).
  { apply same_cell_true. simpl. tauto. }
  pose proof (cell_count_update_at (ColorItem.id c0) (Variant.size v) i
                (UpdSize val) _ Hn) as H1.
  pose proof (cell_count_update_at (ColorItem.id c0) val i
                (UpdSize val) _ Hn) as H2.
  rewrite Hold, Hold', (Hc c0 _ Hc0 Hs0) in H1.
  rewrite Hnew, Hnew', (Hc c0 _ Hc0 Hval) in H2.
  split; [lia|]. split; [lia|].
  clear. generalize (FormData.variants prev) as l. revert i.
  induction i as [|i IH]; intros [|x l]; simpl; try reflexivity.
  now rewrite IH.
Qed.

(* ------------------------------------------------------------------ *)
(** ** Invariants of the draft under every reducer *)

Lemma removeColorImage_primary_count (colorId url : string)
    (prev : FormData.t) :
  primary_count (FormData.variants (removeColorImage colorId url prev))
  = primary_count (FormData.variants prev).
Proof.
  apply primary_count_ext. unfold removeColorImage. simpl.
  rewrite map_map. apply map_ext. intros v.
  now destruct (strict_eq (Variant.color_id v) colorId).
Qed.

Section DraftInvariants.

Variable random36 : nat -> string.

Lemma apply_op_keeps_full_matrix (op : DraftOp) (st : Draft) :
  keeps_cells op = true ->
  full_matrix (FormData.colors (fst st)) (FormData.sizes (fst st))
    (FormData.variants (fst st)) ->
  let d' := fst (apply_op random36 st op) in
  full_matrix (FormData.colors d') (FormData.sizes d') (FormData.variants d').
Proof.
  destruct st as [d n]. intros Hop Hfull. cbv zeta.
  destruct op as [cs|ss|i u|i|c url|c]; simpl in Hop; try discriminate.
  - apply setColors_full_matrix.
    + intros v Hin. destruct (proj1 Hfull v Hin) as (c & _ & _ & Hs).
      exact Hs.
    + exact (full_matrix_at_most_one Hfull).
  - apply setSizes_full_matrix.
    + intros v Hin. destruct (proj1 Hfull v Hin) as (c & Hc & Hv & _).
      now exists c.
    + exact (full_matrix_at_most_one Hfull).
  - simpl. eapply full_matrix_keys; [|exact Hfull].
    symmetry. apply update_at_keys. intros s ->. discriminate.
  - simpl. eapply full_matrix_keys; [|exact Hfull].
    symmetry. apply removeColorImage_keys.
  - simpl. eapply full_matrix_keys; [|exact Hfull].
    symmetry. apply setPrimaryColor_keys.
Qed.

(** X9. A full matrix stays full under every sequence of reducers that
    contains no row removal and no size change of a row, and whose row
    edits each address a row rendered at that moment: color and size
    updates, stock, SKU and price edits, image removals and primary
    selections. *)
Theorem run_ops_keeps_full_matrix (ops : list DraftOp) (st : Draft) :
  forallb keeps_cells ops = true ->
  ops_in_range random36 ops st = true ->
  full_matrix (FormData.colors (fst st)) (FormData.sizes (fst st))
    (FormData.variants (fst st)) ->
  let d' := fst (run_ops random36 ops st) in
  full_matrix (FormData.colors d') (FormData.sizes d') (FormData.variants d').
Proof.
  unfold run_ops. revert st.
  induction ops as [|op ops IH]; intros st Hops Hrange Hfull;
    cbn [fold_left forallb ops_in_range] in *; [exact Hfull|].
  apply andb_true_iff in Hops. destruct Hops as [Hop Hops].
  apply andb_true_iff in Hrange. destruct Hrange as [_ Hrange].
  apply IH; [exact Hops | exact Hrange|].
  now apply apply_op_keeps_full_matrix.
Qed.

Lemma apply_op_primary_count (op : DraftOp) (st : Draft) :
  primary_count (FormData.variants (fst st)) <= 1 ->
  primary_count (FormData.variants (fst (apply_op random36 st op))) <= 1.
Proof.
  intros H. destruct op as [cs|ss|i u|i|c url|c]; cbn [apply_op fst].
  - eapply Nat.le_trans; [apply setColors_primary_count_le | exact H].
  - eapply Nat.le_trans; [apply setSizes_primary_count_le | exact H].
  - now rewrite updateVariant_primary_count.
  - eapply Nat.le_trans; [apply removeVariant_primary_count_le | exact H].
  - now rewrite removeColorImage_primary_count.
  - apply setPrimaryColor_at_most_one_primary.
Qed.

(** X10. No reducer of the dialog adds a second primary flag: a draft
    with at most one flagged variant keeps at most one under every
    sequence of reducers, and so does any draft from its first
    [setPrimaryColor] on. *)
Theorem run_ops_at_most_one_primary (ops : list DraftOp) (st : Draft) :
  primary_count (FormData.variants (fst st)) <= 1
  \/ (exists colorId, In (OpSetPrimaryColor colorId) ops) ->
  primary_count (FormData.variants (fst (run_ops random36 ops st))) <= 1.
Proof.
  unfold run_ops. revert st.
  induction ops as [|op ops IH]; intros st H; simpl.
  - destruct H as [H|(c & [])]. exact H.
  - apply IH. destruct H as [H|(c & [Hop|Hin])].
    + left. now apply apply_op_primary_count.
    + left. subst op. cbn [apply_op fst].
      apply setPrimaryColor_at_most_one_primary.
    + right. now exists c.
Qed.

End DraftInvariants.

(** X11. [removeColorImage (c, url)] touches image lists only: each
    variant stays in place with its other fields, a variant of color [c]
    loses every occurrence of [url] and nothing else, and a variant of
    another color keeps its images. *)
Theorem removeColorImage_pointwise (colorId url : string)
    (prev : FormData.t) (i : nat) (v : Variant.t) :
  nth_error (FormData.variants prev) i = Some v ->
  exists v',
    nth_error (FormData.variants (removeColorImage colorId url prev)) i
    = Some v'
    /\ v' = Variant.with_image_urls v (Variant.image_urls v')
    /\ (Variant.color_id v = Some colorId ->
        forall x, In x (Variant.image_urls v')
                  <-> In x (Variant.image_urls v) /\ x <> url)
    /\ (Variant.color_id v <> Some colorId -> v' = v).
Proof.
  intros Hn. unfold removeColorImage. simpl.
  rewrite nth_error_map, Hn. simpl.
  destruct (strict_eq (Variant.color_id v) colorId) eqn:E.
  - apply strict_eq_true in E. eexists. split; [reflexivity|].
    split; [reflexivity|]. split.
    + intros _ x. simpl. rewrite filter_In, negb_true_iff, String.eqb_neq.
      tauto.
    + intros Hne. contradiction.
  - exists v. split; [reflexivity|]. split; [now destruct v|]. split.
    + intros Hc. apply strict_eq_true in Hc. congruence.
    + reflexivity.
Qed.

(* ------------------------------------------------------------------ *)
(** ** Selecting the primary color *)

Lemma findIndex_from_ext (p : Variant.t -> bool) (a b : list Variant.t)
    (k : Z) :
  map p a = map p b -> findIndex_from p a k = findIndex_from p b k.
Proof.
  revert b k. induction a as [|x a IH]; intros [|y b] k H; simpl in *;
    try discriminate; [reflexivity|].
  inversion H as [[Hx Hrest]]. rewrite Hx.
  destruct (p y); [reflexivity | now apply IH].
Qed.

Lemma flagged_first_count (p : Variant.t -> bool) (l : list Variant.t)
    (k : nat) :
  primary_count
    (mapi_from
       (fun v i =>
          Variant.with_is_primary v
            (p v && Z.eqb (findIndex_from p l (Z.of_nat k)) (Z.of_nat i)))
       l k)
  = if existsb p l then 1 else 0.
Proof.
  revert k. induction l as [|x l IH]; intros k; [reflexivity|].
  cbn [mapi_from existsb findIndex_from].
  destruct (p x) eqn:Px.
  - rewrite Z.eqb_refl. unfold primary_count. simpl. f_equal.
    apply (proj1 (flag_at_index_at_most_one p (Z.of_nat k) l (S k))). lia.
  - unfold primary_count. simpl.
    replace (Z.of_nat k + 1)%Z with (Z.of_nat (S k)) by lia.
    apply IH.
Qed.

(** X12. After [setPrimaryColor c] exactly one variant is flagged when
    some variant has color [c], and none otherwise. *)
Theorem setPrimaryColor_count (colorId : string) (prev : FormData.t) :
  primary_count (FormData.variants (setPrimaryColor colorId prev))
  = if existsb (has_color colorId) (FormData.variants prev) then 1 else 0.
Proof.
  unfold setPrimaryColor, mapi, findIndex. simpl.
  apply (flagged_first_count (has_color colorId) (FormData.variants prev) 0).
Qed.

Lemma mapi_from_twice (f g : Variant.t -> nat -> bool) (l : list Variant.t)
    (k : nat) :
  (forall v i b, g (Variant.with_is_primary v b) i = g v i) ->
  mapi_from (fun v i => Variant.with_is_primary v (g v i))
    (mapi_from (fun v i => Variant.with_is_primary v (f v i)) l k) k
  = mapi_from (fun v i => Variant.with_is_primary v (g v i)) l k.
Proof.
  intros Hg. revert k. induction l as [|x l IH]; intros k; simpl;
    [reflexivity|].
  rewrite IH, Hg. reflexivity.
Qed.

(** X13. The last primary selection wins: selecting [c2] after [c1]
    gives the same draft as selecting [c2] alone; in particular a
    repeated selection changes nothing. *)
Theorem setPrimaryColor_last_wins (c1 c2 : string) (prev : FormData.t) :
  setPrimaryColor c2 (setPrimaryColor c1 prev) = setPrimaryColor c2 prev.
Proof.
  destruct prev as [sku name description price discount collection stock
                    status fabrics variants colors sizes].
  unfold setPrimaryColor, FormData.with_variants. simpl. f_equal.
  pose (f1 := fun (v : Variant.t) (i : nat) =>
                strict_eq (Variant.color_id v) c1
                && Z.eqb (findIndex_from
                            (fun varnt => strict_eq (Variant.color_id varnt) c1)
                            variants 0) (Z.of_nat i)).
  pose (p2 := fun varnt : Variant.t => strict_eq (Variant.color_id varnt) c2).
  pose (once := mapi_from (fun v i => Variant.with_is_primary v (f1 v i))
                  variants 0).
  change (mapi_from
            (fun v i =>
               Variant.with_is_primary v
                 (p2 v && Z.eqb (findIndex_from p2 once 0) (Z.of_nat i)))
            once 0
          = mapi_from
              (fun v i =>
                 Variant.with_is_primary v
                   (p2 v && Z.eqb (findIndex_from p2 variants 0) (Z.of_nat i)))
              variants 0).
  assert (Hidx : findIndex_from p2 once 0 = findIndex_from p2 variants 0).
  { apply findIndex_from_ext.
    pose proof (mapi_from_keys f1 variants 0) as Hk. fold once in Hk.
    apply (f_equal (map (fun k : option string * string =>
                           strict_eq (fst k) c2))) in Hk.
    rewrite !map_map in Hk. exact Hk. }
  rewrite Hidx.
  apply (mapi_from_twice f1
           (fun v i => p2 v && Z.eqb (findIndex_from p2 variants 0)
                                     (Z.of_nat i))).
  intros v i b. reflexivity.
Qed.

(* ------------------------------------------------------------------ *)
(** ** The tag input and the color controls *)

Lemma nodup_remove_at (A : Type) (i : nat) (l : list A) :
  NoDup l -> NoDup (remove_at i l).
Proof.
  intros H. revert i. induction H as [|x l Hx Hl IH]; intros i.
  - destruct i; constructor.
  - destruct i as [|i]; simpl; [exact Hl|]. constructor.
    + intros Hin. apply Hx. eapply in_remove_at. exact Hin.
    + apply IH.
Qed.

Lemma nodup_snoc (A : Type) (l : list A) (x : A) :
  NoDup l -> ~ In x l -> NoDup (l ++ [x]).
Proof.
  intros Hl Hx. apply NoDup_app; [exact Hl|repeat constructor; intros []|].
  intros a Ha [<-|[]]. contradiction.
Qed.

Lemma truthy_nonempty (s : string) : truthy s = true <-> s <> "".
Proof. destruct s; simpl; split; try congruence; discriminate. Qed.

Lemma TagInput_addTag_distinct (trim : string -> string)
    (tags : list string) (inputValue : string) :
  NoDup tags -> ~ In "" tags ->
  match fst (TagInput.addTag trim tags inputValue) with
  | Some tags' => NoDup tags' /\ ~ In "" tags'
  | None => True
  end.
Proof.
  intros Hnd Hne. unfold TagInput.addTag.
  destruct (truthy (strip_trailing_comma (trim inputValue))
            && negb (includes tags (strip_trailing_comma (trim inputValue))))
    eqn:E; simpl; [|exact I].
  apply andb_true_iff in E. destruct E as [Ht Hi].
  apply truthy_nonempty in Ht. apply negb_true_iff in Hi.
  assert (Hnot : ~ In (strip_trailing_comma (trim inputValue)) tags).
  { intros Hin. apply includes_true in Hin. congruence. }
  split; [now apply nodup_snoc|].
  intros Hin. apply in_app_or in Hin. destruct Hin as [Hin|[Hin|[]]].
  - contradiction.
  - congruence.
Qed.

(** X14. The tag input never hands out a duplicate or an empty tag:
    whatever the admin types, clicks or presses, and whatever [trim]
    does, a list of distinct non-empty tags stays one. *)
Theorem TagInput_tags_stay_distinct (trim : string -> string)
    (actions : list TagInput.Action) (tags : list string)
    (inputValue : string) :
  NoDup tags -> ~ In "" tags ->
  let tags' := fst (fold_left (TagInput.step trim) actions (tags, inputValue)) in
  NoDup tags' /\ ~ In "" tags'.
Proof.
  cbv zeta. revert tags inputValue.
  induction actions as [|a actions IH]; intros tags inputValue Hnd Hne;
    cbn [fold_left]; [simpl; tauto|].
  assert (Hstep :
    NoDup (fst (TagInput.step trim (tags, inputValue) a))
    /\ ~ In "" (fst (TagInput.step trim (tags, inputValue) a))).
  { assert (Hrm : forall i, NoDup (TagInput.removeTag i tags)
                            /\ ~ In "" (TagInput.removeTag i tags)).
    { intros i. unfold TagInput.removeTag. split.
      - now apply nodup_remove_at.
      - intros Hin. apply Hne. eapply in_remove_at. exact Hin. }
    pose proof (TagInput_addTag_distinct trim inputValue Hnd Hne) as Hadd.
    destruct a as [text|key| |index]; simpl.
    - tauto.
    - unfold TagInput.handleKeyDown.
      destruct (String.eqb key "Enter" || String.eqb key ",").
      + destruct (TagInput.addTag trim tags inputValue) as [[tags'|] input'];
          simpl in *; tauto.
      + destruct (String.eqb key "Backspace" && negb (truthy inputValue)
                  && (0 <? List.length tags)); simpl; [apply Hrm | tauto].
    - destruct (TagInput.addTag trim tags inputValue) as [[tags'|] input'];
        simpl in *; tauto.
    - apply Hrm. }
  destruct (TagInput.step trim (tags, inputValue) a) as [tags1 input1].
  simpl in Hstep. apply IH; tauto.
Qed.

Section ColorControls.

Variable random36 : nat -> string.

Lemma setColors_colors (colors : list ColorItem.t) (st : Draft) :
  FormData.colors (fst (setColors random36 colors st)) = colors.
Proof. reflexivity. Qed.

Lemma apply_click_colors (globalColors : list ColorItem.t) (st : Draft)
    (click : ColorClick) :
  let colors := FormData.colors (fst st) in
  let colors' :=
    FormData.colors (fst (apply_click random36 globalColors st click)) in
  (exists i, colors' = remove_at i colors)
  \/ colors' = colors
  \/ exists color,
       colors' = colors ++ [color]
       /\ In color globalColors
       /\ ~ In (ColorItem.name color) (map ColorItem.name colors).
Proof.
  cbv zeta. destruct click as [val|index]; simpl.
  - unfold selectLibraryColor.
    destruct (find (fun c => String.eqb (ColorItem.name c) val) globalColors)
      as [color|] eqn:F; [|tauto].
    destruct (existsb
                (fun c => String.eqb (ColorItem.name c) (ColorItem.name color))
                (FormData.colors (fst st))) eqn:E; simpl; [tauto|].
    right. right. exists color. split; [reflexivity|]. split.
    + apply find_some in F. tauto.
    + intros Hin. apply in_map_iff in Hin. destruct Hin as (c & Hname & Hc).
      assert (existsb
                (fun c => String.eqb (ColorItem.name c) (ColorItem.name color))
                (FormData.colors (fst st)) = true).
      { apply existsb_exists. exists c. split; [exact Hc|].
        now apply String.eqb_eq. }
      congruence.
  - left. exists index. reflexivity.
Qed.

(** X15. Through the color select and the badge buttons the selected
    colors stay library colors with pairwise distinct names; with the
    unique ids of the library their ids are pairwise distinct too. *)
Theorem color_controls_keep_colors_distinct (globalColors : list ColorItem.t)
    (clicks : list ColorClick) (st : Draft) :
  NoDup (map ColorItem.id globalColors) ->
  (forall c, In c (FormData.colors (fst st)) -> In c globalColors) ->
  NoDup (map ColorItem.name (FormData.colors (fst st))) ->
  let colors' :=
    FormData.colors
      (fst (fold_left (apply_click random36 globalColors) clicks st)) in
  (forall c, In c colors' -> In c globalColors)
  /\ NoDup (map ColorItem.name colors')
  /\ NoDup (map ColorItem.id colors').
Proof.
  intros Hlib. cbv zeta.
  assert (Hids : forall colors : list ColorItem.t,
            (forall c, In c colors -> In c globalColors) ->
            NoDup (map ColorItem.name colors) ->
            NoDup (map ColorItem.id colors)).
  { assert (Hinj : forall c c', In c globalColors -> In c' globalColors ->
                     ColorItem.id c = ColorItem.id c' -> c = c').
    { clear -Hlib. induction globalColors as [|x l IH]; intros c c' Hc Hc' E;
        [contradiction|].
      simpl in Hlib. inversion Hlib as [|? ? Hx Hl]; subst.
      destruct Hc as [<-|Hc], Hc' as [<-|Hc'].
      - reflexivity.
      - elim Hx. rewrite E. now apply in_map.
      - elim Hx. rewrite <- E. now apply in_map.
      - now apply IH. }
    induction colors as [|c colors IHc]; intros Hsub Hnames; simpl;
      constructor.
    - simpl in Hnames. inversion Hnames as [|? ? Hc _]; subst.
      intros Hin. apply in_map_iff in Hin. destruct Hin as (c' & E & Hc').
      apply Hc.
      assert (c' = c) as ->
        by (apply Hinj; [apply Hsub; now right | apply Hsub; now left | exact E]).
      now apply in_map.
    - apply IHc; [intros c' Hc'; apply Hsub; now right|].
      simpl in Hnames. now inversion Hnames. }
  revert st. induction clicks as [|click clicks IH]; intros st Hsub Hnames;
    simpl.
  - split; [exact Hsub|]. split; [exact Hnames | now apply Hids].
  - assert (Hmapn : forall (l : list ColorItem.t) i,
              map ColorItem.name (remove_at i l)
              = remove_at i (map ColorItem.name l)).
    { induction l as [|y l IHl]; intros [|i]; simpl; try reflexivity.
      now rewrite IHl. }
    apply IH.
    + intros c Hc.
      destruct (apply_click_colors globalColors st click)
        as [(i & E)|[E|(color & E & Hlibc & _)]]; rewrite E in Hc.
      * apply Hsub. eapply in_remove_at. exact Hc.
      * now apply Hsub.
      * apply in_app_or in Hc. destruct Hc as [Hc|[<-|[]]];
          [now apply Hsub | exact Hlibc].
    + destruct (apply_click_colors globalColors st click)
        as [(i & E)|[E|(color & E & _ & Hfresh)]]; rewrite E.
      * rewrite Hmapn. now apply nodup_remove_at.
      * exact Hnames.
      * rewrite map_app. simpl. now apply nodup_snoc.
Qed.

End ColorControls.

(* ------------------------------------------------------------------ *)
(** ** The draft derived from the fetched rows *)

Lemma set_from_spec (arr seen : list string) :
  NoDup seen ->
  let out := fold_left (fun seen x => if includes seen x then seen
                                      else seen ++ [x]) arr seen in
  NoDup out /\ forall x, In x out <-> In x seen \/ In x arr.
Proof.
  cbv zeta. revert seen. induction arr as [|a arr IH]; intros seen Hnd; simpl.
  - split; [exact Hnd | tauto].
  - destruct (includes seen a) eqn:E.
    + destruct (IH seen Hnd) as [H1 H2]. split; [exact H1|].
      intros x. rewrite H2. apply includes_true in E.
      split; [tauto|]. intros [H|[<-|H]]; tauto.
    + assert (Hnot : ~ In a seen).
      { intros Hin. apply includes_true in Hin. congruence. }
      destruct (IH (seen ++ [a]) (@nodup_snoc _ _ _ Hnd Hnot)) as [H1 H2].
      split; [exact H1|]. intros x. rewrite H2, in_app_iff. simpl. tauto.
Qed.

Lemma collect_colors_spec (rows : list FetchedVariant.t)
    (colorsMap : list ColorItem.t) :
  NoDup (map ColorItem.id colorsMap) ->
  let out := fold_left collect_color rows colorsMap in
  NoDup (map ColorItem.id out)
  /\ (forall c, In c out ->
        In c colorsMap
        \/ (truthy (ColorItem.id c) = true
            /\ exists v, In v rows
                 /\ FetchedVariant.color_id v = Some (ColorItem.id c)
                 /\ FetchedVariant.color_obj v
                    = Some (ColorItem.name c, ColorItem.hex c)))
  /\ (forall cid, In cid (map ColorItem.id colorsMap) ->
                  In cid (map ColorItem.id out))
  /\ (forall v cid, In v rows ->
        FetchedVariant.color_id v = Some cid -> truthy cid = true ->
        FetchedVariant.color_obj v <> None ->
        In cid (map ColorItem.id out)).
Proof.
  cbv zeta. revert colorsMap.
  induction rows as [|r rows IH]; intros colorsMap Hnd; simpl.
  - split; [exact Hnd|]. split; [tauto|]. split; [tauto|].
    intros v cid [].
  - assert (Hstep :
      NoDup (map ColorItem.id (collect_color colorsMap r))
      /\ (forall c, In c (collect_color colorsMap r) ->
            In c colorsMap
            \/ (truthy (ColorItem.id c) = true
                /\ FetchedVariant.color_id r = Some (ColorItem.id c)
                /\ FetchedVariant.color_obj r
                   = Some (ColorItem.name c, ColorItem.hex c)))
      /\ (forall cid, In cid (map ColorItem.id colorsMap) ->
                      In cid (map ColorItem.id (collect_color colorsMap r)))
      /\ (forall cid, FetchedVariant.color_id r = Some cid ->
            truthy cid = true -> FetchedVariant.color_obj r <> None ->
            In cid (map ColorItem.id (collect_color colorsMap r)))).
    { unfold collect_color.
      destruct (FetchedVariant.color_id r) as [cid|];
        [|repeat split; try tauto; discriminate].
      destruct (truthy cid) eqn:T; simpl.
      - destruct (includes (map ColorItem.id colorsMap) cid) eqn:I; simpl.
        + split; [exact Hnd|]. split; [tauto|]. split; [tauto|].
          intros cid' E _ _. inversion E; subst. now apply includes_true.
        + destruct (FetchedVariant.color_obj r) as [[name hex]|].
          * assert (Hnot : ~ In cid (map ColorItem.id colorsMap)).
            { intros Hin. apply includes_true in Hin. congruence. }
            split; [rewrite map_app; simpl; now apply nodup_snoc|].
            split; [|split].
            -- intros c Hc. apply in_app_or in Hc.
               destruct Hc as [Hc|[<-|[]]]; [tauto|]. right. simpl. tauto.
            -- intros cid' Hin. rewrite map_app. apply in_or_app. tauto.
            -- intros cid' E _ _. inversion E; subst. rewrite map_app.
               apply in_or_app. right. now left.
          * split; [exact Hnd|]. split; [tauto|]. split; [tauto|].
            intros cid' _ _ Hobj. now elim Hobj.
      - split; [exact Hnd|]. split; [tauto|]. split; [tauto|].
        intros cid' E T'. inversion E; subst. congruence. }
    destruct Hstep as (S1 & S2 & S3 & S4).
    destruct (IH (collect_color colorsMap r) S1) as (I1 & I2 & I3 & I4).
    split; [exact I1|]. split; [|split].
    + intros c Hc. destruct (I2 c Hc) as [Hin|(T & v & Hv & Hrest)].
      * destruct (S2 c Hin) as [Hold|(T & Hcid & Hobj)]; [tauto|].
        right. split; [exact T|]. exists r. tauto.
      * right. split; [exact T|]. exists v. tauto.
    + intros cid Hin. apply I3, S3, Hin.
    + intros v cid [<-|Hv] Hcid T Hobj.
      * apply I3. now apply S4.
      * now apply (I4 v).
Qed.

(** Where the derived colors come from, which are listed, and the
    derived sizes. *)
Lemma details_facts (rows : list FetchedVariant.t) :
  (forall c, In c (details_colors rows) ->
     exists v, In v rows
       /\ FetchedVariant.color_id v = Some (ColorItem.id c))
  /\ (forall v cid, In v rows ->
        FetchedVariant.color_id v = Some cid -> cid <> "" ->
        FetchedVariant.color_obj v <> None ->
        In cid (map ColorItem.id (details_colors rows)))
  /\ (forall s, In s (details_sizes rows)
                <-> exists v, In v rows /\ FetchedVariant.size v = s).
Proof.
  unfold details_colors, details_sizes, details_variants, set_from.
  destruct (@collect_colors_spec rows [] (NoDup_nil _))
    as (_ & C2 & _ & C4).
  destruct (@set_from_spec
              (map Variant.size (map FetchedVariant.to_variant rows))
              [] (NoDup_nil _)) as (_ & Z2).
  split; [|split].
  - intros c Hc. destruct (C2 c Hc) as [[]|(_ & v & Hv & Hcid & _)].
    exists v. tauto.
  - intros v cid Hv Hcid Hne Hobj. apply (C4 v cid Hv Hcid); [|exact Hobj].
    now apply truthy_nonempty.
  - intros s. rewrite Z2, map_map, in_map_iff. simpl. split.
    + intros [[]|(x & E & Hx)]. exists x. tauto.
    + intros (v & Hv & E). right. exists v. tauto.
Qed.

(** X16. The colors and sizes the details query derives: the colors
    have pairwise distinct, non-empty ids and each one is the joined
    color of a fetched row; a color id is listed as soon as one row of
    that color came with its join; the sizes are exactly the sizes of
    the rows, each listed once. *)
Theorem details_colors_and_sizes (rows : list FetchedVariant.t) :
  NoDup (map ColorItem.id (details_colors rows))
  /\ (forall c, In c (details_colors rows) ->
        ColorItem.id c <> ""
        /\ exists v, In v rows
             /\ FetchedVariant.color_id v = Some (ColorItem.id c)
             /\ FetchedVariant.color_obj v
                = Some (ColorItem.name c, ColorItem.hex c))
  /\ (forall v cid, In v rows ->
        FetchedVariant.color_id v = Some cid -> cid <> "" ->
        FetchedVariant.color_obj v <> None ->
        In cid (map ColorItem.id (details_colors rows)))
  /\ NoDup (details_sizes rows)
  /\ (forall s, In s (details_sizes rows)
                <-> exists v, In v rows /\ FetchedVariant.size v = s).
Proof.
  unfold details_colors, details_sizes, details_variants, set_from.
  destruct (@collect_colors_spec rows [] (NoDup_nil _))
    as (C1 & C2 & _ & C4).
  destruct (@set_from_spec
              (map Variant.size (map FetchedVariant.to_variant rows))
              [] (NoDup_nil _)) as (Z1 & Z2).
  split; [exact C1|]. split; [|split; [|split; [exact Z1|]]].
  - intros c Hc. destruct (C2 c Hc) as [[]|(T & Hv)].
    split; [now apply truthy_nonempty | exact Hv].
  - intros v cid Hv Hcid Hne Hobj. apply (C4 v cid Hv Hcid); [|exact Hobj].
    now apply truthy_nonempty.
  - intros s. rewrite Z2, map_map, in_map_iff. simpl. split.
    + intros [[]|(x & E & Hx)]. exists x. tauto.
    + intros (v & Hv & E). right. exists v. tauto.
Qed.

Section LoadedDraft.

Variable number_toString : number -> string.

(** X17. Opening a product for edit and receiving its details: when the
    fetched rows form the matrix of some selection and every row came
    with its color join (non-empty id), the populated draft holds these
    rows as variants, and they are a full matrix over the colors and
    sizes the dialog derived for itself. *)
Theorem populateForm_full_matrix (product details : Product.t)
    (rows : list FetchedVariant.t) (C : list ColorItem.t) (S : list string)
    (w : World.t) :
  full_matrix C S (details_variants rows) ->
  (forall v, In v rows ->
     exists cid, FetchedVariant.color_id v = Some cid /\ cid <> ""
                 /\ FetchedVariant.color_obj v <> None) ->
  let d :=
    World.formData
      (populateForm number_toString details rows
         (handleOpenEdit number_toString product w)) in
  FormData.variants d = details_variants rows
  /\ full_matrix (FormData.colors d) (FormData.sizes d) (FormData.variants d).
Proof.
  intros [Hw Hc] Hjoin. cbv zeta.
  unfold populateForm, handleOpenEdit. simpl. rewrite String.eqb_refl. simpl.
  split; [reflexivity|].
  destruct (details_facts rows) as (D2 & D3 & D5).
  split.
  - intros v Hin. unfold details_variants in Hin. apply in_map_iff in Hin.
    destruct Hin as (r & <- & Hr).
    destruct (Hjoin r Hr) as (cid & Hcid & Hne & Hobj).
    pose proof (D3 r cid Hr Hcid Hne Hobj) as Hin.
    apply in_map_iff in Hin. destruct Hin as (c & Hid & Hcin).
    exists c. split; [exact Hcin|]. split.
    + simpl. now rewrite Hid.
    + apply D5. now exists r.
  - intros c s Hcin Hs.
    destruct (D2 c Hcin) as (r1 & Hr1 & Hcid1).
    apply D5 in Hs. destruct Hs as (r2 & Hr2 & Hs2).
    destruct (Hw (FetchedVariant.to_variant r1)) as (c0 & Hc0 & Hv0 & _).
    { unfold details_variants. now apply in_map. }
    destruct (Hw (FetchedVariant.to_variant r2)) as (_ & _ & _ & Hs0).
    { unfold details_variants. now apply in_map. }
    simpl in Hv0, Hs0.
    assert (ColorItem.id c = ColorItem.id c0) as -> by congruence.
    subst s. now apply Hc.
Qed.

End LoadedDraft.

(* ------------------------------------------------------------------ *)
(** ** Pending images and file names *)

Lemma index_of_nth_matching_spec (p : PendingFile.t -> bool) (i : nat)
    (l : list PendingFile.t) (position : nat) :
  match index_of_nth_matching p i l position with
  | Some a =>
      exists j,
        a = position + j
        /\ filter p (remove_at j l) = remove_at i (filter p l)
        /\ filter (fun x => negb (p x)) (remove_at j l)
           = filter (fun x => negb (p x)) l
        /\ S (List.length (remove_at j l)) = List.length l
  | None => List.length (filter p l) <= i
  end.
Proof.
  revert i position. induction l as [|x l IH]; intros i position; simpl.
  - lia.
  - destruct (p x) eqn:Px.
    + destruct i as [|i].
      * exists 0. simpl. rewrite ?Px. simpl.
        repeat split; try reflexivity. lia.
      * specialize (IH i (S position)).
        destruct (index_of_nth_matching p i l (S position)) as [a|].
        -- destruct IH as (j & Ha & H1 & H2 & H3). exists (S j). simpl.
           rewrite ?Px. simpl. rewrite H1, H2, H3.
           repeat split; try reflexivity. lia.
        -- simpl. lia.
    + specialize (IH i (S position)).
      destruct (index_of_nth_matching p i l (S position)) as [a|].
      * destruct IH as (j & Ha & H1 & H2 & H3). exists (S j). simpl.
        rewrite ?Px. simpl. rewrite H1, H2, H3.
        repeat split; try reflexivity. lia.
      * exact IH.
Qed.

(** X18. The remove button of a pending image takes out exactly the
    [i]-th pending file of that color: the pending files of the color
    lose their [i]-th entry, all others stay in place; when the color
    has fewer pending files nothing changes. *)
Theorem removePendingOfColor_spec (colorId : string) (i : nat)
    (prev : list PendingFile.t) :
  let ofColor := fun p => strict_eq (PendingFile.colorId p) colorId in
  let next := removePendingOfColor colorId i prev in
  filter ofColor next = remove_at i (filter ofColor prev)
  /\ filter (fun p => negb (ofColor p)) next
     = filter (fun p => negb (ofColor p)) prev
  /\ (List.length (filter ofColor prev) <= i -> next = prev)
  /\ (i < List.length (filter ofColor prev) ->
      S (List.length next) = List.length prev).
Proof.
  cbv zeta. unfold removePendingOfColor.
  pose proof (index_of_nth_matching_spec
                (fun p => strict_eq (PendingFile.colorId p) colorId) i prev 0)
    as H.
  destruct (index_of_nth_matching
              (fun p => strict_eq (PendingFile.colorId p) colorId) i prev 0)
    as [a|].
  - destruct H as (j & Ha & H1 & H2 & H3). simpl in Ha. subst a.
    split; [exact H1|]. split; [exact H2|]. split; [|intros _; exact H3].
    intros Hle. exfalso.
    assert (Hlen : List.length
                     (filter (fun p => strict_eq (PendingFile.colorId p) colorId)
                        (remove_at j prev))
                   = List.length
                       (filter (fun p => strict_eq (PendingFile.colorId p) colorId)
                          prev)).
    { rewrite H1. now rewrite remove_at_out_of_range. }
    assert (Hsplit : forall l : list PendingFile.t,
              List.length l
              = List.length
                  (filter (fun p => strict_eq (PendingFile.colorId p) colorId) l)
                + List.length
                    (filter (fun p => negb (strict_eq (PendingFile.colorId p)
                                              colorId)) l)).
    { induction l as [|x l IHl]; simpl; [reflexivity|].
      destruct (strict_eq (PendingFile.colorId x) colorId); simpl; lia. }
    pose proof (Hsplit prev) as S1. pose proof (Hsplit (remove_at j prev)) as S2.
    rewrite H2, Hlen in S2. lia.
  - split; [now rewrite remove_at_out_of_range|]. split; [reflexivity|].
    split; [reflexivity | lia].
Qed.

Lemma last_segment_spec (s segment : string) :
  ~ In "."%char (list_ascii_of_string segment) ->
  let ext := last_segment s segment in
  ~ In "."%char (list_ascii_of_string ext)
  /\ ((segment ++ s)%string = ext
      \/ exists stem, (segment ++ s)%string = (stem ++ "." ++ ext)%string).
Proof.
  cbv zeta. revert segment.
  induction s as [|c s IH]; intros segment Hseg; simpl.
  - split; [exact Hseg|]. left.
    clear. induction segment; simpl; [reflexivity | now f_equal].
  - assert (Happ : forall a b : string,
              (a ++ String c b)%string
              = ((a ++ String c EmptyString) ++ b)%string).
    { clear. induction a; intros b; simpl; [reflexivity | now rewrite IHa]. }
    destruct (Ascii.eqb c ".") eqn:E.
    + apply Ascii.eqb_eq in E. subst c.
      destruct (IH EmptyString) as [H1 H2]; [intros []|].
      split; [exact H1|]. right. simpl in H2.
      set (ext := last_segment s EmptyString) in *.
      destruct H2 as [H2|(stem & H2)].
      * exists segment. now rewrite H2.
      * exists (segment ++ "." ++ stem)%string. rewrite H2.
        clear. induction segment; simpl; [reflexivity | now f_equal].
    + apply Ascii.eqb_neq in E.
      destruct (IH (segment ++ String c EmptyString)%string) as [H1 H2].
      { clear -Hseg E. induction segment; simpl in *.
        - intros [H|[]]. congruence.
        - intros [H|H]; [apply Hseg; now left|].
          apply IHsegment; [|exact H]. intros H'. apply Hseg. now right. }
      split; [exact H1|]. rewrite Happ. exact H2.
Qed.

Lemma index_of_nth_matching_app (A : Type) (p : A -> bool)
    (prev new : list A) (j position : nat) :
  (forall x, In x new -> p x = true) ->
  j < List.length new ->
  index_of_nth_matching p (List.length (filter p prev) + j) (prev ++ new)
    position
  = Some (position + List.length prev + j).
Proof.
  intros Hall. revert j position.
  induction prev as [|a prev IH]; intros j position Hj; simpl.
  - revert j position Hj.
    induction new as [|x new IHnew]; intros j position Hj; simpl in *;
      [lia|].
    rewrite (Hall x (or_introl eq_refl)). destruct j as [|j].
    + f_equal. lia.
    + rewrite IHnew by (auto; lia). f_equal. lia.
  - destruct (p a); simpl; rewrite IH by exact Hj; f_equal; lia.
Qed.

Lemma remove_at_app (A : Type) (prev new : list A) (j : nat) :
  remove_at (List.length prev + j) (prev ++ new) = prev ++ remove_at j new.
Proof.
  induction prev as [|a prev IH]; simpl; [reflexivity|]. now rewrite IH.
Qed.

(** X28. Files added for a color through [handleImageUpload] are the
    last pending files of that color, and the remove button of the
    [j]-th of them takes that file back out: the files pending before
    stay as they were, and adding one file and removing it again gives
    the pending list back. *)
Theorem upload_then_remove_pending (files : list (File.t * string))
    (c : string) (j : nat) (w : World.t) :
  j < List.length files ->
  let ofColor := fun p => strict_eq (PendingFile.colorId p) c in
  let before := World.pendingFiles w in
  let added :=
    map (fun fp => PendingFile.mk (fst fp) (snd fp) (Some c)) files in
  let after := World.pendingFiles (handleImageUpload files (Some c) w) in
  after = before ++ added
  /\ removePendingOfColor c (List.length (filter ofColor before) + j) after
     = before ++ remove_at j added
  /\ (List.length files = 1 ->
      removePendingOfColor c (List.length (filter ofColor before)) after
      = before).
Proof.
  intros Hj. cbv zeta.
  assert (Hafter :
    World.pendingFiles (handleImageUpload files (Some c) w)
    = World.pendingFiles w
      ++ map (fun fp => PendingFile.mk (fst fp) (snd fp) (Some c)) files).
  { destruct files; [simpl in Hj; lia | reflexivity]. }
  assert (Hremove : forall k, k < List.length files ->
    removePendingOfColor c
      (List.length
         (filter (fun p => strict_eq (PendingFile.colorId p) c)
            (World.pendingFiles w)) + k)
      (World.pendingFiles (handleImageUpload files (Some c) w))
    = World.pendingFiles w
      ++ remove_at k
           (map (fun fp => PendingFile.mk (fst fp) (snd fp) (Some c)) files)).
  { intros k Hk. rewrite Hafter. unfold removePendingOfColor.
    rewrite index_of_nth_matching_app.
    - simpl. apply remove_at_app.
    - intros x Hx. apply in_map_iff in Hx. destruct Hx as (fp & <- & _).
      simpl. apply String.eqb_refl.
    - now rewrite length_map. }
  split; [exact Hafter|]. split; [exact (Hremove j Hj)|].
  intros Hone. destruct files as [|f [|f' files]]; try discriminate.
  pose proof (Hremove 0 (Nat.lt_0_succ 0)) as H0.
  rewrite Nat.add_0_r in H0. rewrite H0. simpl. apply app_nil_r.
Qed.

(** X19. The extension [uploadProductImage] takes from a file name has
    no dot, and the name is either the extension itself (a name without
    dot is taken whole) or some stem, a dot, and the extension. *)
Theorem fileExt_spec (file : File.t) :
  ~ In "."%char (list_ascii_of_string (fileExt file))
  /\ (File.name file = fileExt file
      \/ exists stem,
           File.name file = (stem ++ "." ++ fileExt file)%string).
Proof.
  unfold fileExt.
  apply (@last_segment_spec (File.name file) EmptyString).
  intros [].
Qed.

(* ------------------------------------------------------------------ *)
(** ** What a save leaves in the dialog and in the bucket *)

Lemma accepted_files_all (backend : Backend.t) (pfs : list PendingFile.t)
    (k : nat) :
  (forall i pf, nth_error pfs i = Some pf ->
     Backend.storage_upload backend (k + i) (PendingFile.file pf) <> None) ->
  accepted_files backend pfs k = map PendingFile.file pfs.
Proof.
  revert k. induction pfs as [|pf rest IH]; intros k H; simpl; [reflexivity|].
  pose proof (H 0 pf eq_refl) as H0. rewrite Nat.add_0_r in H0.
  destruct (Backend.storage_upload backend k (PendingFile.file pf));
    [|now elim H0].
  f_equal. apply IH. intros i pf' Hn.
  replace (S k + i) with (k + S i) by lia. now apply H.
Qed.

Section SaveFrames.

Variable parseFloat : string -> number.
Variable backend : Backend.t.

Lemma start_uploads_frame (pfs : list PendingFile.t) (k : nat) (w : World.t) :
  let r := start_uploads backend pfs k w in
  World.pendingFiles (snd r) = World.pendingFiles w
  /\ World.editingProduct (snd r) = World.editingProduct w
  /\ World.selectedProductId (snd r) = World.selectedProductId w
  /\ World.bucket (snd r) = World.bucket w ++ accepted_files backend pfs k
  /\ (forall urls, all_settled (fst r) = inr urls ->
        urls = uploaded_results backend pfs k).
Proof.
  revert k w. induction pfs as [|pf rest IH]; intros k w; cbv zeta.
  - simpl. rewrite app_nil_r. do 4 (split; [reflexivity|]).
    intros urls H. now inversion H.
  - simpl. unfold uploadProductImage, bind, emit, act, throw, ret.
    destruct (Backend.storage_upload backend k (PendingFile.file pf))
      as [url|] eqn:U;
      match goal with
      | |- context [start_uploads backend rest (S k) ?w1] =>
          specialize (IH (S k) w1);
          destruct (start_uploads backend rest (S k) w1) as [rs w2]
      end;
      cbv zeta in IH; simpl in IH; simpl;
      destruct IH as (Hp & He & Hs & Hb & Hu);
      rewrite Hp, He, Hs, Hb, <- ?app_assoc;
      do 4 (split; [reflexivity|]).
    + intros urls H. destruct (all_settled rs) as [e|l]; [discriminate|].
      inversion H; subst. f_equal. now apply Hu.
    + intros urls H. discriminate.
Qed.

Lemma upload_pending_frame (pfs : list PendingFile.t) (vs : list Variant.t)
    (w : World.t) :
  let r := upload_pending backend pfs vs w in
  World.pendingFiles (snd r) = World.pendingFiles w
  /\ World.editingProduct (snd r) = World.editingProduct w
  /\ World.selectedProductId (snd r) = World.selectedProductId w
  /\ World.bucket (snd r) = World.bucket w ++ accepted_files backend pfs 0
  /\ (forall pf, In pf pfs ->
        In (StorageUpload (PendingFile.file pf))
           (issued_since (World.trace w) (World.trace (snd r))))
  /\ (forall cv, fst r = inr cv ->
        cv = local_copy backend pfs vs
        /\ World.formData (snd r)
           = match pfs with
             | [] => World.formData w
             | _ :: _ => FormData.with_variants (World.formData w) cv
             end).
Proof.
  cbv zeta. unfold upload_pending. destruct pfs as [|pf rest].
  - simpl. unfold ret. simpl. rewrite app_nil_r.
    do 4 (split; [reflexivity|]). split; [intros pf' []|].
    intros cv H. inversion H. split; reflexivity.
  - change (0 <? List.length (pf :: rest)) with true. cbv iota.
    unfold bind, emit, act, ret, promise_all_uploads.
    set (w0 := World.emit _ w).
    pose proof (start_uploads_frame (pf :: rest) 0 w0) as H.
    pose proof (start_uploads_run backend (pf :: rest) 0 w0) as T.
    cbv zeta in H, T.
    destruct (start_uploads backend (pf :: rest) 0 w0) as [rs w1].
    simpl fst in H, T. simpl snd in H, T.
    destruct H as (Hp & He & Hs & Hb & Hu).
    destruct T as (Hf & _ & _ & _ & Ht & _).
    assert (Hin : forall pf', In pf' (pf :: rest) ->
              In (StorageUpload (PendingFile.file pf'))
                 (map (fun p => StorageUpload (PendingFile.file p))
                      (pf :: rest))).
    { intros pf' Hpf.
      now apply (in_map (fun p => StorageUpload (PendingFile.file p))). }
    unfold w0 in Ht. cbn [World.trace World.emit] in Ht.
    destruct (all_settled rs) as [e|urls] eqn:A;
      cbn [fst snd World.pendingFiles World.editingProduct
           World.selectedProductId World.bucket World.trace World.emit
           World.setFormData World.formData].
    + split; [exact Hp|]. split; [exact He|]. split; [exact Hs|].
      split; [exact Hb|]. split; [|intros cv Hcv; discriminate].
      intros pf' Hpf. rewrite Ht, <- app_assoc, issued_since_app.
      apply in_or_app. right. now apply Hin.
    + split; [exact Hp|]. split; [exact He|]. split; [exact Hs|].
      split; [exact Hb|]. split.
      * intros pf' Hpf. rewrite Ht, <- !app_assoc, issued_since_app.
        apply in_or_app. right. apply in_or_app. left. now apply Hin.
      * intros cv Hcv. inversion Hcv; subst cv.
        rewrite (Hu urls eq_refl). split; [reflexivity|].
        rewrite Hf. reflexivity.
Qed.

(** The dialog and the bucket after steps 3 and 4, by the answers of
    the database. *)
Lemma persist_frame (formData : FormData.t) (editingProduct : option Product.t)
    (cv : list Variant.t) (w : World.t) :
  let payload := productPayload parseFloat formData cv in
  let r := persist parseFloat backend formData editingProduct cv w in
  let kept :=
    World.pendingFiles (snd r) = World.pendingFiles w
    /\ World.editingProduct (snd r) = World.editingProduct w
    /\ World.selectedProductId (snd r) = World.selectedProductId w
    /\ World.isDialogOpen (snd r) = World.isDialogOpen w in
  let closed :=
    World.formData (snd r) = FormData.empty
    /\ World.pendingFiles (snd r) = []
    /\ World.editingProduct (snd r) = None
    /\ World.selectedProductId (snd r) = None
    /\ World.isDialogOpen (snd r) = false in
  World.bucket (snd r) = World.bucket w
  /\ match write_outcome backend editingProduct payload with
     | inl _ => kept /\ World.formData (snd r) = World.formData w
     | inr productId =>
         if truthy productId then
           match Backend.variants_delete backend productId with
           | Some _ => kept /\ World.formData (snd r) = World.formData w
           | None =>
               match variantsToInsert productId (saved_variants cv),
                     Backend.variants_insert backend
                       (variantsToInsert productId (saved_variants cv)) with
               | _ :: _, Some _ =>
                   kept
                   /\ World.formData (snd r)
                      = if (0 <? List.length cv)
                           && negb (existsb Variant.is_primary cv)
                        then FormData.with_variants (World.formData w)
                               (saved_variants cv)
                        else World.formData w
               | _, _ => closed
               end
           end
         else closed
     end.
Proof.
  cbv zeta.
  assert (Hsaved : forall pid,
    variantsToInsert pid
      (if (0 <? List.length cv) && negb (existsb Variant.is_primary cv)
       then force_first_primary cv else cv)
    = variantsToInsert pid (saved_variants cv)) by reflexivity.
  assert (Hforce :
    (if (0 <? List.length cv) && negb (existsb Variant.is_primary cv)
     then force_first_primary cv else cv) = saved_variants cv)
    by reflexivity.
  unfold persist, write_outcome.
  unfold supabase_products_update, supabase_products_insert, save_variants,
    supabase_variants_delete, supabase_variants_insert.
  cbv zeta. unfold bind, emit, act, ret, throw.
  destruct editingProduct as [p|].
  - destruct (Backend.products_update backend (Product.id p)
                (productPayload parseFloat formData cv)) as [error|].
    + simpl. repeat split.
    + destruct (truthy (Product.id p)); cbv beta iota delta [when_].
      * destruct (Backend.variants_delete backend (Product.id p))
          as [deleteError|].
        -- simpl. repeat split.
        -- rewrite !Hsaved, ?Hforce.
           destruct (variantsToInsert (Product.id p) (saved_variants cv))
             as [|row rows].
           ++ destruct ((0 <? List.length cv)
                         && negb (existsb Variant.is_primary cv));
                simpl; repeat split.
           ++ change (0 <? List.length (row :: rows)) with true. cbv iota.
              destruct (Backend.variants_insert backend (row :: rows));
                destruct ((0 <? List.length cv)
                          && negb (existsb Variant.is_primary cv));
                simpl; repeat split.
      * simpl. repeat split.
  - destruct (Backend.products_insert backend
                (productPayload parseFloat formData cv)) as [error|productId].
    + simpl. repeat split.
    + destruct (truthy productId); cbv beta iota delta [when_].
      * destruct (Backend.variants_delete backend productId)
          as [deleteError|].
        -- simpl. repeat split.
        -- rewrite !Hsaved, ?Hforce.
           destruct (variantsToInsert productId (saved_variants cv))
             as [|row rows].
           ++ destruct ((0 <? List.length cv)
                         && negb (existsb Variant.is_primary cv));
                simpl; repeat split.
           ++ change (0 <? List.length (row :: rows)) with true. cbv iota.
              destruct (Backend.variants_insert backend (row :: rows));
                destruct ((0 <? List.length cv)
                          && negb (existsb Variant.is_primary cv));
                simpl; repeat split.
      * simpl. repeat split.
Qed.

End SaveFrames.

(* ------------------------------------------------------------------ *)
(** ** Outcomes of a save *)

Lemma attach_upload_pointwise (vs : list Variant.t)
    (result : string * option string) :
  attach_upload vs result = map (fun v => attach_to v result) vs.
Proof.
  unfold attach_upload, attach_to. destruct (snd result) as [colorId|].
  - destruct (truthy colorId); simpl; [reflexivity|].
    symmetry. apply map_id.
  - symmetry. apply map_id.
Qed.

Lemma attach_uploads_pointwise (results : list (string * option string))
    (vs : list Variant.t) :
  fold_left attach_upload results vs
  = map (fun v => fold_left attach_to results v) vs.
Proof.
  revert vs. induction results as [|r results IH]; intros vs; simpl.
  - symmetry. apply map_id.
  - rewrite IH, attach_upload_pointwise, map_map. reflexivity.
Qed.

(** One variant through all results: same color, the URLs of its color
    are added once, nothing else changes. *)
Lemma attach_all_spec (results : list (string * option string))
    (v : Variant.t) :
  let v' := fold_left attach_to results v in
  v' = Variant.with_image_urls v (Variant.image_urls v')
  /\ (forall x, In x (Variant.image_urls v')
                <-> In x (Variant.image_urls v)
                    \/ exists c, In (x, Some c) results /\ c <> ""
                                 /\ Variant.color_id v = Some c)
  /\ (NoDup (Variant.image_urls v) -> NoDup (Variant.image_urls v')).
Proof.
  cbv zeta. revert v. induction results as [|r results IH]; intros v; simpl.
  - split; [now destruct v|]. split; [|tauto].
    intros x. split; [tauto|]. intros [H|(c & [] & _)]. exact H.
  - destruct (IH (attach_to v r)) as (I1 & I2 & I3).
    assert (Hone :
      attach_to v r = Variant.with_image_urls v
                        (Variant.image_urls (attach_to v r))
      /\ (forall x, In x (Variant.image_urls (attach_to v r))
                    <-> In x (Variant.image_urls v)
                        \/ exists c, r = (x, Some c) /\ c <> ""
                                     /\ Variant.color_id v = Some c)
      /\ (NoDup (Variant.image_urls v) ->
          NoDup (Variant.image_urls (attach_to v r)))).
    { unfold attach_to. destruct r as [url [c|]]; simpl.
      - destruct (truthy c && strict_eq (Variant.color_id v) c) eqn:E.
        + apply andb_true_iff in E. destruct E as [T Hc].
          apply truthy_nonempty in T. apply strict_eq_true in Hc.
          destruct (includes (Variant.image_urls v) url) eqn:I; simpl.
          * split; [reflexivity|]. split; [|tauto].
            intros x. split; [tauto|].
            intros [H|(c' & E & _)]; [exact H|].
            inversion E; subst. now apply includes_true.
          * split; [reflexivity|]. split.
            -- intros x. rewrite in_app_iff. simpl. split.
               ++ intros [H|[<-|[]]]; [tauto|]. right. now exists c.
               ++ intros [H|(c' & E & _)]; [tauto|]. inversion E. tauto.
            -- intros Hnd. apply nodup_snoc; [exact Hnd|].
               intros Hin. apply includes_true in Hin. congruence.
        + split; [now destruct v|]. split; [|tauto].
          intros x. split; [tauto|].
          intros [H|(c' & Er & Hne & Hc)]; [exact H|].
          inversion Er; subst c'. apply truthy_nonempty in Hne.
          apply strict_eq_true in Hc. rewrite Hne, Hc in E. discriminate.
      - split; [now destruct v|]. split; [|tauto].
        intros x. split; [tauto|]. intros [H|(c' & Er & _)]; [exact H|].
        discriminate. }
    destruct Hone as (O1 & O2 & O3).
    assert (Hcol : Variant.color_id (attach_to v r) = Variant.color_id v)
      by (rewrite O1; reflexivity).
    split; [|split].
    + rewrite I1 at 1. rewrite O1. reflexivity.
    + intros x. rewrite I2, O2, Hcol. split.
      * intros [[H|(c & E & Hne & Hc)]|(c & Hin & Hne & Hc)].
        -- tauto.
        -- right. exists c. split; [left; exact E | tauto].
        -- right. exists c. split; [right; exact Hin | tauto].
      * intros [H|(c & [E|Hin] & Hne & Hc)].
        -- tauto.
        -- left. right. exists c. tauto.
        -- right. exists c. tauto.
    + intros Hnd. apply I3, O3, Hnd.
Qed.

Lemma uploaded_results_in (backend : Backend.t) (pfs : list PendingFile.t)
    (k : nat) (x : string) (c : option string) :
  In (x, c) (uploaded_results backend pfs k)
  <-> exists i pf,
        nth_error pfs i = Some pf
        /\ Backend.storage_upload backend (k + i) (PendingFile.file pf)
           = Some x
        /\ PendingFile.colorId pf = c.
Proof.
  revert k. induction pfs as [|pf rest IH]; intros k; simpl.
  - split; [intros [] | intros ([|i] & pf & H & _); discriminate].
  - assert (Hrest :
      In (x, c) (uploaded_results backend rest (S k))
      <-> exists i pf',
            nth_error rest i = Some pf'
            /\ Backend.storage_upload backend (k + S i) (PendingFile.file pf')
               = Some x
            /\ PendingFile.colorId pf' = c).
    { rewrite IH. split; intros (i & pf' & H1 & H2 & H3); exists i, pf';
        (split; [exact H1|]; split; [|exact H3]).
      - now replace (k + S i) with (S k + i) by lia.
      - now replace (S k + i) with (k + S i) by lia. }
    destruct (Backend.storage_upload backend k (PendingFile.file pf))
      as [url|] eqn:U.
    + simpl. rewrite Hrest. split.
      * intros [E|(i & pf' & H)].
        -- inversion E; subst. exists 0, pf. rewrite Nat.add_0_r. tauto.
        -- exists (S i), pf'. exact H.
      * intros ([|i] & pf' & H1 & H2 & H3); simpl in H1.
        -- inversion H1; subst pf'. rewrite Nat.add_0_r, U in H2.
           inversion H2; subst. now left.
        -- right. now exists i, pf'.
    + rewrite Hrest. split.
      * intros (i & pf' & H). exists (S i), pf'. exact H.
      * intros ([|i] & pf' & H1 & H2 & H3); simpl in H1.
        -- inversion H1; subst pf'. rewrite Nat.add_0_r, U in H2.
           discriminate.
        -- now exists i, pf'.
Qed.

Lemma stock_sum_saved_variants (cv : list Variant.t) :
  stock_sum (saved_variants cv) = stock_sum cv.
Proof.
  unfold saved_variants.
  destruct ((0 <? List.length cv) && negb (existsb Variant.is_primary cv));
    [|reflexivity].
  now destruct cv.
Qed.

Lemma rows_stock_variantsToInsert (productId : string)
    (vs : list Variant.t) :
  rows_stock (variantsToInsert productId vs) = stock_sum vs.
Proof.
  unfold variantsToInsert. induction vs as [|v vs IH]; simpl; [reflexivity|].
  now rewrite IH.
Qed.

Lemma rows_of_other (productId q : string) (vs : list Variant.t) :
  q <> productId -> rows_of q (variantsToInsert productId vs) = [].
Proof.
  intros Hne. unfold rows_of, variantsToInsert.
  induction vs as [|v vs IH]; simpl; [reflexivity|].
  assert (String.eqb productId q = false) as ->
    by (apply String.eqb_neq; congruence).
  exact IH.
Qed.

Lemma rows_of_deleted_other (productId q : string)
    (rows : list VariantRow.t) :
  q <> productId ->
  rows_of q (db_delete_variants productId rows) = rows_of q rows.
Proof.
  intros Hne. unfold rows_of, db_delete_variants.
  induction rows as [|r rows IH]; simpl; [reflexivity|].
  destruct (String.eqb (VariantRow.product_id r) productId) eqn:E; simpl.
  - apply String.eqb_eq in E.
    assert (String.eqb (VariantRow.product_id r) q = false) as ->
      by (apply String.eqb_neq; congruence).
    exact IH.
  - destruct (String.eqb (VariantRow.product_id r) q); [f_equal|]; exact IH.
Qed.

Section SaveOutcomes.

Variable parseFloat : string -> number.
Variable backend : Backend.t.

(** [handleSubmit] on a draft that passes validation, as its two
    phases. *)
Lemma handleSubmit_phases (w : World.t) :
  passes_validation (World.formData w) = true ->
  handleSubmit parseFloat backend w
  = match upload_pending backend (World.pendingFiles w)
            (FormData.variants (World.formData w)) w with
    | (inl e, w1) =>
        World.emit (ToastError (catch_message e) (Some "upload")) w1
    | (inr cv, w1) =>
        match persist parseFloat backend (World.formData w)
                (World.editingProduct w) cv w1 with
        | (inl e, w2) =>
            World.emit (ToastError (catch_message e) (Some "upload")) w2
        | (inr _, w2) => w2
        end
    end.
Proof.
  intros Hvalid. unfold handleSubmit. cbv zeta.
  unfold passes_validation in Hvalid. apply negb_true_iff in Hvalid.
  rewrite Hvalid. unfold try_catch, submit_body. rewrite bind_run.
  destruct (upload_pending backend (World.pendingFiles w)
              (FormData.variants (World.formData w)) w) as [[e|cv] w1];
    [reflexivity|].
  destruct (persist parseFloat backend (World.formData w)
              (World.editingProduct w) cv w1) as [[e|[]] w2]; reflexivity.
Qed.

Lemma handleSubmit_bucket (w : World.t) :
  passes_validation (World.formData w) = true ->
  World.bucket (handleSubmit parseFloat backend w)
  = World.bucket w ++ accepted_files backend (World.pendingFiles w) 0
  /\ forall pf, In pf (World.pendingFiles w) ->
       In (StorageUpload (PendingFile.file pf))
          (issued_since (World.trace w)
             (World.trace (handleSubmit parseFloat backend w))).
Proof.
  intros Hvalid. rewrite (handleSubmit_phases _ Hvalid).
  pose proof (upload_pending_frame backend (World.pendingFiles w)
                (FormData.variants (World.formData w)) w) as F.
  pose proof (upload_pending_run backend (World.pendingFiles w)
                (FormData.variants (World.formData w)) w) as R.
  cbv zeta in F.
  destruct (upload_pending backend (World.pendingFiles w)
              (FormData.variants (World.formData w)) w) as [[e|cv] w1];
    simpl in F; destruct F as (_ & _ & _ & Hb & Hup & _).
  - simpl. split; [exact Hb|]. intros pf Hpf.
    destruct R as (_ & _ & _ & _ & _ & _ & evs & Ht & _).
    specialize (Hup pf Hpf). rewrite Ht, issued_since_app in Hup.
    rewrite Ht, <- app_assoc, issued_since_app. apply in_or_app. now left.
  - destruct R as (_ & _ & _ & _ & _ & evs & Ht & _).
    pose proof (persist_frame parseFloat backend (World.formData w)
                  (World.editingProduct w) cv w1) as P.
    destruct (persist_events parseFloat backend (World.formData w)
                (World.editingProduct w) cv w1) as (evs' & Ht' & _).
    cbv zeta in P. destruct P as [Pb _].
    destruct (persist parseFloat backend (World.formData w)
                (World.editingProduct w) cv w1) as [[e|u] w2];
      simpl in *; (split; [now rewrite Pb|]); intros pf Hpf;
      specialize (Hup pf Hpf); rewrite Ht, issued_since_app in Hup;
      rewrite Ht', Ht, <- !app_assoc, issued_since_app;
      apply in_or_app; now left.
Qed.

(** X20. Every upload of a save is issued and every accepted file stays
    in the bucket, whether the save completes or stops on an error:
    after an aborted save the bucket holds files no variant refers to,
    and the files are still pending in the dialog. *)
Theorem aborted_save_keeps_uploaded_files (w : World.t) (i : nat)
    (pf : PendingFile.t) :
  passes_validation (World.formData w) = true ->
  nth_error (World.pendingFiles w) i = Some pf ->
  Backend.storage_upload backend i (PendingFile.file pf) = None ->
  let w' := handleSubmit parseFloat backend w in
  World.bucket w'
  = World.bucket w ++ accepted_files backend (World.pendingFiles w) 0
  /\ (forall pf', In pf' (World.pendingFiles w) ->
        In (StorageUpload (PendingFile.file pf'))
           (issued_since (World.trace w) (World.trace w')))
  /\ World.pendingFiles w' = World.pendingFiles w
  /\ World.product_variants w' = World.product_variants w.
Proof.
  intros Hvalid Hn Hu. cbv zeta.
  destruct (handleSubmit_bucket w Hvalid) as [Hb Hup].
  split; [exact Hb|]. split; [exact Hup|].
  rewrite (handleSubmit_phases _ Hvalid).
  pose proof (upload_pending_frame backend (World.pendingFiles w)
                (FormData.variants (World.formData w)) w) as F.
  pose proof (upload_pending_run backend (World.pendingFiles w)
                (FormData.variants (World.formData w)) w) as R.
  cbv zeta in F.
  destruct (upload_pending backend (World.pendingFiles w)
              (FormData.variants (World.formData w)) w) as [[e|cv] w1];
    simpl in F.
  - destruct F as (Hp & _). destruct R as (_ & _ & _ & _ & _ & Hv & _).
    simpl. tauto.
  - destruct R as (Hok & _). elim (Hok i pf Hn Hu).
Qed.

(** X21. When the product write fails, nothing is written: both tables
    are as before, no request to [product_variants] is issued, the error
    is shown, and the dialog stays open with its pending files; the
    draft already carries the URLs of the uploaded images. *)
Theorem product_write_failure_writes_nothing (w : World.t)
    (error : JsError.t) :
  passes_validation (World.formData w) = true ->
  uploads_succeed backend (World.pendingFiles w) ->
  (forall payload,
     write_outcome backend (World.editingProduct w) payload = inl error) ->
  let w' := handleSubmit parseFloat backend w in
  let cv := local_copy backend (World.pendingFiles w)
              (FormData.variants (World.formData w)) in
  World.products w' = World.products w
  /\ World.product_variants w' = World.product_variants w
  /\ World.pendingFiles w' = World.pendingFiles w
  /\ World.isDialogOpen w' = World.isDialogOpen w
  /\ World.formData w'
     = match World.pendingFiles w with
       | [] => World.formData w
       | _ :: _ => FormData.with_variants (World.formData w) cv
       end
  /\ exists before,
       issued_since (World.trace w) (World.trace w')
       = before
         ++ [write_event (World.editingProduct w)
               (productPayload parseFloat (World.formData w) cv);
             ToastError (catch_message error) (Some "upload")]
       /\ Forall (fun e => is_db_write e = false) before.
Proof.
  intros Hvalid Hup Hfail. cbv zeta. rewrite (handleSubmit_phases _ Hvalid).
  pose proof (upload_pending_frame backend (World.pendingFiles w)
                (FormData.variants (World.formData w)) w) as F.
  pose proof (upload_pending_run backend (World.pendingFiles w)
                (FormData.variants (World.formData w)) w) as R.
  cbv zeta in F.
  destruct (upload_pending backend (World.pendingFiles w)
              (FormData.variants (World.formData w)) w) as [[e|cv] w1];
    simpl in F.
  - destruct R as (_ & (i & pf & Hn & Hu) & _). elim (Hup i pf Hn Hu).
  - destruct F as (Fp & _ & _ & _ & _ & Fcv).
    destruct (Fcv cv eq_refl) as [Hcv Hform].
    destruct R as (_ & _ & Ho & Hp & Hv & evs & Ht & Hev).
    pose proof (persist_run parseFloat backend (World.formData w)
                  (World.editingProduct w) cv w1) as P.
    pose proof (persist_frame parseFloat backend (World.formData w)
                  (World.editingProduct w) cv w1) as Q.
    cbv zeta in P, Q. rewrite Hfail in P, Q.
    destruct P as (Pr & Pp & Pv & Pt).
    destruct Q as (_ & (Qp & _ & _ & Qo) & Qf).
    destruct (persist parseFloat backend (World.formData w)
                (World.editingProduct w) cv w1) as [[e|u] w2];
      simpl in *; [|discriminate].
    inversion Pr; subst e. rewrite <- Hcv.
    split; [congruence|]. split; [congruence|]. split; [congruence|].
    split; [congruence|]. split; [congruence|].
    exists evs. split; [|exact Hev].
    rewrite Pt, Ht, <- !app_assoc. apply issued_since_app.
Qed.

(** X22. When the delete of the variant rows fails, the product row is
    already written and stays so, the variant rows are untouched, no
    insert is issued, and the dialog stays open. *)
Theorem delete_failure_keeps_variant_rows (w : World.t) (productId : string)
    (deleteError : JsError.t) :
  passes_validation (World.formData w) = true ->
  uploads_succeed backend (World.pendingFiles w) ->
  product_write_ok backend (World.editingProduct w) productId ->
  truthy productId = true ->
  Backend.variants_delete backend productId = Some deleteError ->
  let w' := handleSubmit parseFloat backend w in
  let payload :=
    productPayload parseFloat (World.formData w)
      (local_copy backend (World.pendingFiles w)
         (FormData.variants (World.formData w))) in
  World.product_variants w' = World.product_variants w
  /\ World.products w'
     = written_products (World.editingProduct w) productId payload
         (World.products w)
  /\ World.isDialogOpen w' = World.isDialogOpen w
  /\ World.pendingFiles w' = World.pendingFiles w
  /\ exists before,
       issued_since (World.trace w) (World.trace w')
       = before
         ++ [write_event (World.editingProduct w) payload;
             VariantsDelete productId;
             ToastError (catch_message deleteError) (Some "upload")]
       /\ Forall (fun e => is_db_write e = false) before.
Proof.
  intros Hvalid Hup Hwrite Htruthy Hdelete. cbv zeta.
  rewrite (handleSubmit_phases _ Hvalid).
  pose proof (upload_pending_frame backend (World.pendingFiles w)
                (FormData.variants (World.formData w)) w) as F.
  pose proof (upload_pending_run backend (World.pendingFiles w)
                (FormData.variants (World.formData w)) w) as R.
  cbv zeta in F.
  destruct (upload_pending backend (World.pendingFiles w)
              (FormData.variants (World.formData w)) w) as [[e|cv] w1];
    simpl in F.
  - destruct R as (_ & (i & pf & Hn & Hu) & _). elim (Hup i pf Hn Hu).
  - destruct F as (Fp & _ & _ & _ & _ & Fcv).
    destruct (Fcv cv eq_refl) as [Hcv _].
    destruct R as (_ & _ & Ho & Hp & Hv & evs & Ht & Hev).
    pose proof (persist_run parseFloat backend (World.formData w)
                  (World.editingProduct w) cv w1) as P.
    pose proof (persist_frame parseFloat backend (World.formData w)
                  (World.editingProduct w) cv w1) as Q.
    cbv zeta in P, Q.
    rewrite (@product_write_ok_outcome backend _ productId _ Hwrite) in P, Q.
    rewrite Htruthy, Hdelete in P, Q.
    destruct P as (Pp & Pr & Pv & Pt).
    destruct Q as (_ & (Qp & _ & _ & Qo) & _).
    destruct (persist parseFloat backend (World.formData w)
                (World.editingProduct w) cv w1) as [[e|u] w2];
      simpl in *; [|discriminate].
    inversion Pr; subst e. rewrite <- Hcv.
    split; [congruence|]. split; [congruence|]. split; [congruence|].
    split; [congruence|].
    exists evs. split; [|exact Hev].
    rewrite Pt, Ht, <- !app_assoc. apply issued_since_app.
Qed.

End SaveOutcomes.

Section CompletedSave.

Variable parseFloat : string -> number.
Variable backend : Backend.t.

(** The world after a save on which every request succeeds. *)
Lemma completed_save (w : World.t) (productId : string) :
  passes_validation (World.formData w) = true ->
  uploads_succeed backend (World.pendingFiles w) ->
  product_write_ok backend (World.editingProduct w) productId ->
  truthy productId = true ->
  Backend.variants_delete backend productId = None ->
  (forall rows, Backend.variants_insert backend rows = None) ->
  let w' := handleSubmit parseFloat backend w in
  let cv := local_copy backend (World.pendingFiles w)
              (FormData.variants (World.formData w)) in
  World.product_variants w'
  = db_delete_variants productId (World.product_variants w)
    ++ variantsToInsert productId (saved_variants cv)
  /\ World.products w'
     = written_products (World.editingProduct w) productId
         (productPayload parseFloat (World.formData w) cv) (World.products w)
  /\ World.formData w' = FormData.empty
  /\ World.pendingFiles w' = []
  /\ World.editingProduct w' = None
  /\ World.selectedProductId w' = None
  /\ World.isDialogOpen w' = false.
Proof.
  intros Hvalid Hup Hwrite Htruthy Hdelete Hinsert. cbv zeta.
  rewrite (@handleSubmit_phases parseFloat backend w Hvalid).
  pose proof (upload_pending_frame backend (World.pendingFiles w)
                (FormData.variants (World.formData w)) w) as F.
  pose proof (upload_pending_run backend (World.pendingFiles w)
                (FormData.variants (World.formData w)) w) as R.
  cbv zeta in F.
  destruct (upload_pending backend (World.pendingFiles w)
              (FormData.variants (World.formData w)) w) as [[e|cv] w1];
    simpl in F.
  - destruct R as (_ & (i & pf & Hn & Hu) & _). elim (Hup i pf Hn Hu).
  - destruct F as (_ & _ & _ & _ & _ & Fcv).
    destruct (Fcv cv eq_refl) as [Hcv _].
    destruct R as (_ & _ & Ho & Hp & Hv & evs & Ht & Hev).
    pose proof (persist_run parseFloat backend (World.formData w)
                  (World.editingProduct w) cv w1) as P.
    pose proof (persist_frame parseFloat backend (World.formData w)
                  (World.editingProduct w) cv w1) as Q.
    cbv zeta in P, Q.
    rewrite (@product_write_ok_outcome backend _ productId _ Hwrite) in P, Q.
    rewrite Htruthy, Hdelete in P, Q. rewrite <- Hcv.
    destruct P as (Pp & P). destruct Q as (_ & Q).
    destruct (variantsToInsert productId (saved_variants cv))
      as [|row rows] eqn:E; rewrite ?Hinsert in P, Q;
      destruct P as (Pr & Pv & _); destruct Q as (Q1 & Q2 & Q3 & Q4 & Q5);
      destruct (persist parseFloat backend (World.formData w)
                  (World.editingProduct w) cv w1) as [[e|u] w2];
      simpl in *; try discriminate;
      (split; [congruence|]); (split; [congruence|]); tauto.
Qed.

(** X23. A completed save replaces the rows of the saved product and of
    no other: the product's rows are the in-memory list, in order, all
    tagged with the product id; the rows of every other product are as
    before; and the dialog is closed with an empty draft and no pending
    file. *)
Theorem completed_save_replaces_rows (w : World.t) (productId : string) :
  passes_validation (World.formData w) = true ->
  uploads_succeed backend (World.pendingFiles w) ->
  product_write_ok backend (World.editingProduct w) productId ->
  truthy productId = true ->
  Backend.variants_delete backend productId = None ->
  (forall rows, Backend.variants_insert backend rows = None) ->
  let w' := handleSubmit parseFloat backend w in
  rows_of productId (World.product_variants w')
  = variantsToInsert productId
      (saved_variants
         (local_copy backend (World.pendingFiles w)
            (FormData.variants (World.formData w))))
  /\ (forall q, q <> productId ->
        rows_of q (World.product_variants w')
        = rows_of q (World.product_variants w))
  /\ World.formData w' = FormData.empty
  /\ World.pendingFiles w' = []
  /\ World.editingProduct w' = None
  /\ World.isDialogOpen w' = false.
Proof.
  intros Hvalid Hup Hwrite Htruthy Hdelete Hinsert. cbv zeta.
  destruct (@completed_save w productId Hvalid Hup Hwrite Htruthy Hdelete
              Hinsert)
    as (Hv & _ & Hf & Hp & He & _ & Ho).
  rewrite Hv. split; [|split].
  - rewrite rows_of_app, rows_of_deleted. apply rows_of_variantsToInsert.
  - intros q Hq. rewrite rows_of_app, (@rows_of_other productId q _ Hq), app_nil_r.
    now apply rows_of_deleted_other.
  - tauto.
Qed.

(** X24. While the magnitudes of the variants' stock add up to at most
    [2 ^ 53], where the double-precision reduce is exact: after a
    completed save the stock on the product row equals the sum of the
    stock of the product's variant rows; the new row of a created
    product carries it, and so does every row with the id of an updated
    product. *)
Theorem completed_save_stock_matches_rows (w : World.t)
    (productId : string) :
  (stock_magnitude (FormData.variants (World.formData w)) <= 2 ^ 53)%Z ->
  passes_validation (World.formData w) = true ->
  uploads_succeed backend (World.pendingFiles w) ->
  product_write_ok backend (World.editingProduct w) productId ->
  truthy productId = true ->
  Backend.variants_delete backend productId = None ->
  (forall rows, Backend.variants_insert backend rows = None) ->
  let w' := handleSubmit parseFloat backend w in
  let total := rows_stock (rows_of productId (World.product_variants w')) in
  total = stock_sum (FormData.variants (World.formData w))
  /\ match World.editingProduct w with
     | Some _ =>
         forall columns, In (productId, columns) (World.products w') ->
           ProductPayload.stock_quantity columns = total
     | None =>
         exists columns,
           In (productId, columns) (World.products w')
           /\ ProductPayload.stock_quantity columns = total
     end.
Proof.
  intros Hrange Hvalid Hup Hwrite Htruthy Hdelete Hinsert. cbv zeta.
  destruct (@completed_save w productId Hvalid Hup Hwrite Htruthy Hdelete
              Hinsert)
    as (Hv & Hp & _).
  set (cv := local_copy backend (World.pendingFiles w)
               (FormData.variants (World.formData w))) in *.
  assert (Hcv : (stock_magnitude cv <= 2 ^ 53)%Z).
  { rewrite (@stock_magnitude_ext cv (FormData.variants (World.formData w)));
      [exact Hrange|].
    unfold cv, local_copy. now apply attach_uploads_map. }
  assert (Hrows : rows_stock (rows_of productId
                    (World.product_variants
                       (handleSubmit parseFloat backend w)))
                  = stock_sum cv).
  { rewrite Hv, rows_of_app, rows_of_deleted, app_nil_l,
      rows_of_variantsToInsert, rows_stock_variantsToInsert.
    apply stock_sum_saved_variants. }
  rewrite Hrows, Hp. split.
  - apply stock_sum_ext. unfold cv, local_copy.
    now apply attach_uploads_map.
  - unfold written_products.
    destruct (World.editingProduct w) as [p|].
    + intros columns Hin. unfold db_update_product in Hin.
      apply in_map_iff in Hin. destruct Hin as ([id0 c0] & E & _).
      simpl in E. destruct (String.eqb id0 productId) eqn:Eid.
      * inversion E; subst.
        cbn [ProductPayload.stock_quantity productPayload].
        now apply total_stock_sum.
      * inversion E; subst. rewrite String.eqb_refl in Eid. discriminate.
    + eexists. split.
      * apply in_or_app. right. left. reflexivity.
      * cbn [ProductPayload.stock_quantity productPayload].
        now apply total_stock_sum.
Qed.

(** X25. The rows a completed save writes, against the draft: row [j]
    is variant [j] with the same color, size, SKU, price and stock; its
    images are the variant's images followed by the URLs of the uploads
    pending for its color, none of them twice when the variant's images
    were distinct. *)
Theorem completed_save_row_images (w : World.t) (productId : string)
    (j : nat) (v : Variant.t) :
  passes_validation (World.formData w) = true ->
  uploads_succeed backend (World.pendingFiles w) ->
  product_write_ok backend (World.editingProduct w) productId ->
  truthy productId = true ->
  Backend.variants_delete backend productId = None ->
  (forall rows, Backend.variants_insert backend rows = None) ->
  nth_error (FormData.variants (World.formData w)) j = Some v ->
  exists r,
    nth_error
      (rows_of productId
         (World.product_variants (handleSubmit parseFloat backend w))) j
    = Some r
    /\ VariantRow.product_id r = productId
    /\ VariantRow.color_id r = Variant.color_id v
    /\ VariantRow.size r = Variant.size v
    /\ VariantRow.sku r = Variant.sku v
    /\ VariantRow.price r = Variant.price v
    /\ VariantRow.stock_quantity r = Variant.stock_quantity v
    /\ (forall url,
          In url (VariantRow.image_urls r)
          <-> In url (Variant.image_urls v)
              \/ exists i pf c,
                   nth_error (World.pendingFiles w) i = Some pf
                   /\ Backend.storage_upload backend i (PendingFile.file pf)
                      = Some url
                   /\ PendingFile.colorId pf = Some c /\ c <> ""
                   /\ Variant.color_id v = Some c)
    /\ (NoDup (Variant.image_urls v) -> NoDup (VariantRow.image_urls r)).
Proof.
  intros Hvalid Hup Hwrite Htruthy Hdelete Hinsert Hn.
  destruct (@completed_save w productId Hvalid Hup Hwrite Htruthy Hdelete
              Hinsert)
    as (Hv & _).
  rewrite Hv, rows_of_app, rows_of_deleted, app_nil_l,
    rows_of_variantsToInsert.
  unfold local_copy. rewrite attach_uploads_pointwise.
  set (results := uploaded_results backend (World.pendingFiles w) 0).
  destruct (attach_all_spec results v) as (A1 & A2 & A3).
  set (v' := fold_left attach_to results v) in *.
  assert (Hsaved : forall l : list Variant.t,
            forall x, nth_error l j = Some x ->
            exists y, nth_error (saved_variants l) j = Some y
                      /\ y = Variant.with_is_primary x (Variant.is_primary y)).
  { intros l x Hx. unfold saved_variants.
    destruct ((0 <? List.length l) && negb (existsb Variant.is_primary l)).
    - destruct l as [|a l]; [destruct j; discriminate|].
      destruct j as [|j']; simpl in *.
      + inversion Hx; subst. eexists. split; reflexivity.
      + exists x. split; [exact Hx | now destruct x].
    - exists x. split; [exact Hx | now destruct x]. }
  destruct (Hsaved (map (fun v0 => fold_left attach_to results v0)
                      (FormData.variants (World.formData w))) v')
    as (y & Hy & Ey).
  { rewrite nth_error_map, Hn. reflexivity. }
  unfold variantsToInsert. rewrite nth_error_map, Hy. simpl.
  eexists. split; [reflexivity|]. simpl.
  rewrite Ey, A1. simpl.
  split; [reflexivity|]. split; [reflexivity|]. split; [reflexivity|].
  split; [reflexivity|]. split; [reflexivity|]. split; [reflexivity|].
  split; [|exact A3].
  intros url. rewrite A2. split.
  - intros [H|(c & Hin & Hne & Hc)]; [tauto|]. right.
    apply uploaded_results_in in Hin.
    destruct Hin as (i & pf & H1 & H2 & H3). exists i, pf, c. tauto.
  - intros [H|(i & pf & c & H1 & H2 & H3 & Hne & Hc)]; [tauto|]. right.
    exists c. split; [|tauto]. apply uploaded_results_in.
    exists i, pf. tauto.
Qed.

End CompletedSave.

(** X26. After a save that failed on the product write the uploaded
    files are still pending, so a second attempt uploads every one of
    them again: the bucket ends with each file stored twice. *)
Theorem retry_uploads_files_again (parseFloat : string -> number)
    (first second : Backend.t) (w : World.t) (error : JsError.t) :
  passes_validation (World.formData w) = true ->
  uploads_succeed first (World.pendingFiles w) ->
  (forall payload,
     write_outcome first (World.editingProduct w) payload = inl error) ->
  uploads_succeed second (World.pendingFiles w) ->
  let w1 := handleSubmit parseFloat first w in
  let w2 := handleSubmit parseFloat second w1 in
  World.pendingFiles w1 = World.pendingFiles w
  /\ World.bucket w2
     = World.bucket w
       ++ map PendingFile.file (World.pendingFiles w)
       ++ map PendingFile.file (World.pendingFiles w).
Proof.
  intros Hvalid Hup1 Hfail Hup2. cbv zeta.
  assert (Hfirst :
    World.pendingFiles (handleSubmit parseFloat first w)
    = World.pendingFiles w
    /\ passes_validation
         (World.formData (handleSubmit parseFloat first w)) = true).
  { rewrite (@handleSubmit_phases parseFloat first w Hvalid).
    pose proof (upload_pending_frame first (World.pendingFiles w)
                  (FormData.variants (World.formData w)) w) as F.
    pose proof (upload_pending_run first (World.pendingFiles w)
                  (FormData.variants (World.formData w)) w) as R.
    cbv zeta in F.
    destruct (upload_pending first (World.pendingFiles w)
                (FormData.variants (World.formData w)) w) as [[e|cv] w1];
      simpl in F.
    - destruct R as (_ & (i & pf & Hn & Hu) & _). elim (Hup1 i pf Hn Hu).
    - destruct F as (Fp & _ & _ & _ & _ & Fcv).
      destruct (Fcv cv eq_refl) as [_ Hform].
      destruct R as (_ & Hmap & _).
      pose proof (persist_run parseFloat first (World.formData w)
                    (World.editingProduct w) cv w1) as P.
      pose proof (persist_frame parseFloat first (World.formData w)
                    (World.editingProduct w) cv w1) as Q.
      cbv zeta in P, Q. rewrite Hfail in P, Q.
      destruct P as (Pr & _). destruct Q as (_ & (Qp & _) & Qf).
      destruct (persist parseFloat first (World.formData w)
                  (World.editingProduct w) cv w1) as [[e|u] w2];
        simpl in *; [|discriminate].
      split; [congruence|]. rewrite Qf, Hform.
      unfold passes_validation in *.
      destruct (World.pendingFiles w); [exact Hvalid|]. simpl.
      rewrite (@local_copy_length _ _ Hmap). exact Hvalid. }
  destruct Hfirst as [Hp1 Hv1]. split; [exact Hp1|].
  destruct (@handleSubmit_bucket parseFloat second _ Hv1) as [Hb2 _].
  destruct (@handleSubmit_bucket parseFloat first _ Hvalid) as [Hb1 _].
  rewrite Hb2, Hb1, Hp1, <- app_assoc.
  rewrite !accepted_files_all; [reflexivity|exact Hup2|exact Hup1].
Qed.

Section OpenAndSave.

Variable number_toString : number -> string.
Variable parseFloat : string -> number.
Variable backend : Backend.t.

(** X27. Saving right after opening a product for edit, before its
    details have filled the draft, wipes the product's variants: the
    draft then has no color and no variant, validation lets it through,
    the product row is written with stock 0, every variant row of the
    product is deleted and none is inserted. *)
Theorem save_before_details_wipes_variants (product : Product.t)
    (w : World.t) :
  truthy (Product.id product) = true ->
  (forall payload,
     Backend.products_update backend (Product.id product) payload = None) ->
  Backend.variants_delete backend (Product.id product) = None ->
  let opened := handleOpenEdit number_toString product w in
  let w' := handleSubmit parseFloat backend opened in
  rows_of (Product.id product) (World.product_variants w') = []
  /\ World.product_variants w'
     = db_delete_variants (Product.id product) (World.product_variants w)
  /\ World.isDialogOpen w' = false
  /\ exists payload,
       ProductPayload.stock_quantity payload = 0%Z
       /\ World.products w'
          = db_update_product (Product.id product) payload (World.products w)
       /\ issued_since (World.trace w) (World.trace w')
          = [ProductsUpdate (Product.id product) payload;
             VariantsDelete (Product.id product);
             ConsoleLog "Saving variants: 0";
             InvalidateQueries "products" None;
             InvalidateQueries "product-details" (Some (Product.id product));
             ToastSuccess "Product updated" None].
Proof.
  intros Htruthy Hupdate Hdelete. cbv zeta.
  set (opened := handleOpenEdit number_toString product w).
  rewrite (@handleSubmit_phases parseFloat backend opened eq_refl).
  change (upload_pending backend (World.pendingFiles opened)
            (FormData.variants (World.formData opened)) opened)
    with (@inr JsError.t (list Variant.t) [], opened).
  cbv iota.
  pose proof (persist_run parseFloat backend (World.formData opened)
                (World.editingProduct opened) [] opened) as P.
  pose proof (persist_frame parseFloat backend (World.formData opened)
                (World.editingProduct opened) [] opened) as Q.
  cbv zeta in P, Q.
  change (World.editingProduct opened) with (Some product) in *.
  unfold write_outcome in P, Q.
  rewrite Hupdate, Htruthy, Hdelete in P, Q.
  change (variantsToInsert (Product.id product) (saved_variants []))
    with (@nil VariantRow.t) in P, Q.
  cbv iota in P, Q.
  destruct P as (Pp & Pr & Pv & Pt & _).
  destruct Q as (_ & _ & _ & _ & _ & Qo).
  destruct (persist parseFloat backend (World.formData opened) (Some product)
              [] opened) as [[e|u] w2];
    cbn [fst snd] in *; [discriminate|].
  rewrite Pv, app_nil_r.
  split; [apply rows_of_deleted|]. split; [reflexivity|].
  split; [exact Qo|].
  exists (productPayload parseFloat (World.formData opened) []).
  split; [reflexivity|]. split; [exact Pp|].
  rewrite Pt. apply issued_since_app.
Qed.

End OpenAndSave.

(* ------------------------------------------------------------------ *)
(** ** The further properties on the sample product *)

Lemma library_ids_nonempty (c : ColorItem.t) :
  In c (FormData.colors sample_draft) -> ColorItem.id c <> "".
Proof.
  intros Hc. simpl in Hc. destruct Hc as [<-|[<-|[]]]; discriminate.
Qed.

Lemma setSizes_subset_only_filters_on_sample :
  let st' := setSizes sample_random36 ["M"] (sample_draft, 4) in
  FormData.variants (fst st')
  = filter (fun v => includes ["M"] (Variant.size v))
           (FormData.variants sample_draft)
  /\ snd st' = 4
  /\ full_matrix (FormData.colors (fst st')) (FormData.sizes (fst st'))
       (FormData.variants (fst st')).
Proof.
  apply (@setSizes_subset_only_filters sample_random36 sample_draft 4 ["M"]).
  - exact sample_draft_full_matrix.
  - intros x [<-|[]]. simpl. auto.
Defined.

Lemma setColors_subset_only_filters_on_sample :
  let st' := setColors sample_random36 [blue] (sample_draft, 4) in
  FormData.variants (fst st')
  = filter
      (fun v => existsb (fun c => has_color (ColorItem.id c) v) [blue])
      (FormData.variants sample_draft)
  /\ snd st' = 4
  /\ full_matrix (FormData.colors (fst st')) (FormData.sizes (fst st'))
       (FormData.variants (fst st')).
Proof.
  apply (@setColors_subset_only_filters sample_random36 sample_draft 4 [blue]).
  - exact sample_draft_full_matrix.
  - exact library_ids_nonempty.
  - intros c [<-|[]]. simpl. auto.
Defined.

Lemma removeSizeTag_drops_that_size_on_sample :
  FormData.variants (fst (removeSizeTag sample_random36 0 (sample_draft, 4)))
  = filter (fun v => negb (String.eqb (Variant.size v) "S"))
           (FormData.variants sample_draft).
Proof.
  apply (@removeSizeTag_drops_that_size sample_random36 sample_draft 4 0).
  - exact sample_draft_full_matrix.
  - simpl. distinct_strings.
Defined.

Lemma removeColorAt_drops_that_color_on_sample :
  removeColorAt sample_random36 0 (sample_draft, 4)
  = (FormData.with_colors_variants sample_draft [blue]
       (filter (fun v => negb (has_color "c-red" v))
               (FormData.variants sample_draft)),
     4).
Proof.
  apply (@removeColorAt_drops_that_color sample_random36 sample_draft 4 0 red).
  - exact sample_draft_full_matrix.
  - exact library_ids_nonempty.
  - simpl. distinct_strings.
  - reflexivity.
Defined.

Lemma variant_count_after_update_on_sample :
  List.length
    (FormData.variants
       (fst (setSizes sample_random36 ["S"; "L"; "S"; "L"; "XL"]
               (sample_draft, 4))))
  = 2 * 3.
Proof.
  exact (@variant_count_after_update sample_random36
           (SetSizes ["S"; "L"; "S"; "L"; "XL"]) sample_draft 4
           (proj1 sample_draft_full_matrix)
           (full_matrix_at_most_one sample_draft_full_matrix)).
Defined.

Lemma setSizes_adds_one_size_on_sample :
  exists news,
    FormData.variants
      (fst (setSizes sample_random36 ["S"; "M"; "L"] (sample_draft, 4)))
    = FormData.variants sample_draft ++ news
    /\ List.length news = 2
    /\ Forall (fun v => Variant.size v = "L") news.
Proof.
  destruct (@setSizes_adds_one_size sample_random36 sample_draft 4
              ["S"; "M"; "L"] "L")
    as (news & Hvs & Hlen & _ & _ & Hall).
  - exact sample_draft_full_matrix.
  - simpl. intros [H|[H|[]]]; discriminate.
  - intros x. simpl. split.
    + intros [H|[H|[H|[]]]]; auto.
    + intros [[H|[H|[]]]|H]; auto.
  - exists news. split; [exact Hvs|]. split; [exact Hlen|].
    apply (Forall_impl _ (fun v H => proj1 H) Hall).
Defined.

Lemma removeVariant_cell_comes_back_on_sample :
  let d1 := removeVariant 1 sample_draft in
  cell_count "c-blue" "S" (FormData.variants d1) = 0
  /\ exists nv,
       FormData.variants
         (fst (setSizes sample_random36 ["S"; "M"] (d1, 4)))
       = FormData.variants d1 ++ [nv]
       /\ Variant.size nv = "S"
       /\ synthesized "c-blue" nv.
Proof.
  destruct (@removeVariant_cell_comes_back sample_random36 sample_draft 4 1
              (new_variant sample_random36 "" blue "S" 1) "c-blue")
    as (_ & Hzero & _ & Hback).
  - exact sample_draft_full_matrix.
  - reflexivity.
  - reflexivity.
  - split; [exact Hzero | exact Hback].
Defined.

Lemma updateVariant_size_duplicates_cell_on_sample :
  let vs' := FormData.variants (updateVariant 1 (UpdSize "M") sample_draft) in
  cell_count "c-blue" "S" vs' = 0
  /\ cell_count "c-blue" "M" vs' = 2
  /\ List.length vs' = 4.
Proof.
  apply (@updateVariant_size_duplicates_cell sample_draft 1
           (new_variant sample_random36 "" blue "S" 1) "c-blue" "M").
  - exact sample_draft_full_matrix.
  - reflexivity.
  - reflexivity.
  - simpl. auto.
  - discriminate.
Defined.

Lemma run_ops_keeps_full_matrix_on_sample :
  let d' :=
    fst (run_ops sample_random36
           [OpSetPrimaryColor "c-red"; OpUpdateVariant 0 (UpdStock 3);
            OpSetSizes ["M"]; OpRemoveColorImage "c-red" "https://cdn/a.png";
            OpSetColors [red; blue; green]]
           (sample_draft, 4)) in
  full_matrix (FormData.colors d') (FormData.sizes d') (FormData.variants d').
Proof.
  apply (@run_ops_keeps_full_matrix sample_random36).
  - reflexivity.
  - reflexivity.
  - exact sample_draft_full_matrix.
Defined.

Lemma run_ops_at_most_one_primary_on_sample :
  primary_count (FormData.variants two_flagged_draft) = 2
  /\ primary_count
       (FormData.variants
          (fst (run_ops sample_random36
                  [OpSetSizes ["S"; "M"; "L"]; OpSetPrimaryColor "c-blue";
                   OpRemoveVariant 0]
                  (two_flagged_draft, 4)))) <= 1.
Proof.
  split; [reflexivity|].
  apply (@run_ops_at_most_one_primary sample_random36).
  right. exists "c-blue". simpl. auto.
Defined.

Lemma removeColorImage_pointwise_on_sample :
  exists v',
    nth_error
      (FormData.variants
         (removeColorImage "c-red" "https://cdn/front.png" pictured_draft)) 0
    = Some v'
    /\ ~ In "https://cdn/front.png" (Variant.image_urls v').
Proof.
  destruct (@removeColorImage_pointwise "c-red" "https://cdn/front.png"
              pictured_draft 0
              (Variant.with_image_urls
                 (new_variant sample_random36 "" red "S" 0)
                 ["https://cdn/front.png"])
              eq_refl)
    as (v' & Hnth & _ & Himg & _).
  exists v'. split; [exact Hnth|].
  intros Hin. apply (Himg eq_refl) in Hin. destruct Hin as [_ Hne].
  now apply Hne.
Defined.

Lemma TagInput_tags_stay_distinct_on_sample :
  let tags' :=
    fst (fold_left (TagInput.step sample_trim)
           [TagInput.Type_ "S"; TagInput.KeyDown "Enter"; TagInput.Type_ "M,";
            TagInput.ClickAdd; TagInput.ClickRemove 0; TagInput.Type_ "";
            TagInput.KeyDown ","]
           (["S"], "")) in
  NoDup tags' /\ ~ In "" tags'.
Proof.
  apply (@TagInput_tags_stay_distinct sample_trim).
  - distinct_strings.
  - simpl. intros [H|[]]. discriminate.
Defined.

Lemma color_controls_keep_colors_distinct_on_sample :
  let colors' :=
    FormData.colors
      (fst (fold_left (apply_click sample_random36 library)
              [SelectColor "Green"; SelectColor "Red"; RemoveColor 0;
               SelectColor "Red"]
              (sample_draft, 4))) in
  (forall c, In c colors' -> In c library)
  /\ NoDup (map ColorItem.name colors')
  /\ NoDup (map ColorItem.id colors').
Proof.
  apply (@color_controls_keep_colors_distinct sample_random36 library).
  - simpl. distinct_strings.
  - intros c Hc. simpl in Hc. destruct Hc as [<-|[<-|[]]]; simpl; auto.
  - simpl. distinct_strings.
Defined.

Lemma details_colors_and_sizes_on_sample :
  NoDup (map ColorItem.id (details_colors sample_fetched))
  /\ NoDup (details_sizes sample_fetched)
  /\ In "c-blue" (map ColorItem.id (details_colors sample_fetched)).
Proof.
  destruct (details_colors_and_sizes sample_fetched)
    as (Hids & _ & Hlisted & Hsizes & _).
  split; [exact Hids|]. split; [exact Hsizes|].
  apply (Hlisted
           (FetchedVariant.mk "v-2" "p-1" (Some "c-blue") "S" "TEE-BLUE-S"
              None 2%Z [] None (Some ("Blue", "#0000ff")))
           "c-blue").
  - simpl. auto.
  - reflexivity.
  - discriminate.
  - discriminate.
Defined.

Lemma populateForm_full_matrix_on_sample :
  let d :=
    World.formData
      (populateForm sample_number_toString sample_product sample_fetched
         (handleOpenEdit sample_number_toString sample_product
            (edit_world FormData.empty))) in
  FormData.variants d = details_variants sample_fetched
  /\ full_matrix (FormData.colors d) (FormData.sizes d) (FormData.variants d).
Proof.
  apply (@populateForm_full_matrix sample_number_toString sample_product
           sample_product sample_fetched [red; blue] ["S"]).
  - split.
    + intros v Hin. simpl in Hin.
      destruct Hin as [<-|[<-|[]]]; simpl;
        [exists red | exists blue]; simpl; tauto.
    + intros c s Hc Hs. simpl in Hc, Hs.
      destruct Hc as [<-|[<-|[]]]; destruct Hs as [<-|[]]; reflexivity.
  - intros v Hin. simpl in Hin.
    destruct Hin as [<-|[<-|[]]]; [exists "c-red" | exists "c-blue"];
      simpl; repeat split; discriminate.
Defined.

Lemma removePendingOfColor_spec_on_sample :
  S (List.length (removePendingOfColor "c-blue" 0 two_pending))
  = List.length two_pending
  /\ removePendingOfColor "c-blue" 1 two_pending = two_pending.
Proof.
  destruct (removePendingOfColor_spec "c-blue" 0 two_pending)
    as (_ & _ & _ & Hshorter).
  destruct (removePendingOfColor_spec "c-blue" 1 two_pending)
    as (_ & _ & Hsame & _).
  split.
  - apply Hshorter. simpl. lia.
  - apply Hsame. simpl. lia.
Defined.

Lemma aborted_save_keeps_uploaded_files_on_sample :
  let w' := handleSubmit sample_parseFloat partial_store two_file_world in
  World.bucket w' = [sample_file]
  /\ World.pendingFiles w' = two_pending
  /\ World.product_variants w' = old_rows.
Proof.
  cbv zeta.
  destruct (@aborted_save_keeps_uploaded_files sample_parseFloat partial_store
              two_file_world 1
              (PendingFile.mk (File.mk "back.png") "blob:back"
                 (Some "c-blue")))
    as (Hbucket & _ & Hpending & Hrows).
  - reflexivity.
  - reflexivity.
  - reflexivity.
  - split; [exact Hbucket|]. split; [exact Hpending | exact Hrows].
Defined.

Lemma uploads_succeed_failing_write (pfs : list PendingFile.t) :
  uploads_succeed failing_write pfs.
Proof. intros i pf _ H. discriminate H. Qed.

Lemma uploads_succeed_failing_delete (pfs : list PendingFile.t) :
  uploads_succeed failing_delete pfs.
Proof. intros i pf _ H. discriminate H. Qed.

Lemma product_write_failure_writes_nothing_on_sample :
  let w' :=
    handleSubmit sample_parseFloat failing_write (create_world stocked_draft) in
  World.products w' = []
  /\ World.product_variants w' = old_rows
  /\ World.pendingFiles w' = sample_pending
  /\ World.isDialogOpen w' = true.
Proof.
  cbv zeta.
  destruct (@product_write_failure_writes_nothing sample_parseFloat
              failing_write (create_world stocked_draft) permission_denied)
    as (Hproducts & Hrows & Hpending & Hopen & _).
  - reflexivity.
  - apply uploads_succeed_failing_write.
  - intros payload. reflexivity.
  - split; [exact Hproducts|]. split; [exact Hrows|].
    split; [exact Hpending | exact Hopen].
Defined.

Lemma delete_failure_keeps_variant_rows_on_sample :
  let w' :=
    handleSubmit sample_parseFloat failing_delete (edit_world stocked_draft) in
  World.product_variants w' = old_rows
  /\ World.isDialogOpen w' = true.
Proof.
  cbv zeta.
  destruct (@delete_failure_keeps_variant_rows sample_parseFloat
              failing_delete (edit_world stocked_draft) "p-1"
              permission_denied)
    as (Hrows & _ & Hopen & _).
  - reflexivity.
  - apply uploads_succeed_failing_delete.
  - split; [reflexivity | intros payload; reflexivity].
  - reflexivity.
  - reflexivity.
  - split; [exact Hrows | exact Hopen].
Defined.

Lemma completed_save_replaces_rows_on_sample :
  let w' :=
    handleSubmit sample_parseFloat accepting_backend
      (edit_world stocked_draft) in
  rows_of "p-2" (World.product_variants w') = rows_of "p-2" old_rows
  /\ World.formData w' = FormData.empty
  /\ World.isDialogOpen w' = false.
Proof.
  cbv zeta.
  destruct (@completed_save_replaces_rows sample_parseFloat accepting_backend
              (edit_world stocked_draft) "p-1")
    as (_ & Hother & Hform & _ & _ & Hclosed).
  - reflexivity.
  - apply uploads_succeed_accepting.
  - split; [reflexivity | intros payload; reflexivity].
  - reflexivity.
  - reflexivity.
  - intros rows. reflexivity.
  - split; [apply Hother; discriminate|].
    split; [exact Hform | exact Hclosed].
Defined.

Lemma completed_save_stock_matches_rows_on_sample :
  rows_stock
    (rows_of "p-new"
       (World.product_variants
          (handleSubmit sample_parseFloat accepting_backend
             (create_world stocked_draft))))
  = 7%Z.
Proof.
  destruct (@completed_save_stock_matches_rows sample_parseFloat
              accepting_backend (create_world stocked_draft) "p-new")
    as (Htotal & _).
  - vm_compute. discriminate.
  - reflexivity.
  - apply uploads_succeed_accepting.
  - intros payload. reflexivity.
  - reflexivity.
  - reflexivity.
  - intros rows. reflexivity.
  - exact Htotal.
Defined.

Lemma completed_save_row_images_on_sample :
  exists r,
    nth_error
      (rows_of "p-new"
         (World.product_variants
            (handleSubmit sample_parseFloat accepting_backend
               (create_world stocked_draft)))) 0
    = Some r
    /\ VariantRow.stock_quantity r = 3%Z
    /\ In "https://cdn/front.png" (VariantRow.image_urls r)
    /\ NoDup (VariantRow.image_urls r).
Proof.
  destruct (@completed_save_row_images sample_parseFloat accepting_backend
              (create_world stocked_draft) "p-new" 0
              (apply_updates (new_variant sample_random36 "" red "S" 0)
                 (UpdStock 3)))
    as (r & Hnth & _ & _ & _ & _ & _ & Hstock & Himg & Hnodup).
  - reflexivity.
  - apply uploads_succeed_accepting.
  - intros payload. reflexivity.
  - reflexivity.
  - reflexivity.
  - intros rows. reflexivity.
  - reflexivity.
  - exists r. split; [exact Hnth|]. split; [exact Hstock|]. split.
    + apply Himg. right.
      exists 0, (PendingFile.mk sample_file "blob:front" (Some "c-red")),
        "c-red".
      split; [reflexivity|]. split; [reflexivity|].
      split; [reflexivity|]. split; [discriminate | reflexivity].
    + apply Hnodup. constructor.
Defined.

Lemma retry_uploads_files_again_on_sample :
  World.bucket
    (handleSubmit sample_parseFloat accepting_backend
       (handleSubmit sample_parseFloat failing_write
          (create_world stocked_draft)))
  = [sample_file; sample_file].
Proof.
  destruct (@retry_uploads_files_again sample_parseFloat failing_write
              accepting_backend (create_world stocked_draft)
              permission_denied)
    as (_ & Hbucket).
  - reflexivity.
  - apply uploads_succeed_failing_write.
  - intros payload. reflexivity.
  - apply uploads_succeed_accepting.
  - exact Hbucket.
Defined.

Lemma save_before_details_wipes_variants_on_sample :
  let w' :=
    handleSubmit sample_parseFloat accepting_backend
      (handleOpenEdit sample_number_toString sample_product
         (edit_world FormData.empty)) in
  rows_of "p-1" (World.product_variants w') = []
  /\ World.product_variants w'
     = [VariantRow.mk "p-2" (Some "c-red") "S" "CAP-RED-S" None 1%Z [] true]
  /\ World.isDialogOpen w' = false.
Proof.
  cbv zeta.
  destruct (@save_before_details_wipes_variants sample_number_toString
              sample_parseFloat accepting_backend sample_product
              (edit_world FormData.empty))
    as (Hnone & Hrows & Hclosed & _).
  - reflexivity.
  - intros payload. reflexivity.
  - reflexivity.
  - split; [exact Hnone|]. split; [exact Hrows | exact Hclosed].
Defined.

Lemma upload_then_remove_pending_on_sample :
  removePendingOfColor "c-red" 1
    (World.pendingFiles
       (handleImageUpload [(File.mk "side.png", "blob:side")] (Some "c-red")
          two_file_world))
  = two_pending.
Proof.
  destruct (@upload_then_remove_pending [(File.mk "side.png", "blob:side")]
              "c-red" 0 two_file_world)
    as (_ & _ & Hback).
  - simpl. lia.
  - exact (Hback eq_refl).
Defined.
